(** * fix_analytics_namespace.py: the namespace rewriter and its orchestration

    A shallow embedding of [fix_analytics_namespace.py].  Python 2 [str]
    values (file contents, paths, command arguments and outputs) are lists of
    characters; the working directory is a tree of named entries; external
    processes ([git], [diff]) are a collaborator reached through
    [subprocess], whose exit status and standard output are all the script
    sees.  Every function of the script is a computation in a state-and-
    exception monad over the world (file system, repository, command trace,
    log). *)

From Stdlib Require Import Ascii String List Bool Arith ZArith Lia.
Import ListNotations.

Set Implicit Arguments.

(** ** Python strings *)

Definition str := list ascii.

(** A literal of the script. *)
Definition py (s : string) : str := list_ascii_of_string s.

Module Py.

(** [a == b] *)
Fixpoint eqb (a b : str) : bool :=
  match a, b with
  | [], [] => true
  | x :: a', y :: b' => Ascii.eqb x y && eqb a' b'
  | _, _ => false
  end.

Fixpoint list_eqb (p q : list str) : bool :=
  match p, q with
  | [], [] => true
  | x :: p', y :: q' => eqb x y && list_eqb p' q'
  | _, _ => false
  end.

(** [s.startswith(p)] *)
Fixpoint startswith (s p : str) : bool :=
  match p, s with
  | [], _ => true
  | _ :: _, [] => false
  | x :: p', y :: s' => Ascii.eqb x y && startswith s' p'
  end.

(** [s.endswith(p)] *)
Definition endswith (s p : str) : bool := startswith (rev s) (rev p).

(** [p in s] *)
Fixpoint contains (s p : str) : bool :=
  startswith s p ||
  match s with
  | [] => false
  | _ :: s' => contains s' p
  end.

(** The scan of [s.replace(old, new)] for a non-empty [old]: left to
    right, each occurrence found is replaced and the scan resumes after
    it; [skip] counts the characters of a matched occurrence still to be
    passed over. *)
Fixpoint replace_from (old new : str) (skip : nat) (s : str) : str :=
  match s with
  | [] => []
  | c :: s' =>
    match skip with
    | S k => replace_from old new k s'
    | O =>
      if startswith s old
      then new ++ replace_from old new (length old - 1) s'
      else c :: replace_from old new 0 s'
    end
  end.

(** [s.replace(old, new)]; an empty [old] matches before every character
    and at the end. *)
Definition replace (s old new : str) : str :=
  match old with
  | [] => new ++ flat_map (fun c => c :: new) s
  | _ :: _ => replace_from old new 0 s
  end.

Definition is_space (c : ascii) : bool :=
  let n := nat_of_ascii c in (n =? 32) || ((9 <=? n) && (n <=? 13)).

Fixpoint lstrip (s : str) : str :=
  match s with
  | [] => []
  | c :: s' => if is_space c then lstrip s' else s
  end.

(** [s.rstrip()] *)
Definition rstrip (s : str) : str := rev (lstrip (rev s)).

(** ['{:>n}'.format(s)] *)
Definition rjust (n : nat) (s : str) : str :=
  repeat " "%char (n - length s) ++ s.

Definition slash : ascii := "/"%char.

(** One step of [posixpath.join]. *)
Definition join2 (path b : str) : str :=
  if startswith b [slash] then b
  else if eqb path [] || endswith path [slash] then path ++ b
  else path ++ slash :: b.

(** [os.path.join] applied to the list [p] *)
Definition os_path_join (p : list str) : str :=
  match p with
  | [] => []
  | a :: rest => fold_left join2 rest a
  end.

(** [(p[:i], p[i:])] for [i = p.rfind('/') + 1] *)
Fixpoint rsplit_slash (p : str) : str * str :=
  match p with
  | [] => ([], [])
  | c :: r =>
    let (h, t) := rsplit_slash r in
    match h with
    | _ :: _ => (c :: h, t)
    | [] => if Ascii.eqb c slash then ([c], t) else ([], c :: t)
    end
  end.

(** [os.path.basename(p)] *)
Definition os_path_basename (p : str) : str := snd (rsplit_slash p).

Fixpoint rstrip_slash_rev (r : str) : str :=
  match r with
  | [] => []
  | c :: r' => if Ascii.eqb c slash then rstrip_slash_rev r' else r
  end.

(** [os.path.split(p)]: the head loses its trailing slashes unless it
    consists of slashes only. *)
Definition os_path_split (p : str) : str * str :=
  let (h, t) := rsplit_slash p in
  let h' := rev (rstrip_slash_rev (rev h)) in
  (match h' with [] => h | _ :: _ => h' end, t).

(** The components of a path as the kernel resolves it relative to the
    working directory: the pieces between slashes, empty pieces dropped. *)
Fixpoint components_aux (cur : str) (p : str) : list str :=
  match p with
  | [] => match cur with [] => [] | _ => [rev cur] end
  | c :: r =>
    if Ascii.eqb c slash
    then match cur with [] => components_aux [] r
                   | _ => rev cur :: components_aux [] r end
    else components_aux (c :: cur) r
  end.

Definition components (p : str) : list str := components_aux [] p.

End Py.


(** ** The working directory *)

(** A file-system entry: a regular file with its contents, or a directory
    with its named entries in listing order. *)
#[warnings="-register-all"]
Inductive node : Type :=
| File (content : str)
| Dir (entries : list (str * node)).

Module FS.

Fixpoint assoc (x : str) (es : list (str * node)) : option node :=
  match es with
  | [] => None
  | (y, n) :: es' => if Py.eqb x y then Some n else assoc x es'
  end.

(** Bind [x] to [n]: in place when [x] is bound, as a new last entry
    otherwise. *)
Fixpoint set (x : str) (n : node) (es : list (str * node))
  : list (str * node) :=
  match es with
  | [] => [(x, n)]
  | (y, m) :: es' =>
    if Py.eqb x y then (y, n) :: es' else (y, m) :: set x n es'
  end.

Fixpoint unset (x : str) (es : list (str * node)) : list (str * node) :=
  match es with
  | [] => []
  | (y, m) :: es' => if Py.eqb x y then unset x es' else (y, m) :: unset x es'
  end.

(** The entry a list of components resolves to. *)
Fixpoint lookup (p : list str) (t : node) : option node :=
  match p with
  | [] => Some t
  | x :: q =>
    match t with
    | File _ => None
    | Dir es =>
      match assoc x es with
      | Some n => lookup q n
      | None => None
      end
    end
  end.

(** Put [n] at [p]; every directory on the way must exist. *)
Fixpoint insert_at (p : list str) (n : node) (t : node) : option node :=
  match p with
  | [] => Some n
  | x :: q =>
    match t with
    | File _ => None
    | Dir es =>
      match q with
      | [] => Some (Dir (set x n es))
      | _ :: _ =>
        match assoc x es with
        | Some sub =>
          match insert_at q n sub with
          | Some sub' => Some (Dir (set x sub' es))
          | None => None
          end
        | None => None
        end
      end
    end
  end.

(** Remove the entry at [p] with everything below it. *)
Fixpoint remove_at (p : list str) (t : node) : option node :=
  match p with
  | [] => None
  | x :: q =>
    match t with
    | File _ => None
    | Dir es =>
      match q with
      | [] => match assoc x es with
              | Some _ => Some (Dir (unset x es))
              | None => None
              end
      | _ :: _ =>
        match assoc x es with
        | Some sub =>
          match remove_at q sub with
          | Some sub' => Some (Dir (set x sub' es))
          | None => None
          end
        | None => None
        end
      end
    end
  end.

Definition at_path (p : str) (t : node) : option node :=
  lookup (Py.components p) t.

Definition names (t : node) : list str :=
  match t with
  | File _ => []
  | Dir es => map fst es
  end.

End FS.

(** ** Exceptions, the world and the monad of the script *)

(** The exceptions of Python 2 the script raises or lets through.
    [SystemExit] is the only one outside the [Exception] hierarchy. *)
Inductive exn : Type :=
| ValueError (msg : str)
| StandardError (msg : str)
| RuntimeError (msg : str)
| CalledProcessError (returncode : Z) (cmd : list str)
| OSError (path : str)
| IOError (path : str)
| ShutilError (msg : str)
| SystemExit (code : Z).

(** [isinstance(e, Exception)] *)
Definition is_Exception (e : exn) : bool :=
  match e with
  | SystemExit _ => false
  | _ => true
  end.

Inductive level : Type := DEBUG | INFO | ERROR.

(** The external processes the script starts.  [spawn cmd r t] runs [cmd]
    on repository state [r] and working tree [t] and yields exit status,
    standard output, and the state it leaves behind. *)
Class Collaborator (R : Type) : Type :=
  spawn : list str -> R -> node -> Z * str * R * node.

Record world (R : Type) : Type := World {
  fs : node;
  repo : R;
  trace : list (list str);
  log : list (level * str)
}.

Inductive result (A : Type) : Type :=
| Ok (a : A)
| Raise (e : exn).

Arguments Ok {A} a.
Arguments Raise {A} e.

Definition M (R A : Type) : Type := world R -> result A * world R.

Definition ret {R A} (a : A) : M R A := fun w => (Ok a, w).

Definition bind {R A B} (m : M R A) (k : A -> M R B) : M R B :=
  fun w =>
    match m w with
    | (Ok a, w') => k a w'
    | (Raise e, w') => (Raise e, w')
    end.

Definition raise {R A} (e : exn) : M R A := fun w => (Raise e, w).

(** [try: body  except Exception: handler; raise] *)
Definition try_except_reraise {R A} (body : M R A) (handler : M R unit)
  : M R A :=
  fun w =>
    match body w with
    | (Ok a, w') => (Ok a, w')
    | (Raise e, w') =>
      if is_Exception e
      then match handler w' with
           | (Ok _, w'') => (Raise e, w'')
           | (Raise e', w'') => (Raise e', w'')
           end
      else (Raise e, w')
    end.

Declare Scope py_scope.
Delimit Scope py_scope with pym.
Notation "x <- m ;; k" := (bind m (fun x => k))
  (at level 61, m at next level, right associativity) : py_scope.
Notation "m ;; k" := (bind m (fun _ => k))
  (at level 61, right associativity) : py_scope.
Notation "' pat <- m ;; k" := (bind m (fun x => match x with pat => k end))
  (at level 61, pat pattern, m at next level, right associativity) : py_scope.
Open Scope py_scope.

(** [for x in l: body(x)] *)
Fixpoint for_each {R A} (l : list A) (body : A -> M R unit) : M R unit :=
  match l with
  | [] => ret tt
  | x :: l' => body x ;; for_each l' body
  end.

(** ** The library calls of the script *)

Definition nl : str := [ascii_of_nat 10].
Definition tab : str := [ascii_of_nat 9].

Section Script.

Context {R : Type} {collab : Collaborator R}.

Local Abbreviation M := (M R).

(** *** logging *)

Definition logging (l : level) (msg : str) : M unit :=
  fun w => (Ok tt, World (fs w) (repo w) (trace w) (log w ++ [(l, msg)])).

Definition logging_debug := logging DEBUG.
Definition logging_info := logging INFO.
Definition logging_error := logging ERROR.

(** *** subprocess *)

(** Exit status of [diff -q a b]: 0 for equal files, 1 for different
    ones, 2 for trouble. *)
Definition diff_status (args : list str) (t : node) : Z :=
  match args with
  | [_; a; b] =>
    match FS.at_path a t, FS.at_path b t with
    | Some (File x), Some (File y) => if Py.eqb x y then 0%Z else 1%Z
    | _, _ => 2%Z
    end
  | _ => 2%Z
  end.

(** Run a command to completion and record it in the trace. *)
Definition popen (cmd : list str) : M (Z * str) :=
  fun w =>
    let '(code, out, r, t) :=
      match cmd with
      | prog :: args =>
        if Py.eqb prog (py "diff")
        then (diff_status args (fs w), [], repo w, fs w)
        else spawn cmd (repo w) (fs w)
      | [] => spawn cmd (repo w) (fs w)
      end in
    (Ok (code, out), World t r (trace w ++ [cmd]) (log w)).

Definition call (cmd : list str) : M Z :=
  ' (code, _) <- popen cmd ;; ret code.

Definition check_call (cmd : list str) : M unit :=
  ' (code, _) <- popen cmd ;;
  if (code =? 0)%Z then ret tt else raise (CalledProcessError code cmd).

Definition check_output (cmd : list str) : M str :=
  ' (code, out) <- popen cmd ;;
  if (code =? 0)%Z then ret out else raise (CalledProcessError code cmd).

(** *** os, shutil, open *)

Definition os_path_isdir (p : str) : M bool :=
  fun w =>
    (Ok match FS.at_path p (fs w) with
        | Some (Dir _) => true
        | _ => false
        end, w).

Definition set_fs (t : node) : M unit :=
  fun w => (Ok tt, World t (repo w) (trace w) (log w)).

Definition get_fs : M node := fun w => (Ok (fs w), w).

Definition os_mkdir (p : str) : M unit :=
  t <- get_fs ;;
  match FS.at_path p t with
  | Some _ => raise (OSError p)
  | None =>
    match FS.insert_at (Py.components p) (Dir []) t with
    | Some t' => set_fs t'
    | None => raise (OSError p)
    end
  end.

Definition shutil_rmtree (p : str) : M unit :=
  t <- get_fs ;;
  match FS.at_path p t with
  | Some (Dir _) =>
    match FS.remove_at (Py.components p) t with
    | Some t' => set_fs t'
    | None => raise (OSError p)
    end
  | _ => raise (OSError p)
  end.

(** [open(p).read()] *)
Definition read_file (p : str) : M str :=
  t <- get_fs ;;
  match FS.at_path p t with
  | Some (File c) => ret c
  | _ => raise (IOError p)
  end.

(** [open(p, 'w').write(c)] *)
Definition write_file (p : str) (c : str) : M unit :=
  t <- get_fs ;;
  match FS.at_path p t with
  | Some (Dir _) => raise (IOError p)
  | _ =>
    match FS.insert_at (Py.components p) (File c) t with
    | Some t' => set_fs t'
    | None => raise (IOError p)
    end
  end.

Definition shutil_copyfile (src dst : str) : M unit :=
  if Py.list_eqb (Py.components src) (Py.components dst)
  then raise (ShutilError (src ++ py " and " ++ dst ++ py " are the same file"))
  else c <- read_file src ;; write_file dst c.

(** *** glob *)

Definition has_magic (s : str) : bool :=
  existsb (fun c => existsb (Ascii.eqb c) (py "*?[")) s.

Definition hidden (name : str) : bool := Py.startswith name (py ".").

(** [glob(pathname)] for the patterns of the script, [<directory>/*]: the
    entries of the directory whose names do not begin with a dot, each
    joined to the directory part, in listing order; nothing when the
    directory cannot be listed.  A directory part that itself holds
    [*], [?] or [[] is not covered (see [plain_tree]). *)
Definition glob (pathname : str) : M (list str) :=
  let (dirname, basename) := Py.os_path_split pathname in
  t <- get_fs ;;
  if Py.eqb basename (py "*") then
    match FS.at_path dirname t with
    | Some (Dir es) =>
      ret (map (fun name => Py.os_path_join [dirname; name])
               (filter (fun name => negb (hidden name)) (map fst es)))
    | _ => ret []
    end
  else ret [].

(** *** re *)

Definition is_name_char (c : ascii) : bool :=
  let n := nat_of_ascii c in
  ((97 <=? n) && (n <=? 122)) || ((65 <=? n) && (n <=? 90)) || (n =? 95).

Fixpoint span_name (s : str) : str * str :=
  match s with
  | [] => ([], [])
  | c :: s' =>
    if is_name_char c
    then let (a, b) := span_name s' in (c :: a, b)
    else ([], s)
  end.

Definition segment_url : str :=
  py "git@github.com:segmentio/analytics-python".

(** A match of the pattern of [get_segmentio_analytics_python_remote] at
    the start of [s]: group [name], a greedy run of letters and
    underscores; a tab; group [url], the literal address of the upstream
    repository; a space and the literal [(fetch)].  The name run is
    maximal: a shorter run is followed by a name character, never by the
    tab. *)
Definition match_remote_here (s : str) : option (str * str) :=
  let (name, rest) := span_name s in
  if Py.startswith rest (tab ++ segment_url ++ py " (fetch)")
  then Some (name, segment_url)
  else None.

(** [re.search(pattern, s)]: the leftmost match. *)
Fixpoint re_search_remote (s : str) : option (str * str) :=
  match match_remote_here s with
  | Some g => Some g
  | None =>
    match s with
    | [] => None
    | _ :: s' => re_search_remote s'
    end
  end.

Definition sys_exit {A} (code : Z) : M A := raise (SystemExit code).

End Script.

(** ** The functions of fix_analytics_namespace.py *)

Section Functions.

Context {R : Type} {collab : Collaborator R}.

Local Abbreviation M := (M R).

Definition get_segmentio_analytics_python_remote : M (str * str) :=
  remotes <- check_output [py "git"; py "remote"; py "-v"] ;;
  match re_search_remote remotes with
  | None => raise (ValueError (py "could not find segment remote"))
  | Some (name, url) => ret (name, url)
  end.

Definition fetch_master_from_segmentio_analytics_python : M unit :=
  ' (name, url) <- get_segmentio_analytics_python_remote ;;
  check_call [py "git"; py "fetch"; name; py "master"] ;;
  check_call [py "git"; py "fetch"; py "--tags"; name].

Definition fixed_branch : str := py "segmentio-release".

Definition missing_branch_message (tag : str) : str :=
  nl ++ nl ++ py "why don't you have branch " ++ fixed_branch ++ py "?!" ++
  nl ++ py " run `git checkout -b " ++ fixed_branch ++ py " tags/" ++ tag ++
  py "` to create" ++
  nl ++ py " then make sure you have this file committed".

Definition checkout_segmentio_branded_branch : M unit :=
  current_branch <-
    check_output [py "git"; py "rev-parse"; py "--abbrev-ref"; py "HEAD"] ;;
  if negb (Py.eqb fixed_branch current_branch) then
    exists_ <- call [py "git"; py "rev-parse"; py "--verify"; fixed_branch] ;;
    (if negb (exists_ =? 0)%Z then
       out <- check_output [py "git"; py "describe"; py "master"] ;;
       let tag := Py.rstrip out in
       raise (StandardError (missing_branch_message tag))
     else ret tt) ;;
    check_call [py "git"; py "checkout"; fixed_branch]
  else ret tt.

Definition get_most_recent_tag : M (str * str) :=
  out <- check_output [py "git"; py "describe"; py "master"] ;;
  let most_recent_tag := Py.rstrip out in
  let cmd := [py "git"; py "describe"; py "--abbrev=0"; py "--tags"] in
  out' <- check_output cmd ;;
  let current_tag := Py.rstrip out' in
  logging_debug (py "current_local_tag: " ++ current_tag) ;;
  logging_debug (py "most_recent_tag: " ++ most_recent_tag) ;;
  (if Py.eqb current_tag most_recent_tag
   then logging_info (py "version up-to-date with analytics-python Release")
   else ret tt) ;;
  ret (current_tag, most_recent_tag).

Definition merge_tagged_version (tag : str) : M unit :=
  let most_recent_tag_branch := py "tags/" ++ tag in
  check_call [py "git"; py "merge"; py "--no-commit";
              py "-X"; py "theirs"; most_recent_tag_branch] ;;
  let msg := py "merged Release " ++ tag in
  check_call [py "git"; py "commit"; py "-am"; msg].

(** The two rewrites of a source file's contents. *)
Definition rewrite_imports (c : str) : str :=
  let c := Py.replace c (py "import analytics") (py "import segmentio") in
  let c := Py.replace c (py "from analytics.") (py "from segmentio.") in
  c.

Definition copied_message (filepath filepath_out : str) : str :=
  Py.rjust 12 (py "copied") ++ py " file  src:" ++ filepath ++
  py " dest:" ++ filepath_out ++ py "`".

Definition refactored_message (filepath filepath_out : str) : str :=
  Py.rjust 12 (py "refactored") ++ py " file `diff " ++ filepath ++
  py " " ++ filepath_out ++ py "`".

(** The body of the [for] loop of [create_segmentio_branded_package];
    [recurse] is the function itself. *)
Definition package_entry (recurse : list str -> M unit)
           (rel_path : list str) (filepath : str) : M unit :=
  let filename := Py.os_path_basename filepath in
  let p := [py "segmentio"] ++ rel_path ++ [filename] in
  let filepath_out := Py.os_path_join p in
  isdir <- os_path_isdir filepath ;;
  if isdir then
    os_mkdir filepath_out ;;
    recurse (rel_path ++ [filename])
  else if Py.endswith filepath (py ".py") then
    c <- read_file filepath ;;
    let c := rewrite_imports c in
    write_file filepath_out c ;;
    let cmd := [py "diff"; py "-q"; filepath; filepath_out] in
    differ <- call cmd ;;
    let msg :=
      if negb (differ =? 0)%Z
      then refactored_message filepath filepath_out
      else copied_message filepath filepath_out in
    logging_debug msg
  else
    let msg := copied_message filepath filepath_out in
    logging_debug msg ;;
    shutil_copyfile filepath filepath_out.

(** [create_segmentio_branded_package(rel_path)].  [depth] is the number
    of nested calls the interpreter still allows; a call beyond it raises
    [RuntimeError], as Python does at its recursion limit. *)
Fixpoint create_segmentio_branded_package_rec
         (depth : nat) (rel_path : list str) : M unit :=
  match depth with
  | O => raise (RuntimeError (py "maximum recursion depth exceeded"))
  | S depth' =>
    let p := [py "analytics"] ++ rel_path ++ [py "*"] in
    let search := Py.os_path_join p in
    filelist <- glob search ;;
    for_each filelist
             (package_entry (create_segmentio_branded_package_rec depth')
                            rel_path)
  end.

Definition create_segmentio_branded_package
           (depth : nat) (rel_path : option (list str)) : M unit :=
  let rel_path :=
    match rel_path with
    | None => [py ""]
    | Some r => r
    end in
  create_segmentio_branded_package_rec depth rel_path.

Definition refactor_setup_with_segmentio_branding : M unit :=
  let fn := py "setup.py" in
  c <- read_file fn ;;
  let c := Py.replace c (py "name='analytics-python'")
                        (py "name='segmentio'") in
  let c := Py.replace c (py "test_suite='analytics.test.all'")
                        (py "test_suite='segmentio.test.all'") in
  let c := Py.replace c (py "packages=['analytics', 'analytics.test']")
                        (py "packages=['segmentio', 'segmentio.test']") in
  write_file fn c.

(** *** The main program, phase by phase *)

(** Record the commit to come back to. *)
Definition record_start : M str :=
  let cmd := [py "git"; py "rev-parse"; py "--verify"; py "HEAD"] in
  out <- check_output cmd ;;
  let starting_commit := Py.rstrip out in
  logging_info
    (nl ++ py "if anything goes wrong revert to current state with:" ++
     nl ++ py " `git reset --hard " ++ starting_commit ++ py "`") ;;
  ret starting_commit.

Definition sync : M unit :=
  logging_info (py "fetching from segmentio/analytics-python") ;;
  fetch_master_from_segmentio_analytics_python.

Definition guard : M unit :=
  logging_info (py "checkout segmentio branded branch") ;;
  checkout_segmentio_branded_branch.

Definition compare_tags : M (str * str) :=
  logging_info (py "extracting most recent tag tags") ;;
  get_most_recent_tag.

(** The [if not pargs.skip_release_merge] statement. *)
Definition release_merge (skip_release_merge : bool)
           (current_tag most_recent_tag : str) : M unit :=
  if negb skip_release_merge then
    (if Py.eqb current_tag most_recent_tag then sys_exit 0%Z else ret tt) ;;
    logging_info (py "merge most recent tagged version") ;;
    merge_tagged_version most_recent_tag
  else ret tt.

(** The body of the [try] statement, in its three steps. *)
Definition clobber : M unit :=
  logging_info (py "clobber segmentio generated packaged") ;;
  isdir <- os_path_isdir (py "segmentio") ;;
  (if isdir then shutil_rmtree (py "segmentio") else ret tt) ;;
  os_mkdir (py "segmentio").

Definition generate (depth : nat) : M unit :=
  logging_info (py "generate segmentio package") ;;
  create_segmentio_branded_package depth None ;;
  refactor_setup_with_segmentio_branding.

Definition commit_package : M unit :=
  logging_info (py "commit segmentio package creation") ;;
  let msg := py "created segmentio release" in
  check_call [py "git"; py "add"; py "segmentio"] ;;
  check_call [py "git"; py "commit"; py "-am"; msg].

Definition rebuild_through_commit (depth : nat) : M unit :=
  clobber ;; generate depth ;; commit_package.

(** The [except Exception] clause, up to its [raise]. *)
Definition rollback (starting_commit : str) : M unit :=
  logging_error (py "whoops, resetting to initial commit for you") ;;
  check_call [py "git"; py "reset"; py "--hard"; starting_commit].

(** The [__main__] block; [skip_release_merge] is the parsed flag and
    [depth] the recursion limit of the interpreter. *)
Definition main (depth : nat) (skip_release_merge : bool) : M unit :=
  starting_commit <- record_start ;;
  sync ;;
  guard ;;
  ' (current_tag, most_recent_tag) <- compare_tags ;;
  release_merge skip_release_merge current_tag most_recent_tag ;;
  try_except_reraise
    (rebuild_through_commit depth)
    (rollback starting_commit) ;;
  logging_info (py "now you may run: `git push origin segmentio-release`") ;;
  logging_info (py "successfully created segmentio Release " ++
                most_recent_tag).

(** The exit status of the interpreter for an outcome of [main]. *)
Definition exit_status (r : result unit) : Z :=
  match r with
  | Ok _ => 0%Z
  | Raise (SystemExit code) => code
  | Raise _ => 1%Z
  end.

End Functions.

(** ** A scripted repository, for concrete runs *)

Module Sim.

(** A small stand-in for git: enough state to answer the queries of the
    script, and a list of subcommands that are made to fail. *)
Record repo : Type := Repo {
  head : str;
  branch : str;
  branches : list (str * str);
  master_describe : str;
  head_tag : str;
  remotes : str;
  fetched : list (list str);
  broken : list str
}.

Definition fail (r : repo) (t : node) : Z * str * repo * node :=
  (1%Z, [], r, t).

Definition answer (out : str) (r : repo) (t : node)
  : Z * str * repo * node :=
  (0%Z, out, r, t).

Fixpoint find_branch (b : str) (bs : list (str * str)) : option str :=
  match bs with
  | [] => None
  | (x, c) :: bs' => if Py.eqb b x then Some c else find_branch b bs'
  end.

Definition with_head (c b : str) (r : repo) : repo :=
  Repo c b (branches r) (master_describe r) (head_tag r) (remotes r)
       (fetched r) (broken r).

Definition with_fetch (args : list str) (r : repo) : repo :=
  Repo (head r) (branch r) (branches r) (master_describe r) (head_tag r)
       (remotes r) (fetched r ++ [args]) (broken r).

Definition git (args : list str) (r : repo) (t : node)
  : Z * str * repo * node :=
  match args with
  | sub :: rest =>
    if existsb (Py.eqb sub) (broken r) then fail r t
    else if Py.eqb sub (py "remote") then answer (remotes r) r t
    else if Py.eqb sub (py "rev-parse") then
      match rest with
      | [a; b] =>
        if Py.eqb a (py "--abbrev-ref") then answer (branch r ++ nl) r t
        else if Py.eqb b (py "HEAD") then answer (head r ++ nl) r t
        else match find_branch b (branches r) with
             | Some c => answer (c ++ nl) r t
             | None => (128%Z, [], r, t)
             end
      | _ => fail r t
      end
    else if Py.eqb sub (py "describe") then
      match rest with
      | [_] => answer (master_describe r ++ nl) r t
      | _ => answer (head_tag r ++ nl) r t
      end
    else if Py.eqb sub (py "fetch") then answer [] (with_fetch rest r) t
    else if Py.eqb sub (py "checkout") then
      match rest with
      | [b] =>
        match find_branch b (branches r) with
        | Some c => answer [] (with_head c b r) t
        | None => fail r t
        end
      | _ => fail r t
      end
    else if Py.eqb sub (py "commit") then
      answer [] (with_head (head r ++ py "+") (branch r) r) t
    else if Py.eqb sub (py "reset") then
      match rest with
      | [_; c] => answer [] (with_head c (branch r) r) t
      | _ => fail r t
      end
    else answer [] r t
  | [] => fail r t
  end.

#[global] Instance collaborator : Collaborator repo :=
  fun cmd r t =>
    match cmd with
    | prog :: args => if Py.eqb prog (py "git") then git args r t
                      else (127%Z, [], r, t)
    | [] => (127%Z, [], r, t)
    end.

Definition origin : str :=
  py "origin" ++ tab ++ py "git@github.com:enderlabs/analytics-python (fetch)" ++ nl ++
  py "origin" ++ tab ++ py "git@github.com:enderlabs/analytics-python (push)" ++ nl ++
  py "upstream" ++ tab ++ py "git@github.com:segmentio/analytics-python (fetch)" ++ nl ++
  py "upstream" ++ tab ++ py "git@github.com:segmentio/analytics-python (push)" ++ nl.

(** On [master], release branch present, a newer upstream tag. *)
Definition repo0 : repo :=
  Repo (py "c0ffee") (py "master")
       [(py "master", py "c0ffee"); (py "segmentio-release", py "beef")]
       (py "v1.4.0") (py "v1.3.0") origin [] [].

(** The same repository where the given subcommands fail. *)
Definition breaking (subs : list str) : repo :=
  Repo (head repo0) (branch repo0) (branches repo0) (master_describe repo0)
       (head_tag repo0) (remotes repo0) [] subs.

(** No release branch. *)
Definition repo_without_branch : repo :=
  Repo (py "c0ffee") (py "master") [(py "master", py "c0ffee")]
       (py "v1.4.0") (py "v1.3.0") origin [] [].

(** Already on the release branch. *)
Definition repo_on_release : repo :=
  Repo (py "beef") (py "segmentio-release") (branches repo0)
       (py "v1.4.0") (py "v1.3.0") origin [] [].

(** Nothing new upstream. *)
Definition repo_up_to_date : repo :=
  Repo (py "c0ffee") (py "master") (branches repo0)
       (py "v1.4.0") (py "v1.4.0") origin [] [].

Definition setup_py : str :=
  py "setup(name='analytics-python', test_suite='analytics.test.all')".

(** The entries of [analytics]. *)
Definition source : list (str * node) :=
  [ (py "__init__.py", File (py "import analytics.client"));
    (py ".cache", File (py "import analytics"));
    (py "client.py",
     File (py "from analytics.utils import x # import analytics"));
    (py "README", File (py "import analytics"));
    (py "test",
     Dir [ (py "all.py", File (py "import analytics"));
           (py ".hidden.py", File (py "import analytics")) ]);
    (py ".git", Dir [ (py "x.py", File (py "import analytics")) ]) ].

Definition tree_with (target : list (str * node)) : node :=
  Dir [ (py "analytics", Dir source);
        (py "segmentio", Dir target);
        (py "setup.py", File setup_py) ].

Definition stale : list (str * node) := [ (py "stale.py", File (py "old")) ].

(** A target tree left by an earlier run. *)
Definition tree0 : node := tree_with stale.

(** The target directory freshly cleared. *)
Definition tree_cleared : node := tree_with [].

Definition world0 : world repo := World tree0 repo0 [] [].

Definition world_cleared : world repo := World tree_cleared repo0 [] [].

Definition world_of (r : repo) : world repo := World tree0 r [] [].

(** The remotes of a clone that calls the upstream [my-remote]. *)
Definition dashed : str :=
  py "my-remote" ++ tab ++ py "git@github.com:segmentio/analytics-python (fetch)" ++ nl ++
  py "my-remote" ++ tab ++ py "git@github.com:segmentio/analytics-python (push)" ++ nl.

Definition repo_dashed : repo :=
  Repo (py "c0ffee") (py "master") (branches repo0)
       (py "v1.4.0") (py "v1.3.0") dashed [] [].

(** The remotes of a clone that does not know the upstream. *)
Definition fork_only : str :=
  py "origin" ++ tab ++ py "git@github.com:enderlabs/analytics-python (fetch)" ++ nl ++
  py "origin" ++ tab ++ py "git@github.com:enderlabs/analytics-python (push)" ++ nl.

Definition repo_fork_only : repo :=
  Repo (py "c0ffee") (py "master") (branches repo0)
       (py "v1.4.0") (py "v1.3.0") fork_only [] [].

(** A working directory without the source package. *)
Definition world_without_source : world repo :=
  World (Dir [ (py "setup.py", File setup_py) ]) repo0 [] [].

(** A target directory that already holds [test]. *)
Definition world_with_target_entry : world repo :=
  World (Dir [ (py "analytics", Dir [ (py ".git", Dir []); (py "test", Dir []) ]);
               (py "segmentio", Dir [ (py "test", Dir []) ]) ])
        repo0 [] [].

(** [segmentio] is a regular file. *)
Definition world_with_target_file : world repo :=
  World (Dir [ (py "analytics", Dir source);
               (py "segmentio", File (py "not a package"));
               (py "setup.py", File setup_py) ])
        repo0 [] [].

End Sim.

(** ** Vocabulary of the specification *)

(** [p] occurs in [s] as a substring. *)
Definition occurs (p s : str) : Prop := exists a b, s = a ++ p ++ b.

(** Some non-empty suffix of [x] is a prefix of [y]. *)
Fixpoint suffix_meets (x y : str) : bool :=
  match x with
  | [] => false
  | _ :: x' => Py.startswith y x || suffix_meets x' y
  end.

(** An occurrence of [p] and an occurrence of [n] can share a position of
    some string. *)
Definition clash (p n : str) : bool :=
  suffix_meets p n || suffix_meets n p || Py.contains p n || Py.contains n p.

(** Two occurrences of [o] never overlap. *)
Definition borderless (o : str) : bool :=
  match o with
  | [] => false
  | _ :: o' => negb (suffix_meets o' o)
  end.

(** A name as a directory holds it: not empty, no slash. *)
Definition plain (name : str) : bool :=
  negb (Py.eqb name []) && forallb (fun c => negb (Ascii.eqb c Py.slash)) name.

(** The path with the given components. *)
Definition slashed (l : list str) : str :=
  match l with
  | [] => []
  | a :: r => fold_left (fun acc x => acc ++ Py.slash :: x) r a
  end.

(** The image of a source entry under the rewriter: hidden entries are
    left out, directories are mirrored, the contents of [.py] files are
    rewritten and every other file is copied. *)
Fixpoint mirror_node (name : str) (n : node) : node :=
  match n with
  | File c => File (if Py.endswith name (py ".py") then rewrite_imports c else c)
  | Dir es =>
    Dir ((fix go (es : list (str * node)) : list (str * node) :=
            match es with
            | [] => []
            | (x, m) :: es' =>
              if hidden x then go es' else (x, mirror_node x m) :: go es'
            end) es)
  end.

Fixpoint mirror (es : list (str * node)) : list (str * node) :=
  match es with
  | [] => []
  | (x, m) :: es' =>
    if hidden x then mirror es' else (x, mirror_node x m) :: mirror es'
  end.

(** Nesting depth of directories. *)
Fixpoint height (n : node) : nat :=
  match n with
  | File _ => 0
  | Dir es =>
    S ((fix go (es : list (str * node)) : nat :=
          match es with
          | [] => 0
          | (_, m) :: es' => Nat.max (height m) (go es')
          end) es)
  end.

(** A tree as a file system holds it, within the reach of [glob]: names
    are plain and distinct within a directory, and no directory name holds
    a metacharacter of [glob]. *)
Fixpoint plain_tree (n : node) : bool :=
  match n with
  | File _ => true
  | Dir es =>
    (fix go (es : list (str * node)) : bool :=
       match es with
       | [] => true
       | (x, m) :: es' =>
         plain x && negb (existsb (Py.eqb x) (map fst es')) &&
         match m with Dir _ => negb (has_magic x) | File _ => true end &&
         plain_tree m && go es'
       end) es
  end.

(** What the collaborator answers to a command in a given world, and the
    world the script finds afterwards. *)
Section Commands.

Context {R : Type} {collab : Collaborator R}.

Definition status (cmd : list str) (w : world R) : Z :=
  fst (fst (fst (spawn cmd (repo w) (fs w)))).

Definition stdout (cmd : list str) (w : world R) : str :=
  snd (fst (fst (spawn cmd (repo w) (fs w)))).

Definition after (cmd : list str) (w : world R) : world R :=
  World (snd (spawn cmd (repo w) (fs w)))
        (snd (fst (spawn cmd (repo w) (fs w))))
        (trace w ++ [cmd]) (log w).

(** The world with one more log record. *)
Definition logged (l : level) (msg : str) (w : world R) : world R :=
  World (fs w) (repo w) (trace w) (log w ++ [(l, msg)]).

(** The worlds a run goes through, phase by phase. *)
Definition at_sync (w : world R) : world R := snd (record_start w).
Definition at_guard (w : world R) : world R := snd (sync (at_sync w)).
Definition at_tags (w : world R) : world R := snd (guard (at_guard w)).
Definition at_merge (w : world R) : world R := snd (compare_tags (at_tags w)).
Definition at_rebuild (skip : bool) (w : world R) : world R :=
  match fst (compare_tags (at_tags w)) with
  | Ok (ct, mrt) => snd (release_merge skip ct mrt (at_merge w))
  | Raise _ => at_merge w
  end.

End Commands.

(** The second word of a command line: the git subcommand. *)
Definition subcommand (cmd : list str) : str := nth 1 cmd [].

(** [s] is not empty and does not end in a slash. *)
Definition open_ended (s : str) : Prop :=
  exists c r, rev s = c :: r /\ c <> Py.slash.

(** What [plain_tree] and [height] say of the entries of a directory. *)
Definition plain_entry (d : nat) (e : str * node) : Prop :=
  plain (fst e) = true /\
  (forall es, snd e = Dir es -> has_magic (fst e) = false) /\
  plain_tree (snd e) = true /\ height (snd e) <= d.

(** The commands of the rewriter: [diff -q] on two paths. *)
Definition is_diff (cmd : list str) : Prop :=
  exists a b, cmd = [py "diff"; py "-q"; a; b].

Section Contracts.

Context {R : Type} {collab : Collaborator R}.

(** What a call of the rewriter does for a source directory with entries
    [S] whose target directory is empty: it succeeds and leaves the image
    of [S] there. *)
Definition mirrors (recurse : list str -> M R unit) (S : list (str * node))
  : Prop :=
  forall (rel : list str) (w : world R),
    Forall (fun x => plain x = true) rel ->
    FS.lookup (py "analytics" :: rel) (fs w) = Some (Dir S) ->
    FS.lookup (py "segmentio" :: rel) (fs w) = Some (Dir []) ->
    exists t' T L,
      FS.insert_at (py "segmentio" :: rel) (Dir (mirror S)) (fs w) = Some t' /\
      recurse ([] :: rel) w
      = (Ok tt, World t' (repo w) (trace w ++ T) (log w ++ L)).

(** Whatever [m] raises is caught by [except Exception]. *)
Definition safe {A} (m : M R A) : Prop :=
  forall w e w', m w = (Raise e, w') -> is_Exception e = true.

(** [m] leaves the repository state alone and runs nothing but [diff -q]. *)
Definition quiet {A} (m : M R A) : Prop :=
  forall w, repo (snd (m w)) = repo w /\
            exists T, trace (snd (m w)) = trace w ++ T /\ Forall is_diff T.

(** [m] changes nothing of the working directory outside [segmentio]. *)
Definition confined {A} (m : M R A) : Prop :=
  forall w x q, Py.eqb x (py "segmentio") = false ->
                FS.lookup (x :: q) (fs (snd (m w))) = FS.lookup (x :: q) (fs w).

End Contracts.

Arguments safe R {A} m.
Arguments quiet R {A} m.
Arguments confined R {A} m.

(** The descriptor after the three replacements of
    [refactor_setup_with_segmentio_branding]. *)
Definition branded (c : str) : str :=
  let c := Py.replace c (py "name='analytics-python'")
                        (py "name='segmentio'") in
  let c := Py.replace c (py "test_suite='analytics.test.all'")
                        (py "test_suite='segmentio.test.all'") in
  let c := Py.replace c (py "packages=['analytics', 'analytics.test']")
                        (py "packages=['segmentio', 'segmentio.test']") in
  c.

(** The command lines of the script. *)
Module Cmd.
Definition rev_parse_head : list str :=
  [py "git"; py "rev-parse"; py "--verify"; py "HEAD"].
Definition remote_v : list str := [py "git"; py "remote"; py "-v"].
Definition fetch_master (name : str) : list str :=
  [py "git"; py "fetch"; name; py "master"].
Definition fetch_tags (name : str) : list str :=
  [py "git"; py "fetch"; py "--tags"; name].
Definition abbrev_ref : list str :=
  [py "git"; py "rev-parse"; py "--abbrev-ref"; py "HEAD"].
Definition verify_branch : list str :=
  [py "git"; py "rev-parse"; py "--verify"; fixed_branch].
Definition checkout_branch : list str :=
  [py "git"; py "checkout"; fixed_branch].
Definition describe_master : list str :=
  [py "git"; py "describe"; py "master"].
Definition describe_tags : list str :=
  [py "git"; py "describe"; py "--abbrev=0"; py "--tags"].
Definition merge (tag : str) : list str :=
  [py "git"; py "merge"; py "--no-commit"; py "-X"; py "theirs";
   py "tags/" ++ tag].
Definition commit (msg : str) : list str :=
  [py "git"; py "commit"; py "-am"; msg].
Definition add_segmentio : list str := [py "git"; py "add"; py "segmentio"].
Definition reset_hard (commit : str) : list str :=
  [py "git"; py "reset"; py "--hard"; commit].
End Cmd.

(** What follows the name in the line of [git remote -v] that the resolver
    looks for. *)
Definition fetch_line_tail : str := tab ++ segment_url ++ py " (fetch)".

(** * Properties *)

Unset Implicit Arguments.
#[local] Arguments Ascii.eqb : simpl never.

(** ** Strings *)

Lemma ascii_eqb_true (a b : ascii) : Ascii.eqb a b = true <-> a = b.
Proof. apply Ascii.eqb_eq. Qed.

Lemma eqb_true_iff (a b : str) : Py.eqb a b = true <-> a = b.
Proof.
  revert b; induction a as [|x a IH]; intros [|y b]; simpl;
    try (split; [discriminate | discriminate]); [split; reflexivity|].
  rewrite andb_true_iff, ascii_eqb_true, IH.
  split; [intros [-> ->]; reflexivity | intros E; inversion E; auto].
Qed.

Lemma eqb_refl (a : str) : Py.eqb a a = true.
Proof. apply eqb_true_iff; reflexivity. Qed.

Lemma eqb_false_iff (a b : str) : Py.eqb a b = false <-> a <> b.
Proof.
  rewrite <- eqb_true_iff. destruct (Py.eqb a b); split; congruence.
Qed.

Lemma startswith_iff (s p : str) :
  Py.startswith s p = true <-> exists r, s = p ++ r.
Proof.
  revert s; induction p as [|x p IH]; intros s; simpl.
  - split; [intros _; exists s; reflexivity | intros _; destruct s; reflexivity].
  - destruct s as [|y s].
    + simpl. split; [discriminate | intros [r E]; discriminate].
    + simpl. rewrite andb_true_iff, ascii_eqb_true, IH. split.
      * intros [-> [r ->]]. exists r; reflexivity.
      * intros [r E]; inversion E; subst. split; [reflexivity | exists r; reflexivity].
Qed.

Lemma startswith_app (p r : str) : Py.startswith (p ++ r) p = true.
Proof. apply startswith_iff. exists r; reflexivity. Qed.

Lemma startswith_nil (s : str) : Py.startswith s [] = true.
Proof. destruct s; reflexivity. Qed.

Lemma occurs_cons (p : str) (c : ascii) (s : str) :
  occurs p (c :: s) -> Py.startswith (c :: s) p = true \/ occurs p s.
Proof.
  intros [[|x a] [b E]].
  - left. apply startswith_iff. exists b. exact E.
  - right. inversion E; subst. exists a, b; reflexivity.
Qed.

Lemma occurs_nil (p : str) : occurs p [] -> p = [].
Proof.
  intros [a [b E]]. symmetry in E.
  apply app_eq_nil in E as [_ E]. apply app_eq_nil in E as [E _]. exact E.
Qed.

Lemma occurs_app_l (p a b : str) : occurs p a -> occurs p (a ++ b).
Proof.
  intros [x [y ->]]. exists x, (y ++ b). now rewrite <- !app_assoc.
Qed.

Lemma occurs_app_r (p a b : str) : occurs p b -> occurs p (a ++ b).
Proof.
  intros [x [y ->]]. exists (a ++ x), y. now rewrite <- !app_assoc.
Qed.

Lemma contains_iff (s p : str) : Py.contains s p = true <-> occurs p s.
Proof.
  induction s as [|c s IH].
  - cbn [Py.contains]. rewrite orb_false_r, startswith_iff. split.
    + intros [r E]. exists [], r. exact E.
    + intros H. apply occurs_nil in H. subst. exists []. reflexivity.
  - cbn [Py.contains]. rewrite orb_true_iff, IH. split.
    + intros [H | H].
      * apply startswith_iff in H as [r E]. exists [], r. exact E.
      * apply (occurs_app_r _ [c] _) in H. exact H.
    + apply occurs_cons.
Qed.

Lemma suffix_meets_iff (x y : str) :
  suffix_meets x y = true <->
  exists u t r, t <> [] /\ x = u ++ t /\ y = t ++ r.
Proof.
  induction x as [|c x IH].
  - simpl. split; [discriminate|].
    intros (u & t & r & Ht & E & _). symmetry in E.
    apply app_eq_nil in E as [_ E]. contradiction.
  - cbn [suffix_meets]. rewrite orb_true_iff, IH, startswith_iff. split.
    + intros [[r E] | (u & t & r & Ht & E1 & E2)].
      * exists [], (c :: x), r. repeat split; [discriminate | exact E].
      * exists (c :: u), t, r. subst. repeat split; assumption.
    + intros (u & t & r & Ht & E1 & E2). destruct u as [|d u].
      * left. exists r. simpl in E1. subst. reflexivity.
      * right. inversion E1; subst. exists u, t, r. repeat split; assumption.
Qed.

Lemma app_eq_app_cases (a b c d : str) :
  a ++ b = c ++ d ->
  (exists l, c = a ++ l /\ b = l ++ d) \/
  (exists l, l <> [] /\ a = c ++ l /\ d = l ++ b).
Proof.
  intros E. apply app_eq_app in E as [l [[E1 E2] | [E1 E2]]].
  - destruct l as [|x l].
    + left. exists []. rewrite app_nil_r in E1. subst. rewrite app_nil_r. auto.
    + right. exists (x :: l). repeat split; [discriminate | assumption | assumption].
  - left. exists l. auto.
Qed.

Lemma no_meet (x y u t r : str) :
  suffix_meets x y = false -> t <> [] -> x = u ++ t -> y = t ++ r -> False.
Proof.
  intros H Ht E1 E2.
  assert (suffix_meets x y = true) as H'
      by (apply suffix_meets_iff; exists u, t, r; auto).
  congruence.
Qed.

Lemma not_contains (s p : str) : Py.contains s p = false -> ~ occurs p s.
Proof. intros H O. apply contains_iff in O. congruence. Qed.

Lemma clash_false (p m : str) :
  clash p m = false ->
  suffix_meets p m = false /\ suffix_meets m p = false /\
  ~ occurs m p /\ ~ occurs p m.
Proof.
  unfold clash. intros H.
  apply orb_false_iff in H as [H H4]. apply orb_false_iff in H as [H H3].
  apply orb_false_iff in H as [H1 H2].
  repeat split; auto using not_contains.
Qed.

(** An occurrence of [p] in [a ++ m ++ b] lies within [a] or within [b]
    when [p] and [m] cannot share a position. *)
Lemma occurs_around (p m a b : str) :
  clash p m = false -> occurs p (a ++ m ++ b) -> occurs p a \/ occurs p b.
Proof.
  intros C [x [y E]]. apply clash_false in C as (C1 & C2 & C3 & C4).
  apply app_eq_app_cases in E as [[l [Ex E]] | [l [Hl [Ea E]]]].
  - apply app_eq_app_cases in E as [[l2 [El Eb]] | [l2 [Hl2 [Em E]]]].
    + right. exists l2, y. exact Eb.
    + apply app_eq_app_cases in E as [[l3 [El2 Ey]] | [l3 [Hl3 [Ep Eb]]]].
      * exfalso. apply C4. exists l, l3. subst. reflexivity.
      * exfalso. eapply no_meet; [exact C2 | exact Hl2 | exact Em | exact Ep].
  - apply app_eq_app_cases in E as [[l2 [El Ey]] | [l2 [Hl2 [Ep E]]]].
    + left. exists x, l2. subst. reflexivity.
    + apply app_eq_app_cases in E as [[l3 [El2 Eb]] | [l3 [Hl3 [Em Ey]]]].
      * exfalso. apply C3. exists l, l3. subst. reflexivity.
      * exfalso. eapply no_meet; [exact C1 | exact Hl2 | exact Ep | exact Em].
Qed.

(** ** [str.replace] *)

Lemma replace_from_skip (old new : str) (k : nat) (s : str) :
  Py.replace_from old new k s = Py.replace_from old new 0 (skipn k s).
Proof.
  revert k; induction s as [|c s IH]; intros [|k]; try reflexivity.
  cbn [Py.replace_from skipn]. apply IH.
Qed.

Section Replace.

Variables old new : str.
Hypothesis old_nonempty : old <> [].

Local Abbreviation scan := (Py.replace_from old new 0).

Lemma scan_hit (t : str) : scan (old ++ t) = new ++ scan t.
Proof.
  destruct old as [|a o'] eqn:E; [contradiction|].
  change ((a :: o') ++ t) with (a :: (o' ++ t)).
  cbn [Py.replace_from].
  change (a :: o' ++ t) with ((a :: o') ++ t).
  rewrite startswith_app, replace_from_skip.
  replace (length (a :: o') - 1) with (length o') by (simpl; lia).
  rewrite skipn_app, skipn_all, Nat.sub_diag. reflexivity.
Qed.

Lemma scan_miss (c : ascii) (s : str) :
  Py.startswith (c :: s) old = false -> scan (c :: s) = c :: scan s.
Proof. intros H. cbn [Py.replace_from]. rewrite H. reflexivity. Qed.

(** Induction along the scan. *)
Lemma scan_ind (P : str -> Prop) :
  P [] ->
  (forall t, P t -> P (old ++ t)) ->
  (forall c s, Py.startswith (c :: s) old = false -> P s -> P (c :: s)) ->
  forall s, P s.
Proof.
  intros Hnil Hhit Hmiss s.
  assert (forall k s, length s <= k -> P s) as H; [|apply (H (length s)); lia].
  clear s. induction k as [|k IH]; intros s Hs.
  - destruct s; [exact Hnil | simpl in Hs; lia].
  - destruct s as [|c s]; [exact Hnil|].
    destruct (Py.startswith (c :: s) old) eqn:E.
    + apply startswith_iff in E as [r E]. rewrite E. apply Hhit, IH.
      apply (f_equal (@length ascii)) in E. rewrite length_app in E.
      simpl in Hs, E. destruct old; [contradiction | simpl in E; lia].
    + apply Hmiss; [exact E | apply IH; simpl in Hs; lia].
Qed.

(** Without an occurrence the string is returned as it is. *)
Lemma scan_absent (s : str) : ~ occurs old s -> scan s = s.
Proof.
  induction s as [|c s IH]; intros H; [reflexivity|].
  destruct (Py.startswith (c :: s) old) eqn:E.
  - exfalso. apply H. apply startswith_iff in E as [r E]. exists [], r. exact E.
  - rewrite (scan_miss _ _ E), IH; [reflexivity|].
    intros O. apply H. apply (occurs_app_r _ [c] _) in O. exact O.
Qed.

(** A prefix of the scan that is a suffix of [old] is a prefix of the
    input, when [old] and [new] cannot share a position. *)
Lemma scan_startswith (s : str) :
  clash old new = false ->
  forall v q, old = v ++ q ->
  Py.startswith (scan s) q = true -> Py.startswith s q = true.
Proof.
  intros C. apply clash_false in C as (C1 & C2 & C3 & C4).
  induction s as [|t IH|c s E IH] using scan_ind; intros v q Hq H.
  - exact H.
  - destruct q as [|x q]; [apply startswith_nil|]. exfalso.
    rewrite scan_hit in H. apply startswith_iff in H as [r H].
    apply app_eq_app_cases in H as [[l [E1 E2]] | [l [Hl [E1 E2]]]].
    + apply C3. exists v, l. rewrite Hq, E1. reflexivity.
    + eapply no_meet; [exact C1 | | exact Hq | exact E1]. discriminate.
  - destruct q as [|x q]; [reflexivity|].
    rewrite (scan_miss _ _ E) in H. simpl in H |- *.
    apply andb_true_iff in H as [H1 H2]. rewrite H1. simpl.
    apply (IH (v ++ [x]) q); [rewrite <- app_assoc; exact Hq | exact H2].
Qed.

(** No occurrence of [old] is left. *)
Lemma scan_gone (s : str) : clash old new = false -> ~ occurs old (scan s).
Proof.
  intros C.
  induction s as [|t IH|c s E IH] using scan_ind; intros O.
  - apply occurs_nil in O. contradiction.
  - rewrite scan_hit in O.
    apply (occurs_around _ _ [] _ C) in O as [O | O]; [|exact (IH O)].
    apply occurs_nil in O. contradiction.
  - rewrite (scan_miss _ _ E) in O. apply occurs_cons in O as [O | O]; [|exact (IH O)].
    assert (Py.startswith (c :: s) old = true) as E'; [|congruence].
    rewrite <- (scan_miss _ _ E) in O.
    apply (scan_startswith _ C [] old eq_refl O).
Qed.

(** The scan creates no occurrence of a pattern that cannot share a
    position with [new]. *)
Lemma scan_no_new (p : str) (s : str) :
  clash p new = false ->
  forall u, occurs p (u ++ scan s) -> occurs p (u ++ s).
Proof.
  intros C.
  induction s as [|t IH|c s E IH] using scan_ind; intros u O.
  - exact O.
  - rewrite scan_hit in O. apply (occurs_around _ _ _ _ C) in O as [O | O].
    + apply occurs_app_l. exact O.
    + apply occurs_app_r, occurs_app_r. apply (IH []). exact O.
  - rewrite (scan_miss _ _ E) in O.
    change (u ++ c :: scan s) with (u ++ [c] ++ scan s) in O.
    rewrite app_assoc in O. apply IH in O. rewrite <- app_assoc in O. exact O.
Qed.

(** The scan passes over a separator [m] that cannot share a position
    with [old]. *)
Lemma scan_keep_sep (m x y : str) :
  clash old m = false -> scan (x ++ m ++ y) = scan x ++ m ++ scan y.
Proof.
  intros C. apply clash_false in C as (C1 & C2 & C3 & C4).
  assert (forall c w z, Py.startswith ((c :: w) ++ m ++ z) old = true ->
                        Py.startswith (c :: w) old = true) as Hpre.
  { intros c w z H. apply startswith_iff in H as [r H]. apply startswith_iff.
    apply app_eq_app_cases in H as [[l [E1 E2]] | [l [Hl [E1 E2]]]];
      [|exists l; exact E1].
    destruct l as [|d l]; [exists []; rewrite E1, !app_nil_r; reflexivity|]. exfalso.
    apply app_eq_app_cases in E2 as [[l2 [E3 E4]] | [l2 [Hl2 [E3 E4]]]].
    - apply C3. exists (c :: w), l2. rewrite E1, E3. reflexivity.
    - eapply no_meet; [exact C1 | | exact E1 | exact E3]. discriminate. }
  induction x as [|t IH|c s E IH] using scan_ind.
  - simpl. assert (forall v w, m = v ++ w -> scan (w ++ y) = w ++ scan y) as H;
      [|apply (H [] m eq_refl)].
    intros v w; revert v; induction w as [|c w IH]; intros v Hm; [reflexivity|].
    assert (Py.startswith ((c :: w) ++ y) old = false) as E.
    { destruct (Py.startswith ((c :: w) ++ y) old) eqn:E; [exfalso|reflexivity].
      apply startswith_iff in E as [r E].
      apply app_eq_app_cases in E as [[l [E1 E2]] | [l [Hl [E1 E2]]]].
      - eapply no_meet; [exact C2 | | exact Hm | exact E1]. discriminate.
      - apply C4. exists v, l. rewrite Hm, E1. reflexivity. }
    rewrite <- app_comm_cons in E. rewrite <- !app_comm_cons.
    rewrite (scan_miss _ _ E). f_equal.
    apply (IH (v ++ [c])). rewrite <- app_assoc. exact Hm.
  - rewrite <- app_assoc, !scan_hit, IH, <- app_assoc. reflexivity.
  - assert (Py.startswith ((c :: s) ++ m ++ y) old = false) as E'.
    { destruct (Py.startswith ((c :: s) ++ m ++ y) old) eqn:E'; [|reflexivity].
      apply Hpre in E'. congruence. }
    rewrite <- app_comm_cons in E'. rewrite <- !app_comm_cons.
    rewrite (scan_miss _ _ E), (scan_miss _ _ E'), IH. reflexivity.
Qed.

(** An occurrence of a borderless [old] is replaced wherever it stands. *)
Lemma scan_replace_sep (x y : str) :
  borderless old = true -> scan (x ++ old ++ y) = scan x ++ new ++ scan y.
Proof.
  intros B.
  assert (forall u t r, t <> [] -> u <> [] -> old = u ++ t -> old = t ++ r -> False)
    as Hb.
  { intros u t r Ht Hu E1 E2. unfold borderless in B.
    destruct old as [|a o'] eqn:Eo; [discriminate|].
    apply negb_true_iff in B. destruct u as [|d u]; [contradiction|].
    inversion E1; subst. eapply no_meet; [exact B | exact Ht | reflexivity | exact E2]. }
  induction x as [|t IH|c s E IH] using scan_ind.
  - simpl. apply scan_hit.
  - rewrite <- app_assoc, !scan_hit, IH, <- app_assoc. reflexivity.
  - assert (Py.startswith ((c :: s) ++ old ++ y) old = false) as E'.
    { destruct (Py.startswith ((c :: s) ++ old ++ y) old) eqn:E'; [exfalso|reflexivity].
      apply startswith_iff in E' as [r E'].
      apply app_eq_app_cases in E' as [[l [E1 E2]] | [l [Hl [E1 E2]]]].
      - apply app_eq_app_cases in E2 as [[l2 [E3 E4]] | [l2 [Hl2 [E3 E4]]]].
        + rewrite E3 in E1. apply (f_equal (@length ascii)) in E1.
          rewrite !length_app in E1. simpl in E1. lia.
        + destruct l as [|d l].
          * rewrite app_nil_r in E1.
            assert (Py.startswith (c :: s) old = true) as E5
                by (apply startswith_iff; exists []; rewrite app_nil_r; auto).
            congruence.
          * apply (Hb (c :: s) (d :: l) l2); [discriminate | discriminate | exact E1 | exact E3].
      - assert (Py.startswith (c :: s) old = true) as E5
            by (apply startswith_iff; exists l; auto).
        congruence. }
    rewrite <- app_comm_cons in E'. rewrite <- !app_comm_cons.
    rewrite (scan_miss _ _ E), (scan_miss _ _ E'), IH. reflexivity.
Qed.

End Replace.

(** ** Paths *)

Lemma plain_iff (x : str) :
  plain x = true <-> x <> [] /\ forall c, In c x -> c <> Py.slash.
Proof.
  unfold plain. rewrite andb_true_iff, negb_true_iff, eqb_false_iff, forallb_forall.
  split; intros [H1 H2]; split; auto; intros c Hc.
  - specialize (H2 c Hc). apply negb_true_iff in H2. intros ->.
    rewrite Ascii.eqb_refl in H2. discriminate.
  - apply negb_true_iff. destruct (Ascii.eqb c Py.slash) eqn:E; [|reflexivity].
    apply ascii_eqb_true in E. exfalso. exact (H2 c Hc E).
Qed.

Lemma slash_eqb_false (c : ascii) : c <> Py.slash -> Ascii.eqb c Py.slash = false.
Proof.
  intros H. destruct (Ascii.eqb c Py.slash) eqn:E; [|reflexivity].
  apply ascii_eqb_true in E. contradiction.
Qed.

Lemma rsplit_slash_plain (x : str) :
  (forall c, In c x -> c <> Py.slash) -> Py.rsplit_slash x = ([], x).
Proof.
  induction x as [|c x IH]; intros H; [reflexivity|].
  cbn [Py.rsplit_slash]. rewrite IH by (intros d Hd; apply H; right; exact Hd).
  rewrite slash_eqb_false by (apply H; left; reflexivity). reflexivity.
Qed.

Lemma rsplit_slash_app (s x : str) :
  (forall c, In c x -> c <> Py.slash) ->
  Py.rsplit_slash (s ++ Py.slash :: x) = (s ++ [Py.slash], x).
Proof.
  intros H. induction s as [|c s IH].
  - cbn [app Py.rsplit_slash]. rewrite (rsplit_slash_plain _ H).
    rewrite Ascii.eqb_refl. reflexivity.
  - cbn [app Py.rsplit_slash]. rewrite IH. destruct s; reflexivity.
Qed.

Lemma basename_app (s x : str) :
  (forall c, In c x -> c <> Py.slash) ->
  Py.os_path_basename (s ++ Py.slash :: x) = x.
Proof.
  intros H. unfold Py.os_path_basename. rewrite (rsplit_slash_app _ _ H). reflexivity.
Qed.

Lemma open_ended_plain (x : str) : plain x = true -> open_ended x.
Proof.
  intros H. apply plain_iff in H as [H1 H2].
  destruct (rev x) as [|c r] eqn:E.
  - apply (f_equal (@rev ascii)) in E. rewrite rev_involutive in E. contradiction.
  - exists c, r. split; [exact E|]. apply H2, in_rev. rewrite E. left; reflexivity.
Qed.

Lemma open_ended_app (s x : str) : plain x = true -> open_ended (s ++ Py.slash :: x).
Proof.
  intros H. destruct (open_ended_plain _ H) as (c & r & E & Hc).
  exists c, (r ++ rev (s ++ [Py.slash])).
  split; [|exact Hc].
  change (s ++ Py.slash :: x) with (s ++ [Py.slash] ++ x).
  rewrite app_assoc, rev_app_distr, E. reflexivity.
Qed.

Lemma open_ended_nonempty (s : str) : open_ended s -> s <> [].
Proof. intros (c & r & E & _) ->. discriminate. Qed.

Lemma open_ended_endswith (s : str) :
  open_ended s -> Py.endswith s [Py.slash] = false.
Proof.
  intros (c & r & E & Hc). unfold Py.endswith. rewrite E.
  change (rev [Py.slash]) with [Py.slash]. cbn [Py.startswith].
  destruct (Ascii.eqb Py.slash c) eqn:E'; [|reflexivity].
  apply ascii_eqb_true in E'. congruence.
Qed.

Lemma startswith_slash_plain (x : str) :
  plain x = true -> Py.startswith x [Py.slash] = false.
Proof.
  intros H. apply plain_iff in H as [H1 H2]. destruct x as [|c x]; [contradiction|].
  cbn [Py.startswith]. destruct (Ascii.eqb Py.slash c) eqn:E; [|reflexivity].
  apply ascii_eqb_true in E. exfalso. apply (H2 c); [left; reflexivity | auto].
Qed.

Lemma join2_plain (path x : str) :
  open_ended path -> plain x = true -> Py.join2 path x = path ++ Py.slash :: x.
Proof.
  intros Hp Hx. unfold Py.join2.
  rewrite (startswith_slash_plain _ Hx), (open_ended_endswith _ Hp).
  destruct (Py.eqb path []) eqn:E; [|reflexivity].
  apply eqb_true_iff in E. apply open_ended_nonempty in Hp. contradiction.
Qed.

Lemma fold_join2_plain (l : list str) (path : str) :
  open_ended path -> Forall (fun x => plain x = true) l ->
  fold_left Py.join2 l path = fold_left (fun acc x => acc ++ Py.slash :: x) l path.
Proof.
  revert path. induction l as [|x l IH]; intros path Hp Hl; [reflexivity|].
  inversion Hl; subst. cbn [fold_left]. rewrite (join2_plain _ _ Hp) by assumption.
  apply IH; [apply open_ended_app|]; assumption.
Qed.

Lemma slashed_snoc (l : list str) (x : str) :
  l <> [] -> slashed (l ++ [x]) = slashed l ++ Py.slash :: x.
Proof.
  destruct l as [|a l]; [contradiction|]. intros _.
  cbn [slashed app]. rewrite fold_left_app. reflexivity.
Qed.

Lemma open_ended_slashed (l : list str) :
  l <> [] -> Forall (fun x => plain x = true) l -> open_ended (slashed l).
Proof.
  induction l as [|x l IH] using rev_ind; [contradiction|]. intros _ H.
  apply Forall_app in H as [Hl Hx]. inversion Hx; subst.
  destruct l as [|a l]; [apply open_ended_plain; assumption|].
  rewrite slashed_snoc by discriminate. apply open_ended_app. assumption.
Qed.

Lemma os_path_join_empty_second (a : str) (l : list str) :
  l <> [] -> Forall (fun x => plain x = true) (a :: l) ->
  Py.os_path_join (a :: [] :: l) = slashed (a :: l).
Proof.
  intros Hne H. inversion H as [|? ? Ha Hl]; subst.
  cbn [Py.os_path_join fold_left slashed].
  assert (Py.join2 a [] = a ++ [Py.slash]) as ->.
  { unfold Py.join2. cbn [Py.startswith].
    rewrite (open_ended_endswith _ (open_ended_plain _ Ha)).
    destruct (Py.eqb a []) eqn:E; [|reflexivity].
    apply eqb_true_iff in E. subst. discriminate. }
  destruct l as [|y l]; [contradiction|].
  inversion Hl; subst. cbn [fold_left].
  assert (Py.join2 (a ++ [Py.slash]) y = a ++ Py.slash :: y) as ->.
  { unfold Py.join2. rewrite (startswith_slash_plain _ H2).
    unfold Py.endswith. rewrite rev_app_distr.
    change (rev [Py.slash]) with [Py.slash]. cbn [app Py.startswith].
    rewrite Ascii.eqb_refl, startswith_nil, orb_true_r.
    rewrite <- app_assoc. reflexivity. }
  apply fold_join2_plain; [apply open_ended_app|]; assumption.
Qed.

(** The path the script builds from a root, a relative path that starts
    with the empty string, and a last component. *)
Lemma os_path_join_rel (a : str) (rel : list str) (x : str) :
  Forall (fun x => plain x = true) (a :: rel ++ [x]) ->
  Py.os_path_join ([a] ++ ([] :: rel) ++ [x]) = slashed (a :: rel ++ [x]).
Proof.
  intros H. apply (os_path_join_empty_second a (rel ++ [x])); [|exact H].
  destruct rel; discriminate.
Qed.

Lemma os_path_join_pair (l : list str) (x : str) :
  l <> [] -> Forall (fun x => plain x = true) l -> plain x = true ->
  Py.os_path_join [slashed l; x] = slashed (l ++ [x]).
Proof.
  intros Hl Hp Hx. cbn [Py.os_path_join fold_left].
  rewrite join2_plain, slashed_snoc; auto using open_ended_slashed.
Qed.

Lemma os_path_split_slashed (l : list str) (x : str) :
  l <> [] -> Forall (fun x => plain x = true) l -> plain x = true ->
  Py.os_path_split (slashed (l ++ [x])) = (slashed l, x).
Proof.
  intros Hl Hp Hx. rewrite slashed_snoc by assumption.
  unfold Py.os_path_split. apply plain_iff in Hx as Hx'.
  rewrite (rsplit_slash_app _ _ (proj2 Hx')).
  destruct (open_ended_slashed _ Hl Hp) as (c & r & E & Hc).
  rewrite rev_app_distr. cbn [rev app Py.rstrip_slash_rev].
  rewrite Ascii.eqb_refl, E. cbn [Py.rstrip_slash_rev].
  rewrite (slash_eqb_false _ Hc), <- E, rev_involutive.
  destruct (slashed l) eqn:E'; [discriminate E | reflexivity].
Qed.

Lemma basename_slashed (l : list str) (x : str) :
  l <> [] -> plain x = true -> Py.os_path_basename (slashed (l ++ [x])) = x.
Proof.
  intros Hl Hx. rewrite slashed_snoc by assumption.
  apply basename_app. apply plain_iff in Hx. tauto.
Qed.

Lemma components_aux_plain (x cur rest : str) :
  (forall c, In c x -> c <> Py.slash) ->
  Py.components_aux cur (x ++ rest) = Py.components_aux (rev x ++ cur) rest.
Proof.
  revert cur. induction x as [|c x IH]; intros cur H; [reflexivity|].
  cbn [app Py.components_aux rev].
  rewrite slash_eqb_false by (apply H; left; reflexivity).
  rewrite IH by (intros d Hd; apply H; right; exact Hd).
  rewrite <- app_assoc. reflexivity.
Qed.

Lemma components_plain (x : str) : plain x = true -> Py.components x = [x].
Proof.
  intros H. apply plain_iff in H as [H1 H2]. unfold Py.components.
  rewrite <- (app_nil_r x) at 1. rewrite (components_aux_plain _ _ _ H2), app_nil_r.
  cbn [Py.components_aux]. rewrite rev_involutive.
  destruct (rev x) eqn:E; [|reflexivity].
  apply (f_equal (@rev ascii)) in E. rewrite rev_involutive in E. contradiction.
Qed.

Lemma components_aux_snoc (cur p x : str) :
  plain x = true ->
  Py.components_aux cur (p ++ Py.slash :: x) = Py.components_aux cur p ++ [x].
Proof.
  intros H. revert cur. induction p as [|c p IH]; intros cur.
  - cbn [app Py.components_aux]. rewrite Ascii.eqb_refl.
    fold (Py.components x). rewrite (components_plain _ H).
    destruct cur; reflexivity.
  - cbn [app Py.components_aux].
    destruct (Ascii.eqb c Py.slash); [destruct cur|]; rewrite IH; reflexivity.
Qed.

Lemma components_slashed (l : list str) :
  Forall (fun x => plain x = true) l -> Py.components (slashed l) = l.
Proof.
  induction l as [|x l IH] using rev_ind; intros H; [reflexivity|].
  apply Forall_app in H as [Hl Hx]. inversion Hx; subst.
  destruct l as [|a l]; [apply components_plain; assumption|].
  rewrite slashed_snoc by discriminate. unfold Py.components in *.
  rewrite components_aux_snoc, IH by assumption. reflexivity.
Qed.

(** The suffix test on a path only looks at its last component. *)
Lemma endswith_py_path (p x : str) :
  Py.endswith (p ++ Py.slash :: x) (py ".py") = Py.endswith x (py ".py").
Proof.
  unfold Py.endswith.
  change (rev (py ".py")) with ["y"%char; "p"%char; "."%char].
  change (p ++ Py.slash :: x) with (p ++ [Py.slash] ++ x).
  rewrite !rev_app_distr, <- app_assoc. change (rev [Py.slash]) with [Py.slash].
  assert (Ascii.eqb "y" Py.slash = false) as Hy by reflexivity.
  assert (Ascii.eqb "p" Py.slash = false) as Hp by reflexivity.
  assert (Ascii.eqb "." Py.slash = false) as Hd by reflexivity.
  destruct (rev x) as [|a [|b [|c r]]]; cbn [app Py.startswith];
    rewrite ?Hy, ?Hp, ?Hd, ?andb_false_r, ?startswith_nil; reflexivity.
Qed.

Lemma endswith_py_slashed (l : list str) (x : str) :
  l <> [] ->
  Py.endswith (slashed (l ++ [x])) (py ".py") = Py.endswith x (py ".py").
Proof. intros H. rewrite slashed_snoc by assumption. apply endswith_py_path. Qed.

(** ** The directory tree *)

Lemma assoc_set_same (x : str) (n : node) (es : list (str * node)) :
  FS.assoc x (FS.set x n es) = Some n.
Proof.
  induction es as [|[y m] es IH]; cbn [FS.set FS.assoc].
  - rewrite eqb_refl. reflexivity.
  - destruct (Py.eqb x y) eqn:E; cbn [FS.assoc]; rewrite E; auto.
Qed.

Lemma assoc_set_other (x y : str) (n : node) (es : list (str * node)) :
  x <> y -> FS.assoc y (FS.set x n es) = FS.assoc y es.
Proof.
  intros H. induction es as [|[z m] es IH]; cbn [FS.set FS.assoc].
  - apply not_eq_sym, eqb_false_iff in H. rewrite H. reflexivity.
  - destruct (Py.eqb x z) eqn:E; cbn [FS.assoc].
    + apply eqb_true_iff in E. subst z.
      apply not_eq_sym, eqb_false_iff in H. rewrite H. reflexivity.
    + rewrite IH. reflexivity.
Qed.

Lemma set_set (x : str) (a b : node) (es : list (str * node)) :
  FS.set x a (FS.set x b es) = FS.set x a es.
Proof.
  induction es as [|[y m] es IH]; cbn [FS.set].
  - rewrite eqb_refl. reflexivity.
  - destruct (Py.eqb x y) eqn:E; cbn [FS.set]; rewrite E; [reflexivity|].
    rewrite IH. reflexivity.
Qed.

Lemma set_fresh (x : str) (n : node) (es : list (str * node)) :
  FS.assoc x es = None -> FS.set x n es = es ++ [(x, n)].
Proof.
  induction es as [|[y m] es IH]; cbn [FS.set FS.assoc app]; [reflexivity|].
  destruct (Py.eqb x y); [discriminate|]. intros H. rewrite IH by assumption.
  reflexivity.
Qed.

Lemma assoc_app_fresh (x : str) (n : node) (es : list (str * node)) :
  FS.assoc x es = None -> FS.assoc x (es ++ [(x, n)]) = Some n.
Proof.
  intros H. rewrite <- (set_fresh x n es H). apply assoc_set_same.
Qed.

Lemma set_last (x : str) (a b : node) (es : list (str * node)) :
  FS.assoc x es = None -> FS.set x a (es ++ [(x, b)]) = es ++ [(x, a)].
Proof.
  intros H. rewrite <- (set_fresh x b es H), set_set. apply set_fresh, H.
Qed.

Lemma assoc_none_iff (x : str) (es : list (str * node)) :
  FS.assoc x es = None <-> ~ In x (map fst es).
Proof.
  induction es as [|[y m] es IH]; cbn [FS.assoc map fst In]; [tauto|].
  destruct (Py.eqb x y) eqn:E.
  - apply eqb_true_iff in E. split; [discriminate | intros H; exfalso; auto].
  - apply eqb_false_iff in E. rewrite IH. split; [intros H [G|G]; auto | tauto].
Qed.

Lemma insert_at_step (y : str) (q : list str) (X : node)
      (es : list (str * node)) (sub sub' : node) :
  FS.assoc y es = Some sub -> FS.insert_at q X sub = Some sub' ->
  FS.insert_at (y :: q) X (Dir es) = Some (Dir (FS.set y sub' es)).
Proof.
  intros H1 H2. cbn [FS.insert_at]. destruct q as [|z q].
  - cbn [FS.insert_at] in H2. inversion H2; subst. reflexivity.
  - rewrite H1, H2. reflexivity.
Qed.

Lemma lookup_cons_inv (y : str) (q : list str) (t n : node) :
  FS.lookup (y :: q) t = Some n ->
  exists es sub, t = Dir es /\ FS.assoc y es = Some sub /\ FS.lookup q sub = Some n.
Proof.
  cbn [FS.lookup]. destruct t as [c|es]; [discriminate|].
  destruct (FS.assoc y es) as [sub|] eqn:E; [|discriminate].
  intros H. exists es, sub. auto.
Qed.

(** A directory that exists can be replaced. *)
Lemma insert_at_exists (p : list str) (X : node) (t n : node) :
  FS.lookup p t = Some n -> exists t1, FS.insert_at p X t = Some t1.
Proof.
  revert t. induction p as [|y q IH]; intros t H.
  - exists X. reflexivity.
  - apply lookup_cons_inv in H as (es & sub & -> & H1 & H2).
    destruct (IH _ H2) as [sub' H3].
    exists (Dir (FS.set y sub' es)). apply insert_at_step with sub; assumption.
Qed.

Lemma lookup_insert_at (p q : list str) (X t t1 : node) :
  FS.lookup p t <> None ->
  FS.insert_at p X t = Some t1 -> FS.lookup (p ++ q) t1 = FS.lookup q X.
Proof.
  revert t t1. induction p as [|y p IH]; intros t t1 Hp H.
  - cbn in H. inversion H; subst. reflexivity.
  - destruct (FS.lookup (y :: p) t) as [n|] eqn:E; [|contradiction].
    apply lookup_cons_inv in E as (es & sub & -> & H1 & H2).
    destruct (insert_at_exists p X sub n H2) as [sub' H3].
    rewrite (insert_at_step y p X es sub sub' H1 H3) in H. inversion H; subst.
    cbn [app FS.lookup]. rewrite assoc_set_same.
    apply IH with sub; [rewrite H2; discriminate | exact H3].
Qed.

(** Replacing below one top-level name leaves the others alone. *)
Lemma lookup_insert_at_other (a b : str) (p q : list str) (X t t1 : node) :
  a <> b -> FS.insert_at (a :: p) X t = Some t1 ->
  FS.lookup (b :: q) t1 = FS.lookup (b :: q) t.
Proof.
  intros Hab H. cbn [FS.insert_at] in H. destruct t as [c|es]; [discriminate|].
  assert (exists n, t1 = Dir (FS.set a n es)) as [n ->].
  { destruct p as [|z p].
    - inversion H. eauto.
    - destruct (FS.assoc a es); [|discriminate].
      destruct (FS.insert_at (z :: p) X n); inversion H. eauto. }
  cbn [FS.lookup]. rewrite assoc_set_other by assumption. reflexivity.
Qed.

(** Putting an entry into a directory that was just replaced. *)
Lemma insert_at_snoc (p : list str) (x : str) (n : node)
      (E : list (str * node)) (t t1 d : node) :
  FS.lookup p t = Some d ->
  FS.insert_at p (Dir E) t = Some t1 ->
  FS.insert_at (p ++ [x]) n t1 = FS.insert_at p (Dir (FS.set x n E)) t.
Proof.
  revert t t1. induction p as [|y p IH]; intros t t1 Hp H.
  - cbn in H. inversion H; subst. reflexivity.
  - apply lookup_cons_inv in Hp as (es & sub & -> & H1 & H2).
    destruct (insert_at_exists p (Dir E) sub d H2) as [sub1 H3].
    destruct (insert_at_exists p (Dir (FS.set x n E)) sub d H2) as [sub2 H4].
    rewrite (insert_at_step y p _ es sub sub1 H1 H3) in H. inversion H; subst.
    rewrite (insert_at_step y p _ es sub sub2 H1 H4).
    change ((y :: p) ++ [x]) with (y :: (p ++ [x])).
    rewrite (insert_at_step y (p ++ [x]) n (FS.set y sub1 es) sub1 sub2).
    + rewrite set_set. reflexivity.
    + apply assoc_set_same.
    + rewrite (IH sub sub1 H2 H3). exact H4.
Qed.

Lemma mirror_node_dir (x : str) (es : list (str * node)) :
  mirror_node x (Dir es) = Dir (mirror es).
Proof. reflexivity. Qed.

Lemma mirror_app (a b : list (str * node)) : mirror (a ++ b) = mirror a ++ mirror b.
Proof.
  induction a as [|[x m] a IH]; [reflexivity|].
  cbn [app mirror]. rewrite IH. destruct (hidden x); reflexivity.
Qed.

Lemma mirror_names (x : str) (es : list (str * node)) :
  In x (map fst (mirror es)) -> In x (map fst es) /\ hidden x = false.
Proof.
  induction es as [|[y m] es IH]; cbn [mirror map fst In]; [tauto|].
  destruct (hidden y) eqn:E; cbn [map fst In].
  - intros H. destruct (IH H). auto.
  - intros [<- | H]; [auto|]. destruct (IH H). auto.
Qed.

Lemma plain_tree_entries (d : nat) (es : list (str * node)) :
  plain_tree (Dir es) = true -> height (Dir es) <= S d ->
  NoDup (map fst es) /\ Forall (plain_entry d) es.
Proof.
  induction es as [|[x m] es IH]; intros P H.
  - split; constructor.
  - change (plain_tree (Dir ((x, m) :: es)))
      with (plain x && negb (existsb (Py.eqb x) (map fst es)) &&
            match m with Dir _ => negb (has_magic x) | File _ => true end &&
            plain_tree m && plain_tree (Dir es)) in P.
    change (height (Dir ((x, m) :: es)))
      with (S (Nat.max (height m) (Nat.pred (height (Dir es))))) in H.
    assert (height (Dir es) = S (Nat.pred (height (Dir es)))) as Hes by reflexivity.
    apply andb_true_iff in P as [P P5]. apply andb_true_iff in P as [P P4].
    apply andb_true_iff in P as [P P3]. apply andb_true_iff in P as [P P2].
    destruct IH as [IH1 IH2]; [assumption | lia |].
    split.
    + cbn [map fst]. constructor; [|exact IH1].
      intros Hin. apply negb_true_iff in P2.
      assert (existsb (Py.eqb x) (map fst es) = true); [|congruence].
      apply existsb_exists. exists x. split; [exact Hin | apply eqb_refl].
    + constructor; [|exact IH2].
      repeat split; cbn [fst snd]; try assumption; [|lia].
      intros es' ->. apply negb_true_iff. assumption.
Qed.

Lemma assoc_app_notin (x : str) (m : node) (a b : list (str * node)) :
  ~ In x (map fst a) -> FS.assoc x (a ++ (x, m) :: b) = Some m.
Proof.
  induction a as [|[y n] a IH]; cbn [app FS.assoc map fst In]; intros H.
  - rewrite eqb_refl. reflexivity.
  - destruct (Py.eqb x y) eqn:E.
    + apply eqb_true_iff in E. exfalso. auto.
    + apply IH. auto.
Qed.

Lemma lookup_app (p q : list str) (t n : node) :
  FS.lookup p t = Some n -> FS.lookup (p ++ q) t = FS.lookup q n.
Proof.
  revert t. induction p as [|y p IH]; intros t H.
  - cbn in H. inversion H; subst. reflexivity.
  - apply lookup_cons_inv in H as (es & sub & -> & H1 & H2).
    cbn [app FS.lookup]. rewrite H1. apply IH, H2.
Qed.

(** ** The monad *)

Section Runs.

Context {R : Type} {collab : Collaborator R}.

Lemma bind_ok {A B} (m : M R A) (k : A -> M R B) (w w' : world R) (a : A) :
  m w = (Ok a, w') -> bind m k w = k a w'.
Proof. intros H. unfold bind. rewrite H. reflexivity. Qed.

Lemma bind_raise {A B} (m : M R A) (k : A -> M R B) (w w' : world R) (e : exn) :
  m w = (Raise e, w') -> bind m k w = (Raise e, w').
Proof. intros H. unfold bind. rewrite H. reflexivity. Qed.

Lemma world_eta (w : world R) :
  World (fs w) (repo w) (trace w ++ []) (log w ++ []) = w.
Proof. destruct w. cbn. rewrite !app_nil_r. reflexivity. Qed.

Lemma read_file_ok (p c : str) (w : world R) :
  FS.at_path p (fs w) = Some (File c) -> read_file p w = (Ok c, w).
Proof. intros H. unfold read_file, bind, get_fs. rewrite H. reflexivity. Qed.

Lemma write_file_run (p c : str) (w : world R) (t' : node) :
  (forall es, FS.at_path p (fs w) <> Some (Dir es)) ->
  FS.insert_at (Py.components p) (File c) (fs w) = Some t' ->
  write_file p c w = (Ok tt, World t' (repo w) (trace w) (log w)).
Proof.
  intros H1 H2. unfold write_file, bind, get_fs.
  destruct (FS.at_path p (fs w)) as [[c0|es]|]; rewrite ?H2; try reflexivity.
  exfalso. exact (H1 es eq_refl).
Qed.

Lemma write_file_ok (p c : str) (w : world R) (t' : node) :
  FS.at_path p (fs w) = None ->
  FS.insert_at (Py.components p) (File c) (fs w) = Some t' ->
  write_file p c w = (Ok tt, World t' (repo w) (trace w) (log w)).
Proof.
  intros H1 H2. apply write_file_run; [|exact H2].
  intros es. rewrite H1. discriminate.
Qed.

Lemma os_mkdir_ok (p : str) (w : world R) (t' : node) :
  FS.at_path p (fs w) = None ->
  FS.insert_at (Py.components p) (Dir []) (fs w) = Some t' ->
  os_mkdir p w = (Ok tt, World t' (repo w) (trace w) (log w)).
Proof.
  intros H1 H2. unfold os_mkdir, bind, get_fs. rewrite H1, H2. reflexivity.
Qed.

Lemma call_diff (q a b : str) (w : world R) :
  call [py "diff"; q; a; b] w =
  (Ok (diff_status [q; a; b] (fs w)),
   World (fs w) (repo w) (trace w ++ [[py "diff"; q; a; b]]) (log w)).
Proof. reflexivity. Qed.

End Runs.

(** ** The namespace rewriter *)

Section Rewriter.

Context {R : Type} {collab : Collaborator R}.

Local Abbreviation an := (py "analytics").
Local Abbreviation seg := (py "segmentio").
Local Abbreviation plains := (Forall (fun x => plain x = true)).

Lemma plains_path (a : str) (rel : list str) (x : str) :
  plain a = true -> plains rel -> plain x = true -> plains (a :: rel ++ [x]).
Proof.
  intros Ha Hr Hx. constructor; [exact Ha|].
  apply Forall_app. split; [exact Hr | constructor; [exact Hx | constructor]].
Qed.

Lemma at_path_slashed (l : list str) (t : node) :
  plains l -> FS.at_path (slashed l) t = FS.lookup l t.
Proof. intros H. unfold FS.at_path. rewrite components_slashed by exact H. reflexivity. Qed.

Lemma basename_rel (a : str) (rel : list str) (x : str) :
  plain x = true -> Py.os_path_basename (slashed (a :: rel ++ [x])) = x.
Proof. intros H. apply (basename_slashed (a :: rel) x); [discriminate | exact H]. Qed.

Lemma endswith_py_rel (a : str) (rel : list str) (x : str) :
  Py.endswith (slashed (a :: rel ++ [x])) (py ".py") = Py.endswith x (py ".py").
Proof. apply (endswith_py_slashed (a :: rel) x). discriminate. Qed.

(** One turn of the loop on a regular file. *)
Lemma package_entry_file (recurse : list str -> M R unit) (rel : list str)
      (x c : str) (E : list (str * node)) (t0 d0 : node) (w : world R) :
  plains rel -> plain x = true ->
  FS.lookup (an :: rel ++ [x]) (fs w) = Some (File c) ->
  FS.lookup (seg :: rel) t0 = Some d0 ->
  FS.insert_at (seg :: rel) (Dir E) t0 = Some (fs w) ->
  FS.assoc x E = None ->
  exists t' T L,
    FS.insert_at (seg :: rel) (Dir (E ++ [(x, mirror_node x (File c))])) t0
    = Some t' /\
    package_entry recurse ([] :: rel) (slashed (an :: rel ++ [x])) w
    = (Ok tt, World t' (repo w) (trace w ++ T) (log w ++ L)).
Proof.
  intros Hrel Hx Hsrc Hd0 Hinv Hfresh.
  assert (plains (an :: rel ++ [x])) as Pa by (apply plains_path; auto).
  assert (plains (seg :: rel ++ [x])) as Ps by (apply plains_path; auto).
  destruct (insert_at_exists (seg :: rel)
              (Dir (E ++ [(x, mirror_node x (File c))])) t0 d0 Hd0) as [t' Ht'].
  assert (FS.at_path (slashed (seg :: rel ++ [x])) (fs w) = None) as Hout.
  { rewrite at_path_slashed by exact Ps.
    change (seg :: rel ++ [x]) with ((seg :: rel) ++ [x]).
    rewrite (lookup_insert_at (seg :: rel) [x] (Dir E) t0 (fs w));
      [|rewrite Hd0; discriminate | exact Hinv].
    cbn [FS.lookup]. rewrite Hfresh. reflexivity. }
  assert (forall c', mirror_node x (File c) = File c' ->
            FS.insert_at (Py.components (slashed (seg :: rel ++ [x])))
                         (File c') (fs w) = Some t') as Hins.
  { intros c' Hc'. rewrite components_slashed by exact Ps.
    change (seg :: rel ++ [x]) with ((seg :: rel) ++ [x]).
    rewrite (insert_at_snoc (seg :: rel) x (File c') E t0 (fs w) d0 Hd0 Hinv).
    rewrite set_fresh by exact Hfresh. rewrite <- Hc'. exact Ht'. }
  exists t'. unfold package_entry.
  rewrite (basename_rel an rel x Hx).
  repeat match goal with
         | |- context [Py.os_path_join ?l] =>
           rewrite (os_path_join_rel seg rel x Ps
                    : Py.os_path_join l = slashed (seg :: rel ++ [x]))
         end.
  unfold bind at 1. unfold os_path_isdir.
  rewrite (at_path_slashed _ _ Pa), Hsrc, endswith_py_rel.
  cbn [mirror_node] in Hins, Ht' |- *.
  destruct (Py.endswith x (py ".py")).
  - exists [[py "diff"; py "-q"; slashed (an :: rel ++ [x]);
             slashed (seg :: rel ++ [x])]].
    eexists. split; [exact Ht'|].
    rewrite (bind_ok _ _ w w c)
      by (apply read_file_ok; rewrite (at_path_slashed _ _ Pa); exact Hsrc).
    rewrite (bind_ok _ _ w _ tt (write_file_ok _ _ w t' Hout (Hins _ eq_refl))).
    unfold bind. rewrite call_diff. cbn [fs repo trace log].
    unfold logging_debug, logging. cbn [fs repo trace log]. reflexivity.
  - exists []. eexists. split; [exact Ht'|].
    rewrite (app_nil_r (trace w)). unfold bind at 1. unfold logging_debug, logging.
    unfold shutil_copyfile.
    rewrite !components_slashed by assumption.
    cbn [Py.list_eqb]. change (Py.eqb an seg) with false. cbn [andb].
    rewrite (bind_ok _ _ _ _ c)
      by (apply read_file_ok; rewrite (at_path_slashed _ _ Pa); exact Hsrc).
    rewrite (write_file_ok _ _ _ t'); [cbn [fs repo trace log]; reflexivity | exact Hout |].
    apply (Hins _ eq_refl).
Qed.

Lemma seg_neq_an : seg <> an.
Proof. discriminate. Qed.

(** One turn of the loop on a directory. *)
Lemma package_entry_dir (recurse : list str -> M R unit) (rel : list str)
      (x : str) (S E : list (str * node)) (t0 d0 : node) (w : world R) :
  plains rel -> plain x = true -> mirrors recurse S ->
  FS.lookup (an :: rel ++ [x]) (fs w) = Some (Dir S) ->
  FS.lookup (seg :: rel) t0 = Some d0 ->
  FS.insert_at (seg :: rel) (Dir E) t0 = Some (fs w) ->
  FS.assoc x E = None ->
  exists t' T L,
    FS.insert_at (seg :: rel) (Dir (E ++ [(x, mirror_node x (Dir S))])) t0
    = Some t' /\
    package_entry recurse ([] :: rel) (slashed (an :: rel ++ [x])) w
    = (Ok tt, World t' (repo w) (trace w ++ T) (log w ++ L)).
Proof.
  intros Hrel Hx Hrec Hsrc Hd0 Hinv Hfresh.
  assert (plains (an :: rel ++ [x])) as Pa by (apply plains_path; auto).
  assert (plains (seg :: rel ++ [x])) as Ps by (apply plains_path; auto).
  assert (plains (rel ++ [x])) as Pr by (inversion Pa; assumption).
  destruct (insert_at_exists (seg :: rel) (Dir (E ++ [(x, Dir [])])) t0 d0 Hd0)
    as [t1 Ht1].
  assert (FS.at_path (slashed (seg :: rel ++ [x])) (fs w) = None) as Hout.
  { rewrite at_path_slashed by exact Ps.
    change (seg :: rel ++ [x]) with ((seg :: rel) ++ [x]).
    rewrite (lookup_insert_at (seg :: rel) [x] (Dir E) t0 (fs w));
      [|rewrite Hd0; discriminate | exact Hinv].
    cbn [FS.lookup]. rewrite Hfresh. reflexivity. }
  assert (FS.insert_at (Py.components (slashed (seg :: rel ++ [x])))
                       (Dir []) (fs w) = Some t1) as Hins.
  { rewrite components_slashed by exact Ps.
    change (seg :: rel ++ [x]) with ((seg :: rel) ++ [x]).
    rewrite (insert_at_snoc (seg :: rel) x (Dir []) E t0 (fs w) d0 Hd0 Hinv).
    rewrite set_fresh by exact Hfresh. exact Ht1. }
  set (w1 := World t1 (repo w) (trace w) (log w)).
  destruct (Hrec (rel ++ [x]) w1 Pr) as (t2 & T & L & Ht2 & Hrun).
  { cbn [fs w1].
    rewrite components_slashed in Hins by exact Ps.
    rewrite (lookup_insert_at_other seg an (rel ++ [x]) (rel ++ [x])
               (Dir []) (fs w) t1 seg_neq_an Hins).
    exact Hsrc. }
  { cbn [fs w1]. change (seg :: rel ++ [x]) with ((seg :: rel) ++ [x]).
    rewrite (lookup_insert_at (seg :: rel) [x] (Dir (E ++ [(x, Dir [])])) t0 t1);
      [|rewrite Hd0; discriminate | exact Ht1].
    cbn [FS.lookup]. rewrite assoc_app_fresh by exact Hfresh. reflexivity. }
  exists t2, T, L. split.
  - cbn [fs w1] in Ht2. change (seg :: rel ++ [x]) with ((seg :: rel) ++ [x]) in Ht2.
    rewrite (insert_at_snoc (seg :: rel) x (Dir (mirror S)) (E ++ [(x, Dir [])])
               t0 t1 d0 Hd0 Ht1) in Ht2.
    rewrite set_last in Ht2 by exact Hfresh.
    rewrite mirror_node_dir. exact Ht2.
  - unfold package_entry.
    rewrite (basename_rel an rel x Hx).
    repeat match goal with
           | |- context [Py.os_path_join ?l] =>
             rewrite (os_path_join_rel seg rel x Ps
                      : Py.os_path_join l = slashed (seg :: rel ++ [x]))
           end.
    unfold bind at 1. unfold os_path_isdir.
    rewrite (at_path_slashed _ _ Pa), Hsrc.
    rewrite (bind_ok _ _ w w1 tt (os_mkdir_ok _ w t1 Hout Hins)).
    exact Hrun.
Qed.

Lemma set_same (x : str) (n : node) (es : list (str * node)) :
  FS.assoc x es = Some n -> FS.set x n es = es.
Proof.
  induction es as [|[y m] es IH]; cbn [FS.assoc FS.set]; [discriminate|].
  destruct (Py.eqb x y); intros H; [inversion H; reflexivity|].
  rewrite IH by exact H. reflexivity.
Qed.

Lemma insert_at_same (p : list str) (t n : node) :
  FS.lookup p t = Some n -> FS.insert_at p n t = Some t.
Proof.
  revert t. induction p as [|y q IH]; intros t H.
  - cbn in H |- *. congruence.
  - apply lookup_cons_inv in H as (es & sub & -> & H1 & H2).
    rewrite (insert_at_step y q n es sub sub H1 (IH sub H2)).
    rewrite set_same by exact H1. reflexivity.
Qed.

(** The loop, from any point of the listing: [S1] is done, [S2] is left. *)
Lemma package_loop (recurse : list str -> M R unit) (d : nat)
      (rel : list str) (t0 d0 : node) :
  (forall S, plain_tree (Dir S) = true -> height (Dir S) <= d ->
             mirrors recurse S) ->
  plains rel ->
  FS.lookup (seg :: rel) t0 = Some d0 ->
  forall (S2 S1 : list (str * node)) (w : world R),
    NoDup (map fst (S1 ++ S2)) ->
    Forall (plain_entry d) S2 ->
    FS.lookup (an :: rel) t0 = Some (Dir (S1 ++ S2)) ->
    FS.insert_at (seg :: rel) (Dir (mirror S1)) t0 = Some (fs w) ->
    exists t' T L,
      FS.insert_at (seg :: rel) (Dir (mirror (S1 ++ S2))) t0 = Some t' /\
      for_each
        (map (fun name => Py.os_path_join [slashed (an :: rel); name])
             (filter (fun name => negb (hidden name)) (map fst S2)))
        (package_entry recurse ([] :: rel)) w
      = (Ok tt, World t' (repo w) (trace w ++ T) (log w ++ L)).
Proof.
  intros Hrec Hrel Hd0.
  induction S2 as [|[x m] S2 IH]; intros S1 w Hnd Hpl Hsrc Hinv.
  - exists (fs w), [], []. rewrite app_nil_r. split; [exact Hinv|].
    cbn [map filter for_each]. unfold ret. rewrite world_eta. reflexivity.
  - inversion Hpl as [|? ? Hp Hpl']; subst.
    destruct Hp as (Hx & _ & Hpt & Hh). cbn [fst snd] in Hx, Hpt, Hh.
    assert (~ In x (map fst S1)) as Hnotin.
    { rewrite map_app in Hnd. cbn [map fst] in Hnd.
      apply NoDup_remove_2 in Hnd. intros Hin. apply Hnd, in_or_app. auto. }
    specialize (IH (S1 ++ [(x, m)])).
    rewrite <- app_assoc in IH. cbn [app] in IH.
    rewrite !mirror_app in IH. rewrite mirror_app. cbn [mirror] in IH |- *.
    cbn [map fst filter]. destruct (hidden x) eqn:Hhid; cbn [negb].
    + rewrite app_nil_r in IH. apply IH; assumption.
    + cbn [map for_each].
      rewrite (os_path_join_pair (an :: rel) x)
        by (discriminate || assumption || (constructor; [reflexivity | assumption])).
      cbn [app].
      assert (FS.lookup (an :: rel ++ [x]) (fs w) = Some m) as Hlook.
      { rewrite (lookup_insert_at_other seg an rel (rel ++ [x]) _ t0 (fs w)
                   seg_neq_an Hinv).
        change (an :: rel ++ [x]) with ((an :: rel) ++ [x]).
        rewrite (lookup_app (an :: rel) [x] t0 _ Hsrc). cbn [FS.lookup].
        rewrite assoc_app_notin by exact Hnotin. reflexivity. }
      assert (FS.assoc x (mirror S1) = None) as Hfresh.
      { apply assoc_none_iff. intros Hin. apply mirror_names in Hin. tauto. }
      assert (exists t1 T1 L1,
                 FS.insert_at (seg :: rel)
                   (Dir (mirror S1 ++ [(x, mirror_node x m)])) t0 = Some t1 /\
                 package_entry recurse ([] :: rel) (slashed (an :: rel ++ [x])) w
                 = (Ok tt, World t1 (repo w) (trace w ++ T1) (log w ++ L1)))
        as (t1 & T1 & L1 & Ht1 & Hrun1).
      { destruct m as [c|S'].
        - apply package_entry_file with d0; assumption.
        - apply package_entry_dir with d0; try assumption.
          apply Hrec; assumption. }
      set (w1 := World t1 (repo w) (trace w ++ T1) (log w ++ L1)) in *.
      destruct (IH w1) as (t' & T & L & Ht' & Hrun); try assumption.
      exists t', (T1 ++ T), (L1 ++ L). split; [exact Ht'|].
      rewrite (bind_ok _ _ w w1 tt Hrun1), Hrun. subst w1. cbn [fs repo trace log].
      rewrite !app_assoc. reflexivity.
Qed.

Lemma glob_listing (rel : list str) (es : list (str * node)) (w : world R) :
  plains rel ->
  FS.lookup (an :: rel) (fs w) = Some (Dir es) ->
  glob (Py.os_path_join ([an] ++ ([] :: rel) ++ [py "*"])) w
  = (Ok (map (fun name => Py.os_path_join [slashed (an :: rel); name])
             (filter (fun name => negb (hidden name)) (map fst es))), w).
Proof.
  intros Hrel Hsrc.
  assert (plains (an :: rel)) as Pa by (constructor; [reflexivity | exact Hrel]).
  rewrite (os_path_join_rel an rel (py "*"))
    by (apply plains_path; [reflexivity | exact Hrel | reflexivity]).
  unfold glob.
  rewrite (os_path_split_slashed (an :: rel) (py "*") ltac:(discriminate) Pa eq_refl
           : Py.os_path_split (slashed (an :: rel ++ [py "*"])) = _).
  unfold bind, get_fs. change (Py.eqb (py "*") (py "*")) with true. cbv iota.
  rewrite (at_path_slashed _ _ Pa), Hsrc. reflexivity.
Qed.

(** The rewriter mirrors a plain source directory into an empty target
    directory, given enough recursion depth. *)
Lemma create_rec_mirrors (depth : nat) (S : list (str * node)) :
  plain_tree (Dir S) = true -> height (Dir S) <= depth ->
  mirrors (create_segmentio_branded_package_rec depth) S.
Proof.
  revert S. induction depth as [|d IH]; intros S Hp Hh.
  - exfalso. assert (1 <= height (Dir S)) by (cbn [height]; lia). lia.
  - intros rel w Hrel Hsrc Htgt.
    destruct (plain_tree_entries d S Hp Hh) as [Hnd Hpl].
    destruct (package_loop (create_segmentio_branded_package_rec d) d rel
                (fs w) (Dir []) IH Hrel Htgt S [] w Hnd Hpl Hsrc
                (insert_at_same _ _ _ Htgt))
      as (t' & T & L & Ht' & Hrun).
    exists t', T, L. split; [exact Ht'|].
    cbn [create_segmentio_branded_package_rec].
    rewrite (bind_ok _ _ w w _ (glob_listing rel S w Hrel Hsrc)).
    exact Hrun.
Qed.

End Rewriter.

(** ** The rewrite of import statements *)

Lemma replace_nonempty (s old new : str) :
  old <> [] -> Py.replace s old new = Py.replace_from old new 0 s.
Proof. destruct old; [contradiction | reflexivity]. Qed.

Section Imports.

Local Abbreviation o1 := (py "import analytics").
Local Abbreviation n1 := (py "import segmentio").
Local Abbreviation o2 := (py "from analytics.").
Local Abbreviation n2 := (py "from segmentio.").

Lemma rewrite_imports_scans (c : str) :
  rewrite_imports c
  = Py.replace_from o2 n2 0 (Py.replace_from o1 n1 0 c).
Proof. reflexivity. Qed.

(** Every occurrence of the bare-import pattern is replaced. *)
Lemma rewrite_imports_import (a b : str) :
  rewrite_imports (a ++ o1 ++ b)
  = rewrite_imports a ++ n1 ++ rewrite_imports b.
Proof.
  rewrite !rewrite_imports_scans.
  rewrite (scan_replace_sep o1 n1 ltac:(discriminate) a b eq_refl).
  apply (scan_keep_sep o2 n2 ltac:(discriminate) n1). reflexivity.
Qed.

(** Every occurrence of the from-import pattern is replaced. *)
Lemma rewrite_imports_from (a b : str) :
  rewrite_imports (a ++ o2 ++ b)
  = rewrite_imports a ++ n2 ++ rewrite_imports b.
Proof.
  rewrite !rewrite_imports_scans.
  rewrite (scan_keep_sep o1 n1 ltac:(discriminate) o2 a b eq_refl).
  apply (scan_replace_sep o2 n2 ltac:(discriminate)). reflexivity.
Qed.

(** Content without either pattern is returned as it is. *)
Lemma rewrite_imports_other (c : str) :
  ~ occurs o1 c -> ~ occurs o2 c -> rewrite_imports c = c.
Proof.
  intros H1 H2. rewrite rewrite_imports_scans.
  rewrite (scan_absent o1 n1 c H1). apply scan_absent, H2.
Qed.

(** Neither pattern is left in the result. *)
Lemma rewrite_imports_gone (c : str) :
  ~ occurs o1 (rewrite_imports c) /\ ~ occurs o2 (rewrite_imports c).
Proof.
  rewrite rewrite_imports_scans. split.
  - intros O.
    apply (scan_no_new o2 n2 ltac:(discriminate) o1 _ eq_refl []) in O.
    exact (scan_gone o1 n1 ltac:(discriminate) c eq_refl O).
  - apply (scan_gone o2 n2 ltac:(discriminate)). reflexivity.
Qed.

End Imports.

(** ** The metadata rewriter *)

(** C7.  [refactor_setup_with_segmentio_branding] rewrites [setup.py] by
    exactly three literal replacements, applied in order: the distribution
    name, the test-suite entry point, the list of packages.  It raises
    nothing and touches nothing else, and a replacement whose literal does
    not occur in the descriptor leaves the text it is applied to as it
    is. *)
Theorem C7_metadata_rewriter
        (R : Type) (collab : Collaborator R) (w : world R) (c : str) :
  FS.at_path (py "setup.py") (fs w) = Some (File c) ->
  let c1 := Py.replace c (py "name='analytics-python'") (py "name='segmentio'") in
  let c2 := Py.replace c1 (py "test_suite='analytics.test.all'")
                          (py "test_suite='segmentio.test.all'") in
  let c3 := Py.replace c2 (py "packages=['analytics', 'analytics.test']")
                          (py "packages=['segmentio', 'segmentio.test']") in
  (exists t',
      refactor_setup_with_segmentio_branding w
      = (Ok tt, World t' (repo w) (trace w) (log w)) /\
      FS.at_path (py "setup.py") t' = Some (File c3) /\
      forall x q, x <> py "setup.py" ->
                  FS.lookup (x :: q) t' = FS.lookup (x :: q) (fs w)) /\
  (~ occurs (py "name='analytics-python'") c -> c1 = c) /\
  (~ occurs (py "test_suite='analytics.test.all'") c -> c2 = c1) /\
  (~ occurs (py "packages=['analytics', 'analytics.test']") c -> c3 = c2).
Proof.
  intros H c1 c2 c3.
  assert (forall s, ~ occurs (py "name='analytics-python'") s ->
                    Py.replace s (py "name='analytics-python'")
                               (py "name='segmentio'") = s) as A1
      by (intros s; apply scan_absent).
  assert (forall s, ~ occurs (py "test_suite='analytics.test.all'") s ->
                    Py.replace s (py "test_suite='analytics.test.all'")
                               (py "test_suite='segmentio.test.all'") = s) as A2
      by (intros s; apply scan_absent).
  assert (forall s, ~ occurs (py "packages=['analytics', 'analytics.test']") s ->
                    Py.replace s (py "packages=['analytics', 'analytics.test']")
                               (py "packages=['segmentio', 'segmentio.test']") = s)
    as A3 by (intros s; apply scan_absent).
  assert (forall p, clash p (py "name='segmentio'") = false ->
                    occurs p c1 -> occurs p c) as N1.
  { intros p C O.
    exact (scan_no_new (py "name='analytics-python'") (py "name='segmentio'")
                       ltac:(discriminate) p c C [] O). }
  assert (forall p, clash p (py "test_suite='segmentio.test.all'") = false ->
                    occurs p c2 -> occurs p c1) as N2.
  { intros p C O.
    exact (scan_no_new (py "test_suite='analytics.test.all'")
                       (py "test_suite='segmentio.test.all'")
                       ltac:(discriminate) p c1 C [] O). }
  split; [|split; [|split]].
  - pose proof H as Hat.
    change (FS.at_path (py "setup.py") (fs w))
      with (FS.lookup [py "setup.py"] (fs w)) in H.
    destruct (lookup_cons_inv _ _ _ _ H) as (es & sub & Efs & _ & _).
    exists (Dir (FS.set (py "setup.py") (File c3) es)).
    split; [|split].
    + unfold refactor_setup_with_segmentio_branding.
      rewrite (bind_ok _ _ w w c (read_file_ok _ c w Hat)).
      apply write_file_run.
      * intros es'. rewrite Hat. discriminate.
      * change (Py.components (py "setup.py")) with [py "setup.py"].
        rewrite Efs. reflexivity.
    + change (FS.at_path (py "setup.py") ?t) with (FS.lookup [py "setup.py"] t).
      cbn [FS.lookup]. rewrite assoc_set_same. reflexivity.
    + intros x q Hx. rewrite Efs. cbn [FS.lookup].
      rewrite assoc_set_other by (apply not_eq_sym; exact Hx). reflexivity.
  - apply A1.
  - intros H2. apply A2. intros O. apply H2, N1; [reflexivity | exact O].
  - intros H3. apply A3. intros O. apply H3, N1; [reflexivity|].
    apply N2; [reflexivity | exact O].
Qed.

(** ** The target tree *)

Lemma assoc_mirror (y : str) (S : list (str * node)) :
  FS.assoc y (mirror S)
  = if hidden y then None else option_map (mirror_node y) (FS.assoc y S).
Proof.
  induction S as [|[x m] S IH]; cbn [mirror FS.assoc option_map].
  - destruct (hidden y); reflexivity.
  - destruct (Py.eqb y x) eqn:E.
    + apply eqb_true_iff in E. subst x.
      destruct (hidden y) eqn:Hy.
      * rewrite IH, ?Hy. reflexivity.
      * cbn [FS.assoc]. rewrite eqb_refl. reflexivity.
    + destruct (hidden x); [exact IH|].
      cbn [FS.assoc]. rewrite E. exact IH.
Qed.

(** What a path resolves to in the image of a directory. *)
Lemma lookup_mirror (p : list str) (S : list (str * node)) :
  p <> [] ->
  FS.lookup p (Dir (mirror S))
  = if existsb hidden p then None
    else option_map (mirror_node (last p [])) (FS.lookup p (Dir S)).
Proof.
  revert S. induction p as [|y p IH]; intros S Hp; [contradiction|].
  destruct p as [|z q].
  - cbn [FS.lookup existsb last]. rewrite assoc_mirror, orb_false_r.
    destruct (hidden y); [reflexivity|].
    destruct (FS.assoc y S); reflexivity.
  - change (last (y :: z :: q) []) with (last (z :: q) (@nil ascii)).
    change (existsb hidden (y :: z :: q))
      with (hidden y || existsb hidden (z :: q)).
    change (FS.lookup (y :: z :: q) (Dir (mirror S)))
      with (match FS.assoc y (mirror S) with
            | Some n => FS.lookup (z :: q) n
            | None => None
            end).
    change (FS.lookup (y :: z :: q) (Dir S))
      with (match FS.assoc y S with
            | Some n => FS.lookup (z :: q) n
            | None => None
            end).
    rewrite assoc_mirror. destruct (hidden y); [reflexivity|]. cbn [orb].
    destruct (FS.assoc y S) as [[c|S']|]; cbn [option_map].
    + cbn [mirror_node FS.lookup]. destruct (existsb hidden (z :: q)); reflexivity.
    + rewrite mirror_node_dir. apply IH. discriminate.
    + destruct (existsb hidden (z :: q)); reflexivity.
Qed.

Lemma assoc_unset_same (x : str) (es : list (str * node)) :
  FS.assoc x (FS.unset x es) = None.
Proof.
  induction es as [|[y m] es IH]; cbn [FS.unset FS.assoc]; [reflexivity|].
  destruct (Py.eqb x y) eqn:E; [exact IH|]. cbn [FS.assoc]. rewrite E. exact IH.
Qed.

Lemma assoc_unset_other (x y : str) (es : list (str * node)) :
  x <> y -> FS.assoc y (FS.unset x es) = FS.assoc y es.
Proof.
  intros H. induction es as [|[z m] es IH]; cbn [FS.unset FS.assoc]; [reflexivity|].
  destruct (Py.eqb x z) eqn:E.
  - apply eqb_true_iff in E. subst z.
    apply not_eq_sym, eqb_false_iff in H. rewrite H. exact IH.
  - cbn [FS.assoc]. rewrite IH. reflexivity.
Qed.

Section Target.

Context {R : Type} {collab : Collaborator R}.

Local Abbreviation an := (py "analytics").
Local Abbreviation seg := (py "segmentio").

(** The target directory is removed with all it holds and made anew. *)
Lemma clobber_run (w : world R) (es old : list (str * node)) :
  fs w = Dir es -> FS.assoc seg es = Some (Dir old) ->
  clobber w
  = (Ok tt,
     World (Dir (FS.unset seg es ++ [(seg, Dir [])])) (repo w) (trace w)
           (log w ++ [(INFO, py "clobber segmentio generated packaged")])).
Proof.
  intros Efs Hseg.
  set (w0 := World (fs w) (repo w) (trace w)
                   (log w ++ [(INFO, py "clobber segmentio generated packaged")])).
  set (w1 := World (Dir (FS.unset seg es)) (repo w) (trace w) (log w0)).
  assert (FS.at_path seg (fs w0) = Some (Dir old)) as Hat.
  { change (FS.at_path seg (fs w0)) with (FS.lookup [seg] (fs w)).
    rewrite Efs. cbn [FS.lookup]. rewrite Hseg. reflexivity. }
  assert (os_path_isdir seg w0 = (Ok true, w0)) as H1.
  { unfold os_path_isdir. rewrite Hat. reflexivity. }
  assert (shutil_rmtree seg w0 = (Ok tt, w1)) as H2.
  { unfold shutil_rmtree, bind, get_fs. rewrite Hat.
    change (Py.components seg) with [seg].
    change (fs w0) with (fs w). rewrite Efs.
    cbn [FS.remove_at]. rewrite Hseg. reflexivity. }
  unfold clobber.
  rewrite (bind_ok (logging_info (py "clobber segmentio generated packaged"))
                   _ w w0 tt eq_refl).
  rewrite (bind_ok _ _ w0 w0 true H1).
  rewrite (bind_ok _ _ w0 w1 tt H2).
  rewrite (os_mkdir_ok seg w1 (Dir (FS.unset seg es ++ [(seg, Dir [])])));
    [reflexivity | |].
  - change (FS.at_path seg (fs w1)) with (FS.lookup [seg] (Dir (FS.unset seg es))).
    cbn [FS.lookup]. rewrite assoc_unset_same. reflexivity.
  - change (Py.components seg) with [seg].
    change (fs w1) with (Dir (FS.unset seg es)). cbn [FS.insert_at].
    rewrite set_fresh by apply assoc_unset_same. reflexivity.
Qed.

(** From an empty target directory the rewriter builds the image of the
    source tree and changes nothing else. *)
Lemma rewriter_run (w : world R) (depth : nat) (S : list (str * node)) :
  plain_tree (Dir S) = true -> height (Dir S) <= depth ->
  FS.at_path an (fs w) = Some (Dir S) ->
  FS.at_path seg (fs w) = Some (Dir []) ->
  exists t' T L,
    create_segmentio_branded_package depth None w
    = (Ok tt, World t' (repo w) (trace w ++ T) (log w ++ L)) /\
    (forall q, FS.lookup (seg :: q) t' = FS.lookup q (Dir (mirror S))) /\
    (forall a q, a <> seg -> FS.lookup (a :: q) t' = FS.lookup (a :: q) (fs w)).
Proof.
  intros Hp Hh Han Hseg.
  destruct (create_rec_mirrors depth S Hp Hh [] w (Forall_nil _) Han Hseg)
    as (t' & T & L & Ht' & Hrun).
  exists t', T, L. split; [exact Hrun|]. split.
  - intros q. apply (lookup_insert_at [seg] q (Dir (mirror S)) (fs w) t'); [|exact Ht'].
    change (FS.lookup [seg] (fs w)) with (FS.at_path seg (fs w)).
    rewrite Hseg. discriminate.
  - intros a q Ha.
    apply (lookup_insert_at_other seg a [] q (Dir (mirror S)) (fs w) t'); [|exact Ht'].
    apply not_eq_sym, Ha.
Qed.

End Target.

Lemma assoc_app (y : str) (a b : list (str * node)) :
  FS.assoc y (a ++ b)
  = match FS.assoc y a with Some n => Some n | None => FS.assoc y b end.
Proof.
  induction a as [|[x m] a IH]; cbn [app FS.assoc]; [reflexivity|].
  destruct (Py.eqb y x); [reflexivity | exact IH].
Qed.

Section Claims_rewriter.

Context {R : Type} {collab : Collaborator R}.

Local Abbreviation an := (py "analytics").
Local Abbreviation seg := (py "segmentio").

Lemma at_top (x : str) (t n : node) :
  plain x = true ->
  FS.at_path x t = Some n <->
  exists es, t = Dir es /\ FS.assoc x es = Some n.
Proof.
  intros Hx. unfold FS.at_path. rewrite (components_plain x Hx).
  cbn [FS.lookup]. destruct t as [c|es].
  - split; [discriminate | intros (es & E & _); discriminate].
  - destruct (FS.assoc x es) as [m|] eqn:E.
    + split; [intros H; exists es; split; congruence|].
      intros (es' & E1 & E2). inversion E1; subst. congruence.
    + split; [discriminate|].
      intros (es' & E1 & E2). inversion E1; subst. congruence.
Qed.

(** C8.  Two runs of the rewriter on the same source tree, each into a
    freshly cleared target directory, both complete and leave the same
    target tree, whatever else the two worlds hold. *)
Theorem C8_rewrite_deterministic
        (wa wb : world R) (da db : nat) (S : list (str * node)) :
  plain_tree (Dir S) = true -> height (Dir S) <= da -> height (Dir S) <= db ->
  FS.at_path an (fs wa) = Some (Dir S) ->
  FS.at_path an (fs wb) = Some (Dir S) ->
  FS.at_path seg (fs wa) = Some (Dir []) ->
  FS.at_path seg (fs wb) = Some (Dir []) ->
  exists wa' wb',
    create_segmentio_branded_package da None wa = (Ok tt, wa') /\
    create_segmentio_branded_package db None wb = (Ok tt, wb') /\
    FS.at_path seg (fs wa') = FS.at_path seg (fs wb') /\
    FS.at_path an (fs wa') = Some (Dir S) /\
    FS.at_path an (fs wb') = Some (Dir S).
Proof.
  intros Hp Ha Hb Hana Hanb Hsa Hsb.
  destruct (rewriter_run wa da S Hp Ha Hana Hsa) as (ta & Ta & La & Hra & Hta & Hfa).
  destruct (rewriter_run wb db S Hp Hb Hanb Hsb) as (tb & Tb & Lb & Hrb & Htb & Hfb).
  do 2 eexists. split; [exact Hra|]. split; [exact Hrb|]. cbn [fs].
  change (FS.at_path ?x ?t) with (FS.lookup [x] t) in *.
  rewrite Hta, Htb, Hfa, Hfb by discriminate. auto.
Qed.

(** C10.  An entry of the source tree whose name begins with a dot is
    passed over without an error: the rewriter completes, and the target
    tree has no entry at the corresponding path, nor anything below it. *)
Theorem C10_hidden_entries_skipped
        (w : world R) (depth : nat) (S : list (str * node))
        (p : list str) (x : str) (n : node) :
  plain_tree (Dir S) = true -> height (Dir S) <= depth ->
  FS.at_path an (fs w) = Some (Dir S) ->
  FS.at_path seg (fs w) = Some (Dir []) ->
  hidden x = true ->
  FS.lookup (p ++ [x]) (Dir S) = Some n ->
  exists w',
    create_segmentio_branded_package depth None w = (Ok tt, w') /\
    forall q, FS.lookup (seg :: p ++ x :: q) (fs w') = None.
Proof.
  intros Hp Hh Han Hseg Hx _.
  destruct (rewriter_run w depth S Hp Hh Han Hseg) as (t' & T & L & Hrun & Htgt & _).
  eexists. split; [exact Hrun|]. intros q. cbn [fs].
  rewrite Htgt, lookup_mirror by (destruct p; discriminate).
  rewrite existsb_app. cbn [existsb]. rewrite Hx, orb_true_r. reflexivity.
Qed.

(** C1 (amended).  In a source tree within the reach of [glob] (no
    directory name holds a metacharacter of [glob], which the listing
    would read as a pattern) and nested no deeper than the recursion
    allows, for every regular file whose name and enclosing directory
    names do not begin with a dot, the rewriter, run into the cleared
    target directory, writes a file at the corresponding target path:
    with the contents rewritten when the name ends in [.py], with the
    contents unchanged otherwise.  The rewrite
    replaces every occurrence of [import analytics] by [import segmentio]
    and of [from analytics.] by [from segmentio.], wherever it stands,
    returns content without either pattern as it is, and leaves neither
    pattern in its result. *)
Theorem C1_visible_files_rewritten
        (w : world R) (depth : nat) (S : list (str * node))
        (p : list str) (x c : str) :
  plain_tree (Dir S) = true -> height (Dir S) <= depth ->
  FS.at_path an (fs w) = Some (Dir S) ->
  FS.at_path seg (fs w) = Some (Dir []) ->
  existsb hidden (p ++ [x]) = false ->
  FS.lookup (p ++ [x]) (Dir S) = Some (File c) ->
  (exists w',
      create_segmentio_branded_package depth None w = (Ok tt, w') /\
      FS.lookup (seg :: p ++ [x]) (fs w')
      = Some (File (if Py.endswith x (py ".py")
                    then rewrite_imports c else c))) /\
  (forall a b, rewrite_imports (a ++ py "import analytics" ++ b)
               = rewrite_imports a ++ py "import segmentio" ++ rewrite_imports b) /\
  (forall a b, rewrite_imports (a ++ py "from analytics." ++ b)
               = rewrite_imports a ++ py "from segmentio." ++ rewrite_imports b) /\
  (forall s, ~ occurs (py "import analytics") s ->
             ~ occurs (py "from analytics.") s -> rewrite_imports s = s) /\
  (forall s, ~ occurs (py "import analytics") (rewrite_imports s) /\
             ~ occurs (py "from analytics.") (rewrite_imports s)).
Proof.
  intros Hp Hh Han Hseg Hvis Hfile.
  split; [|exact (conj rewrite_imports_import
                   (conj rewrite_imports_from
                      (conj rewrite_imports_other rewrite_imports_gone)))].
  destruct (rewriter_run w depth S Hp Hh Han Hseg) as (t' & T & L & Hrun & Htgt & _).
  eexists. split; [exact Hrun|]. cbn [fs].
  rewrite Htgt, lookup_mirror, Hvis, Hfile by (destruct p; discriminate).
  rewrite last_last. reflexivity.
Qed.

End Claims_rewriter.

(** ** Commands *)

Section Subprocess.

Context {R : Type} {collab : Collaborator R}.

Lemma popen_git (args : list str) (w : world R) :
  popen (py "git" :: args) w
  = (Ok (status (py "git" :: args) w, stdout (py "git" :: args) w),
     after (py "git" :: args) w).
Proof.
  unfold popen, status, stdout, after.
  change (Py.eqb (py "git") (py "diff")) with false. cbv iota.
  destruct (spawn (py "git" :: args) (repo w) (fs w)) as [[[code out] r] t].
  reflexivity.
Qed.

Lemma call_git (args : list str) (w : world R) :
  call (py "git" :: args) w
  = (Ok (status (py "git" :: args) w), after (py "git" :: args) w).
Proof. unfold call, bind. rewrite popen_git. reflexivity. Qed.

Lemma check_call_git (args : list str) (w : world R) :
  check_call (py "git" :: args) w
  = (if (status (py "git" :: args) w =? 0)%Z then Ok tt
     else Raise (CalledProcessError (status (py "git" :: args) w)
                                    (py "git" :: args)),
     after (py "git" :: args) w).
Proof.
  unfold check_call, bind. rewrite popen_git.
  destruct (status (py "git" :: args) w =? 0)%Z; reflexivity.
Qed.

Lemma check_output_git (args : list str) (w : world R) :
  check_output (py "git" :: args) w
  = (if (status (py "git" :: args) w =? 0)%Z
     then Ok (stdout (py "git" :: args) w)
     else Raise (CalledProcessError (status (py "git" :: args) w)
                                    (py "git" :: args)),
     after (py "git" :: args) w).
Proof.
  unfold check_output, bind. rewrite popen_git.
  destruct (status (py "git" :: args) w =? 0)%Z; reflexivity.
Qed.

Lemma logging_run (l : level) (msg : str) (w : world R) :
  logging l msg w = (Ok tt, logged l msg w).
Proof. reflexivity. Qed.

End Subprocess.

(** ** The phases of the main program *)

Section Phases.

Context {R : Type} {collab : Collaborator R}.

Lemma trace_after (cmd : list str) (w : world R) :
  trace (after cmd w) = trace w ++ [cmd].
Proof. reflexivity. Qed.

Lemma trace_logged (l : level) (msg : str) (w : world R) :
  trace (logged l msg w) = trace w.
Proof. reflexivity. Qed.

(** A successful [record_start] ran one command, whose output, stripped,
    is the starting commit. *)
Lemma record_start_ok (w w1 : world R) (sc : str) :
  record_start w = (Ok sc, w1) ->
  sc = Py.rstrip (stdout Cmd.rev_parse_head w) /\
  trace w1 = trace w ++ [Cmd.rev_parse_head].
Proof.
  unfold record_start, bind.
  rewrite check_output_git.
  destruct (status _ w =? 0)%Z; [|discriminate].
  unfold logging_info, ret. rewrite logging_run.
  intros H. inversion H; subst. split; reflexivity.
Qed.

(** A successful [sync] listed the remotes and fetched twice. *)
Lemma sync_ok (w w' : world R) :
  sync w = (Ok tt, w') ->
  exists name,
    trace w' = trace w ++ [Cmd.remote_v; Cmd.fetch_master name; Cmd.fetch_tags name].
Proof.
  unfold sync, bind at 1. unfold logging_info. rewrite logging_run.
  unfold fetch_master_from_segmentio_analytics_python, bind at 1.
  unfold get_segmentio_analytics_python_remote, bind at 1.
  rewrite check_output_git.
  destruct (status _ _ =? 0)%Z; [|discriminate].
  destruct (re_search_remote _) as [[name url]|]; [|discriminate].
  unfold ret, bind.
  rewrite check_call_git.
  destruct (status _ _ =? 0)%Z; [|discriminate].
  rewrite check_call_git.
  destruct (status _ _ =? 0)%Z; [|discriminate].
  intros H. inversion H; subst. exists name.
  rewrite !trace_after, trace_logged, <- !app_assoc. reflexivity.
Qed.

(** A successful [guard] asked for the current branch and, unless the
    answer was the name of the release branch, verified that branch and
    switched to it. *)
Lemma guard_ok (w w' : world R) :
  guard w = (Ok tt, w') ->
  trace w' = trace w ++ [Cmd.abbrev_ref] \/
  trace w' = trace w ++ [Cmd.abbrev_ref; Cmd.verify_branch; Cmd.checkout_branch].
Proof.
  unfold guard, bind at 1. unfold logging_info. rewrite logging_run.
  unfold checkout_segmentio_branded_branch, bind at 1.
  rewrite check_output_git.
  destruct (status _ _ =? 0)%Z; [|discriminate].
  destruct (Py.eqb fixed_branch _); cbn [negb].
  - unfold ret. intros H. inversion H; subst. left. reflexivity.
  - unfold bind at 1.
    rewrite call_git.
    destruct (status _ _ =? 0)%Z; cbn [negb].
    + unfold bind, ret.
      rewrite check_call_git.
      destruct (status _ _ =? 0)%Z; [|discriminate].
      intros H. inversion H; subst. right.
      rewrite !trace_after, trace_logged, <- !app_assoc. reflexivity.
    + unfold bind.
      rewrite check_output_git.
      destruct (status _ _ =? 0)%Z; discriminate.
Qed.

(** A successful [compare_tags] ran the two [describe] queries. *)
Lemma compare_tags_ok (w w' : world R) (ct mrt : str) :
  compare_tags w = (Ok (ct, mrt), w') ->
  trace w' = trace w ++ [Cmd.describe_master; Cmd.describe_tags].
Proof.
  unfold compare_tags, bind at 1. unfold logging_info. rewrite logging_run.
  unfold get_most_recent_tag, bind at 1.
  rewrite check_output_git.
  destruct (status _ _ =? 0)%Z; [|discriminate].
  unfold bind at 1.
  rewrite check_output_git.
  destruct (status _ _ =? 0)%Z; [|discriminate].
  unfold bind, logging_debug, logging_info. rewrite !logging_run.
  destruct (Py.eqb _ _); rewrite ?logging_run; unfold ret;
    intros H; inversion H; subst;
    rewrite ?trace_logged, !trace_after, trace_logged, <- !app_assoc; reflexivity.
Qed.

End Phases.

(** ** What the body of the [try] statement can raise *)

Section Safe.

Context {R : Type} {collab : Collaborator R}.

Lemma safe_ret {A} (a : A) : safe R (ret a).
Proof. intros w e w' H. discriminate. Qed.

Lemma safe_raise {A} (e : exn) : is_Exception e = true -> safe R (@raise R A e).
Proof. intros He w e' w' H. inversion H; subst. exact He. Qed.

Lemma safe_bind {A B} (m : M R A) (k : A -> M R B) :
  safe R m -> (forall a, safe R (k a)) -> safe R (bind m k).
Proof.
  intros Hm Hk w e w' H. unfold bind in H.
  destruct (m w) as [[a|e0] w0] eqn:E.
  - exact (Hk a w0 e w' H).
  - inversion H; subst. exact (Hm _ _ _ E).
Qed.

Lemma safe_total {A} (m : M R A) :
  (forall w, exists a w', m w = (Ok a, w')) -> safe R m.
Proof. intros H w e w' E. destruct (H w) as (a & w0 & E0). congruence. Qed.

Lemma safe_popen (cmd : list str) : safe R (popen cmd).
Proof.
  apply safe_total. intros w. unfold popen.
  destruct (match cmd with
            | [] => spawn cmd (repo w) (fs w)
            | prog :: args =>
              if Py.eqb prog (py "diff")
              then (diff_status args (fs w), [], repo w, fs w)
              else spawn cmd (repo w) (fs w)
            end) as [[[code out] r] t].
  eauto.
Qed.

Ltac safe_step :=
  first
    [ apply safe_ret
    | apply safe_raise; reflexivity
    | apply safe_popen
    | apply safe_total; intros; eexists; eexists; reflexivity
    | apply safe_bind; [|intros]
    | match goal with
      | |- safe R (match ?x with _ => _ end) => destruct x
      | |- safe R (if ?b then _ else _) => destruct b
      | |- safe R (let (_, _) := ?x in _) => destruct x
      end ].

Ltac safe_tac := repeat safe_step.

Lemma safe_call (cmd : list str) : safe R (call cmd).
Proof. unfold call. safe_tac. Qed.

Lemma safe_check_call (cmd : list str) : safe R (check_call cmd).
Proof. unfold check_call. safe_tac. Qed.

Lemma safe_logging (l : level) (msg : str) : safe R (logging l msg).
Proof. safe_tac. Qed.

Lemma safe_read_file (p : str) : safe R (read_file p).
Proof. unfold read_file, get_fs. safe_tac. Qed.

Lemma safe_write_file (p c : str) : safe R (write_file p c).
Proof. unfold write_file, get_fs, set_fs. safe_tac. Qed.

Lemma safe_os_mkdir (p : str) : safe R (os_mkdir p).
Proof. unfold os_mkdir, get_fs, set_fs. safe_tac. Qed.

Lemma safe_shutil_rmtree (p : str) : safe R (shutil_rmtree p).
Proof. unfold shutil_rmtree, get_fs, set_fs. safe_tac. Qed.

Lemma safe_shutil_copyfile (a b : str) : safe R (shutil_copyfile a b).
Proof.
  unfold shutil_copyfile.
  destruct (Py.list_eqb _ _); [apply safe_raise; reflexivity|].
  apply safe_bind; [apply safe_read_file | intros; apply safe_write_file].
Qed.

Lemma safe_glob (p : str) : safe R (glob p).
Proof. unfold glob, get_fs. safe_tac. Qed.

Lemma safe_for_each {A} (l : list A) (body : A -> M R unit) :
  (forall x, safe R (body x)) -> safe R (for_each l body).
Proof.
  intros H. induction l as [|x l IH]; cbn [for_each].
  - apply safe_ret.
  - apply safe_bind; [apply H | intros; exact IH].
Qed.

Lemma safe_package_entry (recurse : list str -> M R unit)
      (rel : list str) (filepath : str) :
  (forall r, safe R (recurse r)) -> safe R (package_entry recurse rel filepath).
Proof.
  intros H. unfold package_entry.
  apply safe_bind; [unfold os_path_isdir; safe_tac|]. intros [|].
  - apply safe_bind; [apply safe_os_mkdir | intros; apply H].
  - destruct (Py.endswith filepath (py ".py")).
    + apply safe_bind; [apply safe_read_file | intros].
      apply safe_bind; [apply safe_write_file | intros].
      apply safe_bind; [apply safe_call | intros; apply safe_logging].
    + apply safe_bind; [apply safe_logging | intros; apply safe_shutil_copyfile].
Qed.

Lemma safe_create_rec (depth : nat) (rel : list str) :
  safe R (create_segmentio_branded_package_rec depth rel).
Proof.
  revert rel. induction depth as [|d IH]; intros rel;
    cbn [create_segmentio_branded_package_rec].
  - apply safe_raise. reflexivity.
  - apply safe_bind; [apply safe_glob | intros].
    apply safe_for_each. intros x. apply safe_package_entry, IH.
Qed.

Lemma safe_rebuild_through_commit (depth : nat) :
  safe R (rebuild_through_commit depth).
Proof.
  unfold rebuild_through_commit.
  apply safe_bind; [|intros; apply safe_bind; [|intros]].
  - unfold clobber.
    apply safe_bind; [apply safe_logging | intros].
    apply safe_bind; [unfold os_path_isdir; safe_tac | intros [|]].
    + apply safe_bind; [apply safe_shutil_rmtree | intros; apply safe_os_mkdir].
    + apply safe_bind; [apply safe_ret | intros; apply safe_os_mkdir].
  - unfold generate.
    apply safe_bind; [apply safe_logging | intros].
    apply safe_bind; [apply safe_create_rec | intros].
    unfold refactor_setup_with_segmentio_branding.
    apply safe_bind; [apply safe_read_file | intros; apply safe_write_file].
  - unfold commit_package.
    apply safe_bind; [apply safe_logging | intros].
    apply safe_bind; [apply safe_check_call | intros; apply safe_check_call].
Qed.

End Safe.


(** ** The orchestrator *)

Section Claims_orchestrator.

Context {R : Type} {collab : Collaborator R}.

(** The main program, once its first four phases have succeeded. *)
Lemma main_after_tags (w w1 w2 w3 w4 : world R) (depth : nat) (skip : bool)
      (sc ct mrt : str) :
  record_start w = (Ok sc, w1) -> sync w1 = (Ok tt, w2) ->
  guard w2 = (Ok tt, w3) -> compare_tags w3 = (Ok (ct, mrt), w4) ->
  main depth skip w
  = (release_merge skip ct mrt ;;
     try_except_reraise (rebuild_through_commit depth) (rollback sc) ;;
     logging_info (py "now you may run: `git push origin segmentio-release`") ;;
     logging_info (py "successfully created segmentio Release " ++ mrt)) w4.
Proof.
  intros H1 H2 H3 H4. unfold main.
  rewrite (bind_ok _ _ w w1 sc H1), (bind_ok _ _ w1 w2 tt H2),
    (bind_ok _ _ w2 w3 tt H3), (bind_ok _ _ w3 w4 (ct, mrt) H4).
  reflexivity.
Qed.

Lemma trace_before_merge (w w1 w2 w3 w4 : world R) (sc ct mrt : str) :
  record_start w = (Ok sc, w1) -> sync w1 = (Ok tt, w2) ->
  guard w2 = (Ok tt, w3) -> compare_tags w3 = (Ok (ct, mrt), w4) ->
  exists name G,
    (G = [Cmd.abbrev_ref] \/
     G = [Cmd.abbrev_ref; Cmd.verify_branch; Cmd.checkout_branch]) /\
    trace w4 = trace w ++ [Cmd.rev_parse_head; Cmd.remote_v;
                           Cmd.fetch_master name; Cmd.fetch_tags name]
                       ++ G ++ [Cmd.describe_master; Cmd.describe_tags].
Proof.
  intros H1 H2 H3 H4.
  apply record_start_ok in H1 as [_ T1]. apply sync_ok in H2 as [name T2].
  apply compare_tags_ok in H4. apply guard_ok in H3.
  exists name.
  destruct H3 as [T3 | T3];
    [exists [Cmd.abbrev_ref]
    |exists [Cmd.abbrev_ref; Cmd.verify_branch; Cmd.checkout_branch]];
    (split; [auto|]); rewrite H4, T3, T2, T1, <- !app_assoc; reflexivity.
Qed.

(** C5.  In a run that reaches the tag comparison without the merge-skip
    flag, equal tags end the program there with [SystemExit(0)]: the exit
    status is 0, the final world is the one the tag comparison left, and
    the commands run are the start query, the remote listing, the two
    fetches, the queries (and checkout) of the branch guard and the two
    [describe] queries; no merge and no commit among them. *)
Theorem C5_up_to_date_exits_zero
        (w w1 w2 w3 w4 : world R) (depth : nat) (sc ct mrt : str) :
  record_start w = (Ok sc, w1) -> sync w1 = (Ok tt, w2) ->
  guard w2 = (Ok tt, w3) -> compare_tags w3 = (Ok (ct, mrt), w4) ->
  ct = mrt ->
  main depth false w = (Raise (SystemExit 0), w4) /\
  exit_status (fst (main depth false w)) = 0%Z /\
  exists name G,
    (G = [Cmd.abbrev_ref] \/
     G = [Cmd.abbrev_ref; Cmd.verify_branch; Cmd.checkout_branch]) /\
    trace w4 = trace w ++ [Cmd.rev_parse_head; Cmd.remote_v;
                           Cmd.fetch_master name; Cmd.fetch_tags name]
                       ++ G ++ [Cmd.describe_master; Cmd.describe_tags].
Proof.
  intros H1 H2 H3 H4 E.
  assert (main depth false w = (Raise (SystemExit 0), w4)) as Hmain.
  { rewrite (main_after_tags w w1 w2 w3 w4 depth false sc ct mrt H1 H2 H3 H4).
    unfold release_merge, bind. cbn [negb].
    subst ct. rewrite eqb_refl. reflexivity. }
  split; [exact Hmain|]. split; [rewrite Hmain; reflexivity|].
  exact (trace_before_merge w w1 w2 w3 w4 sc ct mrt H1 H2 H3 H4).
Qed.

(** C3 (amended).  A failure of the merge step is not caught anywhere: it
    reaches the caller as it was raised, and the final world is the one the
    failing merge step left.  The [try] statement starts after the merge
    step, so no reset is run: the only commands after the tag comparison
    are the merge and, when the merge went through, the commit that
    failed. *)
Theorem C3_merge_failure_propagates
        (w w1 w2 w3 w4 w5 : world R) (depth : nat) (sc ct mrt : str) (e : exn) :
  record_start w = (Ok sc, w1) -> sync w1 = (Ok tt, w2) ->
  guard w2 = (Ok tt, w3) -> compare_tags w3 = (Ok (ct, mrt), w4) ->
  Py.eqb ct mrt = false ->
  merge_tagged_version mrt
    (logged INFO (py "merge most recent tagged version") w4) = (Raise e, w5) ->
  main depth false w = (Raise e, w5) /\
  (trace w5 = trace w4 ++ [Cmd.merge mrt] \/
   trace w5 = trace w4 ++ [Cmd.merge mrt;
                           Cmd.commit (py "merged Release " ++ mrt)]).
Proof.
  intros H1 H2 H3 H4 E Hm. split.
  - rewrite (main_after_tags w w1 w2 w3 w4 depth false sc ct mrt H1 H2 H3 H4).
    unfold release_merge. cbn [negb]. rewrite E.
    unfold bind at 1. unfold bind at 1. unfold ret at 1.
    unfold bind at 1. unfold logging_info. rewrite logging_run.
    unfold bind at 1. rewrite Hm. reflexivity.
  - revert Hm. unfold merge_tagged_version, bind.
    rewrite check_call_git.
    destruct (status _ _ =? 0)%Z.
    + rewrite check_call_git. destruct (status _ _ =? 0)%Z; [discriminate|].
      intros H. apply (f_equal snd) in H. cbn [snd] in H. subst w5. right.
      rewrite !trace_after, trace_logged, <- app_assoc. reflexivity.
    + intros H. apply (f_equal snd) in H. cbn [snd] in H. subst w5. left.
      rewrite trace_after, trace_logged. reflexivity.
Qed.

(** C4 (amended).  When the release branch is missing, the branch guard
    fails after the fetch step has run and before any checkout or merge:
    up to the failure the program has run the start query, the remote
    listing, the two fetches and the three queries of the guard.  The
    failure is the [StandardError] that tells how to create the branch
    when [git describe master] succeeds, and the failure of that command
    otherwise. *)
Theorem C4_guard_fails_after_fetch
        (w w1 w2 : world R) (depth : nat) (skip : bool) (sc : str) :
  record_start w = (Ok sc, w1) -> sync w1 = (Ok tt, w2) ->
  let wa := logged INFO (py "checkout segmentio branded branch") w2 in
  let wb := after Cmd.abbrev_ref wa in
  let wc := after Cmd.verify_branch wb in
  status Cmd.abbrev_ref wa = 0%Z ->
  Py.eqb fixed_branch (stdout Cmd.abbrev_ref wa) = false ->
  status Cmd.verify_branch wb <> 0%Z ->
  main depth skip w
  = (if (status Cmd.describe_master wc =? 0)%Z
     then Raise (StandardError
                   (missing_branch_message
                      (Py.rstrip (stdout Cmd.describe_master wc))))
     else Raise (CalledProcessError (status Cmd.describe_master wc)
                                    Cmd.describe_master),
     after Cmd.describe_master wc) /\
  exists name,
    trace (after Cmd.describe_master wc)
    = trace w ++ [Cmd.rev_parse_head; Cmd.remote_v;
                  Cmd.fetch_master name; Cmd.fetch_tags name;
                  Cmd.abbrev_ref; Cmd.verify_branch; Cmd.describe_master].
Proof.
  intros H1 H2 wa wb wc Ha Hb Hv. split.
  - unfold main.
    rewrite (bind_ok _ _ w w1 sc H1), (bind_ok _ _ w1 w2 tt H2).
    unfold bind at 1. unfold guard.
    unfold bind at 1. unfold logging_info. rewrite logging_run. fold wa.
    unfold checkout_segmentio_branded_branch.
    unfold bind at 1. rewrite check_output_git.
    change (status _ wa) with (status Cmd.abbrev_ref wa). rewrite Ha.
    change (0 =? 0)%Z with true. cbv iota.
    change (stdout _ wa) with (stdout Cmd.abbrev_ref wa). rewrite Hb. cbn [negb].
    change (after _ wa) with wb.
    unfold bind at 1. rewrite call_git.
    change (status _ wb) with (status Cmd.verify_branch wb).
    change (after _ wb) with wc.
    apply Z.eqb_neq in Hv. rewrite Hv. cbn [negb].
    unfold bind at 1. unfold bind at 1. rewrite check_output_git.
    change (status _ wc) with (status Cmd.describe_master wc).
    destruct (status Cmd.describe_master wc =? 0)%Z; reflexivity.
  - apply record_start_ok in H1 as [_ T1]. apply sync_ok in H2 as [name T2].
    exists name. rewrite trace_after. subst wc wb wa.
    rewrite !trace_after, trace_logged, T2, T1, <- !app_assoc. reflexivity.
Qed.

(** C2 (amended).  When the rebuild-through-commit phase raises a failure,
    the failure is an [Exception]; the handler logs, runs
    [git reset --hard] with the commit recorded at the start of the run
    and nothing after it.  When that command exits with status 0 the
    original failure is raised again; when it does not, its own
    [CalledProcessError] is raised in place of the original failure. *)
Theorem C2_rollback_then_reraise
        (w w1 w2 w3 w4 w5 w6 : world R) (depth : nat) (skip : bool)
        (sc ct mrt : str) (e : exn) :
  record_start w = (Ok sc, w1) -> sync w1 = (Ok tt, w2) ->
  guard w2 = (Ok tt, w3) -> compare_tags w3 = (Ok (ct, mrt), w4) ->
  release_merge skip ct mrt w4 = (Ok tt, w5) ->
  rebuild_through_commit depth w5 = (Raise e, w6) ->
  let wr := logged ERROR (py "whoops, resetting to initial commit for you") w6 in
  sc = Py.rstrip (stdout Cmd.rev_parse_head w) /\
  is_Exception e = true /\
  main depth skip w
  = (if (status (Cmd.reset_hard sc) wr =? 0)%Z then Raise e
     else Raise (CalledProcessError (status (Cmd.reset_hard sc) wr)
                                    (Cmd.reset_hard sc)),
     after (Cmd.reset_hard sc) wr).
Proof.
  intros H1 H2 H3 H4 H5 H6 wr.
  pose proof (safe_rebuild_through_commit depth w5 e w6 H6) as He.
  split; [exact (proj1 (record_start_ok w w1 sc H1))|]. split; [exact He|].
  rewrite (main_after_tags w w1 w2 w3 w4 depth skip sc ct mrt H1 H2 H3 H4).
  rewrite (bind_ok _ _ w4 w5 tt H5).
  unfold bind at 1. unfold try_except_reraise. rewrite H6, He.
  unfold rollback, bind. unfold logging_error. rewrite logging_run. fold wr.
  rewrite check_call_git.
  change (status _ wr) with (status (Cmd.reset_hard sc) wr).
  destruct (status (Cmd.reset_hard sc) wr =? 0)%Z; reflexivity.
Qed.

End Claims_orchestrator.

(** ** The rebuild phase *)

Section Claims_rebuild.

Context {R : Type} {collab : Collaborator R}.

Local Abbreviation an := (py "analytics").
Local Abbreviation seg := (py "segmentio").

Lemma bind_assoc {A B C} (m : M R A) (k : A -> M R B) (h : B -> M R C)
      (w : world R) :
  bind (bind m k) h w = bind m (fun a => bind (k a) h) w.
Proof. unfold bind. destruct (m w) as [[a|e] w1]; reflexivity. Qed.

Lemma unset_absent (x : str) (es : list (str * node)) :
  FS.assoc x es = None -> FS.unset x es = es.
Proof.
  induction es as [|[y m] es IH]; cbn [FS.assoc FS.unset]; [reflexivity|].
  destruct (Py.eqb x y); [discriminate|]. intros H. rewrite (IH H). reflexivity.
Qed.

(** [clobber] where the target is a directory or is missing: what is left
    is the other entries of the working directory and an empty target. *)
Lemma clobber_any (w : world R) (es : list (str * node)) :
  fs w = Dir es -> (forall c, FS.assoc seg es <> Some (File c)) ->
  clobber w
  = (Ok tt,
     World (Dir (FS.unset seg es ++ [(seg, Dir [])])) (repo w) (trace w)
           (log w ++ [(INFO, py "clobber segmentio generated packaged")])).
Proof.
  intros Efs Hs. destruct (FS.assoc seg es) as [[c|old]|] eqn:E.
  - exfalso. exact (Hs c eq_refl).
  - exact (clobber_run w es old Efs E).
  - set (w0 := World (fs w) (repo w) (trace w)
                     (log w ++ [(INFO, py "clobber segmentio generated packaged")])).
    assert (FS.at_path seg (fs w0) = None) as Hat.
    { change (FS.at_path seg (fs w0)) with (FS.lookup [seg] (fs w)).
      rewrite Efs. cbn [FS.lookup]. rewrite E. reflexivity. }
    assert (os_path_isdir seg w0 = (Ok false, w0)) as H1.
    { unfold os_path_isdir. rewrite Hat. reflexivity. }
    unfold clobber.
    rewrite (bind_ok (logging_info (py "clobber segmentio generated packaged"))
                     _ w w0 tt eq_refl).
    rewrite (bind_ok _ _ w0 w0 false H1).
    rewrite (bind_ok (ret tt) _ w0 w0 tt eq_refl).
    rewrite (os_mkdir_ok seg w0 (Dir (FS.unset seg es ++ [(seg, Dir [])])));
      [reflexivity | exact Hat |].
    change (Py.components seg) with [seg].
    change (fs w0) with (fs w). rewrite Efs. cbn [FS.insert_at].
    rewrite (unset_absent seg es E), (set_fresh seg (Dir []) es E). reflexivity.
Qed.

(** The body of the [try] statement, once [clobber] has run. *)
Lemma rebuild_after_clobber (depth : nat) (w : world R) (es : list (str * node)) :
  fs w = Dir es -> (forall c, FS.assoc seg es <> Some (File c)) ->
  rebuild_through_commit depth w
  = (create_segmentio_branded_package depth None ;;
     refactor_setup_with_segmentio_branding ;;
     commit_package)
      (logged INFO (py "generate segmentio package")
         (World (Dir (FS.unset seg es ++ [(seg, Dir [])])) (repo w) (trace w)
                (log w ++ [(INFO, py "clobber segmentio generated packaged")]))).
Proof.
  intros Efs Hs. unfold rebuild_through_commit.
  rewrite (bind_ok _ _ _ _ tt (clobber_any w es Efs Hs)).
  unfold generate. rewrite bind_assoc.
  rewrite (bind_ok (logging_info (py "generate segmentio package")) _ _ _ tt
                   (logging_run _ _ _)).
  rewrite bind_assoc. reflexivity.
Qed.

(** C6.  In every run that reaches the rebuild phase with [segmentio] a
    directory (or missing), the body of the [try] statement first leaves
    the working directory with its other entries and an empty [segmentio],
    whatever the old one held, and only then runs the rewriter, the
    metadata rewriter and the commit, in this order and from that world.
    So the outcome of the rebuild is the same for every old content of the
    target; and for a source tree within the reach of [glob] the target
    tree the rewriter leaves is the image of the source tree: every entry
    of it is the image of the source entry at the same path, nothing of
    the old target is among them. *)
Theorem C6_target_regenerated
        (w0 w1 w2 w3 w4 w : world R) (depth : nat) (skip : bool)
        (sc ct mrt : str) (es : list (str * node)) :
  record_start w0 = (Ok sc, w1) -> sync w1 = (Ok tt, w2) ->
  guard w2 = (Ok tt, w3) -> compare_tags w3 = (Ok (ct, mrt), w4) ->
  release_merge skip ct mrt w4 = (Ok tt, w) ->
  fs w = Dir es -> (forall c, FS.assoc seg es <> Some (File c)) ->
  let wc := World (Dir (FS.unset seg es ++ [(seg, Dir [])])) (repo w) (trace w)
                  (log w ++ [(INFO, py "clobber segmentio generated packaged")]) in
  let wg := logged INFO (py "generate segmentio package") wc in
  main depth skip w0
  = (try_except_reraise (rebuild_through_commit depth) (rollback sc) ;;
     logging_info (py "now you may run: `git push origin segmentio-release`") ;;
     logging_info (py "successfully created segmentio Release " ++ mrt)) w /\
  clobber w = (Ok tt, wc) /\
  FS.at_path seg (fs wg) = Some (Dir []) /\
  (forall x q, x <> seg -> FS.lookup (x :: q) (fs wg) = FS.lookup (x :: q) (fs w)) /\
  rebuild_through_commit depth w
  = (create_segmentio_branded_package depth None ;;
     refactor_setup_with_segmentio_branding ;;
     commit_package) wg /\
  (forall es',
      (forall c, FS.assoc seg es' <> Some (File c)) ->
      FS.unset seg es' = FS.unset seg es ->
      rebuild_through_commit depth (World (Dir es') (repo w) (trace w) (log w))
      = rebuild_through_commit depth w) /\
  forall S,
    plain_tree (Dir S) = true -> height (Dir S) <= depth ->
    FS.at_path an (fs w) = Some (Dir S) ->
    exists wr,
      create_segmentio_branded_package depth None wg = (Ok tt, wr) /\
      FS.at_path seg (fs wr) = Some (Dir (mirror S)) /\
      forall p n,
        p <> [] -> FS.lookup (seg :: p) (fs wr) = Some n ->
        exists m, FS.lookup (an :: p) (fs w) = Some m /\
                  n = mirror_node (last p []) m.
Proof.
  intros H1 H2 H3 H4 H5 Efs Hs wc wg.
  assert (forall x q, x <> seg ->
            FS.lookup (x :: q) (fs wg) = FS.lookup (x :: q) (fs w)) as Hframe.
  { intros x q Hx. rewrite Efs. cbn [fs wg wc logged FS.lookup].
    rewrite assoc_app, assoc_unset_other by (apply not_eq_sym; exact Hx).
    destruct (FS.assoc x es); [reflexivity|]. cbn [FS.assoc].
    apply eqb_false_iff in Hx. rewrite Hx. reflexivity. }
  assert (FS.at_path seg (fs wg) = Some (Dir [])) as Hs1.
  { apply at_top; [reflexivity|]. eexists. split; [reflexivity|].
    apply assoc_app_fresh, assoc_unset_same. }
  split; [|split; [|split; [|split; [|split; [|split]]]]].
  - rewrite (main_after_tags w0 w1 w2 w3 w4 depth skip sc ct mrt H1 H2 H3 H4).
    unfold bind at 1. rewrite H5. reflexivity.
  - exact (clobber_any w es Efs Hs).
  - exact Hs1.
  - exact Hframe.
  - exact (rebuild_after_clobber depth w es Efs Hs).
  - intros es' Hs' Eu.
    rewrite (rebuild_after_clobber depth w es Efs Hs).
    rewrite (rebuild_after_clobber
               depth (World (Dir es') (repo w) (trace w) (log w)) es' eq_refl Hs').
    cbn [fs repo trace log]. rewrite Eu. reflexivity.
  - intros S Hp Hh Han.
    assert (FS.at_path an (fs wg) = Some (Dir S)) as Ha1.
    { change (FS.at_path an ?t) with (FS.lookup [an] t) in Han |- *.
      rewrite Hframe by discriminate. exact Han. }
    destruct (rewriter_run wg depth S Hp Hh Ha1 Hs1)
      as (t' & T & L & Hrun & Htgt & _).
    eexists. split; [exact Hrun|]. cbn [fs]. split.
    + change (FS.at_path seg t') with (FS.lookup [seg] t').
      rewrite Htgt. reflexivity.
    + intros p n Hne Hn. rewrite Htgt, (lookup_mirror p S Hne) in Hn.
      destruct (existsb hidden p); [discriminate|].
      change (an :: p) with ([an] ++ p).
      change (FS.at_path an (fs w)) with (FS.lookup [an] (fs w)) in Han.
      rewrite (lookup_app [an] p (fs w) (Dir S) Han).
      destruct (FS.lookup p (Dir S)) as [m|]; [|discriminate].
      exists m. cbn [option_map] in Hn. split; congruence.
Qed.

End Claims_rebuild.


(** * Concrete runs *)

Lemma leb_le_true (n m : nat) : Nat.leb n m = true -> n <= m.
Proof. apply Nat.leb_le. Qed.

(** On the release branch git answers [segmentio-release] followed by a
    newline, which is not the name the guard compares with: the guard goes
    on to verify the branch and to check it out. *)
Lemma guard_after_newline (R : Type) (collab : Collaborator R) (w : world R) :
  status Cmd.abbrev_ref w = 0%Z ->
  stdout Cmd.abbrev_ref w = fixed_branch ++ nl ->
  status Cmd.verify_branch (after Cmd.abbrev_ref w) = 0%Z ->
  let wc := after Cmd.verify_branch (after Cmd.abbrev_ref w) in
  checkout_segmentio_branded_branch w
  = (if (status Cmd.checkout_branch wc =? 0)%Z then Ok tt
     else Raise (CalledProcessError (status Cmd.checkout_branch wc)
                                    Cmd.checkout_branch),
     after Cmd.checkout_branch wc).
Proof.
  intros Ha Hb Hv wc. unfold checkout_segmentio_branded_branch.
  unfold bind at 1. rewrite check_output_git.
  change (status _ w) with (status Cmd.abbrev_ref w). rewrite Ha.
  change (0 =? 0)%Z with true. cbv iota.
  change (stdout _ w) with (stdout Cmd.abbrev_ref w). rewrite Hb.
  change (Py.eqb fixed_branch (fixed_branch ++ nl)) with false. cbn [negb].
  unfold bind at 1. rewrite call_git.
  change (status _ (after _ w))
    with (status Cmd.verify_branch (after Cmd.abbrev_ref w)).
  rewrite Hv. change (0 =? 0)%Z with true. cbn [negb].
  unfold bind, ret. rewrite check_call_git. reflexivity.
Qed.

(** C9.  In a repository whose current branch is the release branch, the
    guard still verifies the branch and checks it out: the three commands
    it runs are the branch query, the verification and the checkout. *)
Theorem C9_guard_rechecks_on_release_branch :
  stdout Cmd.abbrev_ref (Sim.world_of Sim.repo_on_release) = fixed_branch ++ nl /\
  fst (checkout_segmentio_branded_branch (Sim.world_of Sim.repo_on_release))
  = Ok tt /\
  trace (snd (checkout_segmentio_branded_branch
                (Sim.world_of Sim.repo_on_release)))
  = [Cmd.abbrev_ref; Cmd.verify_branch; Cmd.checkout_branch].
Proof. vm_compute. repeat split. Qed.

(** C1, counterexample: [analytics/test/.hidden.py] is a Python source
    file of the source tree; the rewriter completes and the target tree
    has nothing at [segmentio/test/.hidden.py]. *)
Lemma C1_counterexample_hidden_py :
  FS.lookup [py "analytics"; py "test"; py ".hidden.py"] (fs Sim.world_cleared)
  = Some (File (py "import analytics")) /\
  fst (create_segmentio_branded_package 5 None Sim.world_cleared) = Ok tt /\
  FS.lookup [py "segmentio"; py "test"; py ".hidden.py"]
            (fs (snd (create_segmentio_branded_package 5 None Sim.world_cleared)))
  = None.
Proof. vm_compute. repeat split. Qed.

(** C2, counterexample: [git add] fails in the rebuild phase and the reset
    of the handler fails too; the program ends with the failure of the
    reset, not with the original failure, and the merge commit stays. *)
Lemma C2_counterexample_reset_fails :
  fst (rebuild_through_commit
         5 (at_rebuild false (Sim.world_of (Sim.breaking [py "add"; py "reset"]))))
  = Raise (CalledProcessError 1 Cmd.add_segmentio) /\
  fst (main 5 false (Sim.world_of (Sim.breaking [py "add"; py "reset"])))
  = Raise (CalledProcessError 1 (Cmd.reset_hard (py "c0ffee"))) /\
  Sim.head (repo (snd (main 5 false
                         (Sim.world_of (Sim.breaking [py "add"; py "reset"])))))
  = py "beef+".
Proof. vm_compute. repeat split. Qed.

(** C3, counterexample: the merge fails; the failure reaches the caller
    and no reset has been run. *)
Lemma C3_counterexample_no_rollback :
  fst (main 5 false (Sim.world_of (Sim.breaking [py "merge"])))
  = Raise (CalledProcessError 1 (Cmd.merge (py "v1.4.0"))) /\
  existsb (fun cmd => Py.eqb (subcommand cmd) (py "reset"))
          (trace (snd (main 5 false (Sim.world_of (Sim.breaking [py "merge"])))))
  = false.
Proof. vm_compute. repeat split. Qed.

(** C4, counterexample: without a release branch the guard fails, after
    both fetches have run and have changed the repository. *)
Lemma C4_counterexample_fetch_first :
  fst (main 5 false (Sim.world_of Sim.repo_without_branch))
  = Raise (StandardError (missing_branch_message (py "v1.4.0"))) /\
  trace (snd (main 5 false (Sim.world_of Sim.repo_without_branch)))
  = [Cmd.rev_parse_head; Cmd.remote_v;
     Cmd.fetch_master (py "upstream"); Cmd.fetch_tags (py "upstream");
     Cmd.abbrev_ref; Cmd.verify_branch; Cmd.describe_master] /\
  Sim.fetched (repo (snd (main 5 false (Sim.world_of Sim.repo_without_branch))))
  = [[py "upstream"; py "master"]; [py "--tags"; py "upstream"]] /\
  Sim.fetched (repo (Sim.world_of Sim.repo_without_branch)) = [].
Proof. vm_compute. repeat split. Qed.

(** ** The theorems at concrete inputs *)

Lemma C1_visible_files_rewritten_witness :
  existsb hidden ([py "test"] ++ [py "all.py"]) = false /\
  FS.lookup ([py "test"] ++ [py "all.py"]) (Dir Sim.source)
  = Some (File (py "import analytics")) /\
  exists w',
    create_segmentio_branded_package 5 None Sim.world_cleared = (Ok tt, w') /\
    FS.lookup (py "segmentio" :: [py "test"] ++ [py "all.py"]) (fs w')
    = Some (File (py "import segmentio")).
Proof.
  split; [reflexivity|]. split; [reflexivity|].
  destruct (C1_visible_files_rewritten
              Sim.world_cleared 5 Sim.source [py "test"] (py "all.py")
              (py "import analytics")) as [(w' & H1 & H2) _].
  - reflexivity.
  - apply leb_le_true. reflexivity.
  - reflexivity.
  - reflexivity.
  - reflexivity.
  - reflexivity.
  - exists w'. split; [exact H1 | exact H2].
Defined.

Lemma C2_rollback_then_reraise_witness :
  rebuild_through_commit
    5 (at_rebuild false (Sim.world_of (Sim.breaking [py "add"])))
  = (Raise (CalledProcessError 1 Cmd.add_segmentio),
     snd (rebuild_through_commit
            5 (at_rebuild false (Sim.world_of (Sim.breaking [py "add"]))))) /\
  fst (main 5 false (Sim.world_of (Sim.breaking [py "add"])))
  = Raise (CalledProcessError 1 Cmd.add_segmentio) /\
  Sim.head (repo (snd (main 5 false (Sim.world_of (Sim.breaking [py "add"])))))
  = py "c0ffee".
Proof.
  pose (w := Sim.world_of (Sim.breaking [py "add"])).
  assert (rebuild_through_commit 5 (at_rebuild false w)
          = (Raise (CalledProcessError 1 Cmd.add_segmentio),
             snd (rebuild_through_commit 5 (at_rebuild false w)))) as H6
      by (vm_compute; reflexivity).
  split; [exact H6|].
  destruct (C2_rollback_then_reraise
              w (at_sync w) (at_guard w) (at_tags w) (at_merge w)
              (at_rebuild false w)
              (snd (rebuild_through_commit 5 (at_rebuild false w)))
              5 false (py "c0ffee") (py "v1.3.0") (py "v1.4.0")
              (CalledProcessError 1 Cmd.add_segmentio)) as (_ & _ & Hmain).
  - vm_compute; reflexivity.
  - vm_compute; reflexivity.
  - vm_compute; reflexivity.
  - vm_compute; reflexivity.
  - vm_compute; reflexivity.
  - exact H6.
  - fold w. rewrite Hmain. vm_compute. split; reflexivity.
Defined.

Lemma C3_merge_failure_propagates_witness :
  Py.eqb (py "v1.3.0") (py "v1.4.0") = false /\
  fst (main 5 false (Sim.world_of (Sim.breaking [py "merge"])))
  = Raise (CalledProcessError 1 (Cmd.merge (py "v1.4.0"))).
Proof.
  split; [reflexivity|].
  pose (w := Sim.world_of (Sim.breaking [py "merge"])).
  destruct (C3_merge_failure_propagates
              w (at_sync w) (at_guard w) (at_tags w) (at_merge w)
              (snd (merge_tagged_version
                      (py "v1.4.0")
                      (logged INFO (py "merge most recent tagged version")
                              (at_merge w))))
              5 (py "c0ffee") (py "v1.3.0") (py "v1.4.0")
              (CalledProcessError 1 (Cmd.merge (py "v1.4.0")))) as [Hmain _].
  - vm_compute; reflexivity.
  - vm_compute; reflexivity.
  - vm_compute; reflexivity.
  - vm_compute; reflexivity.
  - reflexivity.
  - vm_compute; reflexivity.
  - fold w. rewrite Hmain. reflexivity.
Defined.

Lemma C4_guard_fails_after_fetch_witness :
  status Cmd.verify_branch
         (after Cmd.abbrev_ref
                (logged INFO (py "checkout segmentio branded branch")
                        (at_guard (Sim.world_of Sim.repo_without_branch))))
  <> 0%Z /\
  fst (main 5 false (Sim.world_of Sim.repo_without_branch))
  = Raise (StandardError (missing_branch_message (py "v1.4.0"))).
Proof.
  pose (w := Sim.world_of Sim.repo_without_branch).
  assert (status Cmd.verify_branch
            (after Cmd.abbrev_ref
                   (logged INFO (py "checkout segmentio branded branch")
                           (at_guard w))) <> 0%Z) as Hv
      by (vm_compute; discriminate).
  split; [exact Hv|].
  destruct (C4_guard_fails_after_fetch
              w (at_sync w) (at_guard w) 5 false (py "c0ffee")) as [Hmain _].
  - vm_compute; reflexivity.
  - vm_compute; reflexivity.
  - vm_compute; reflexivity.
  - vm_compute; reflexivity.
  - exact Hv.
  - fold w. rewrite Hmain. vm_compute. reflexivity.
Defined.

Lemma C5_up_to_date_exits_zero_witness :
  compare_tags (at_tags (Sim.world_of Sim.repo_up_to_date))
  = (Ok (py "v1.4.0", py "v1.4.0"), at_merge (Sim.world_of Sim.repo_up_to_date)) /\
  exit_status (fst (main 5 false (Sim.world_of Sim.repo_up_to_date))) = 0%Z.
Proof.
  pose (w := Sim.world_of Sim.repo_up_to_date).
  assert (compare_tags (at_tags w)
          = (Ok (py "v1.4.0", py "v1.4.0"), at_merge w)) as H4
      by (vm_compute; reflexivity).
  split; [exact H4|].
  destruct (C5_up_to_date_exits_zero
              w (at_sync w) (at_guard w) (at_tags w) (at_merge w)
              5 (py "c0ffee") (py "v1.4.0") (py "v1.4.0")) as (_ & Hexit & _).
  - vm_compute; reflexivity.
  - vm_compute; reflexivity.
  - vm_compute; reflexivity.
  - exact H4.
  - reflexivity.
  - exact Hexit.
Defined.

Lemma C6_target_regenerated_witness :
  release_merge false (py "v1.3.0") (py "v1.4.0") (at_merge Sim.world0)
  = (Ok tt, at_rebuild false Sim.world0) /\
  fs (at_rebuild false Sim.world0) = Sim.tree0 /\
  FS.at_path (py "segmentio") (fs (at_rebuild false Sim.world0))
  = Some (Dir Sim.stale) /\
  rebuild_through_commit 5 (at_rebuild false Sim.world0)
  = rebuild_through_commit
      5 (World Sim.tree_cleared (repo (at_rebuild false Sim.world0))
               (trace (at_rebuild false Sim.world0))
               (log (at_rebuild false Sim.world0))) /\
  exists wr,
    create_segmentio_branded_package
      5 None
      (logged INFO (py "generate segmentio package")
              (snd (clobber (at_rebuild false Sim.world0))))
    = (Ok tt, wr) /\
    FS.at_path (py "segmentio") (fs wr) = Some (Dir (mirror Sim.source)).
Proof.
  pose (w := Sim.world0).
  assert (release_merge false (py "v1.3.0") (py "v1.4.0") (at_merge w)
          = (Ok tt, at_rebuild false w)) as H5 by (vm_compute; reflexivity).
  split; [exact H5|]. split; [reflexivity|]. split; [reflexivity|].
  destruct (C6_target_regenerated
              w (at_sync w) (at_guard w) (at_tags w) (at_merge w)
              (at_rebuild false w) 5 false
              (py "c0ffee") (py "v1.3.0") (py "v1.4.0")
              [ (py "analytics", Dir Sim.source);
                (py "segmentio", Dir Sim.stale);
                (py "setup.py", File Sim.setup_py) ])
    as (_ & Hc & _ & _ & _ & Hsame & Hmirror).
  - vm_compute; reflexivity.
  - vm_compute; reflexivity.
  - vm_compute; reflexivity.
  - vm_compute; reflexivity.
  - exact H5.
  - reflexivity.
  - intros c. vm_compute. discriminate.
  - split.
    + symmetry.
      apply (Hsame [ (py "analytics", Dir Sim.source);
                     (py "segmentio", Dir []);
                     (py "setup.py", File Sim.setup_py) ]).
      * intros c. vm_compute. discriminate.
      * reflexivity.
    + destruct (Hmirror Sim.source) as (wr & Hrun & Htgt & _).
      * reflexivity.
      * apply leb_le_true. reflexivity.
      * reflexivity.
      * exists wr. fold w. rewrite Hc. split; [exact Hrun | exact Htgt].
Defined.

Lemma C7_metadata_rewriter_witness :
  FS.at_path (py "setup.py") (fs Sim.world0) = Some (File Sim.setup_py) /\
  exists t',
    refactor_setup_with_segmentio_branding Sim.world0
    = (Ok tt, World t' (repo Sim.world0) (trace Sim.world0) (log Sim.world0)) /\
    FS.at_path (py "setup.py") t'
    = Some (File (py "setup(name='segmentio', test_suite='segmentio.test.all')")).
Proof.
  split; [reflexivity|].
  destruct (C7_metadata_rewriter Sim.repo _ Sim.world0 Sim.setup_py)
    as [(t' & H1 & H2 & _) _].
  - reflexivity.
  - exists t'. split; [exact H1|]. rewrite H2. vm_compute. reflexivity.
Defined.

Lemma C8_rewrite_deterministic_witness :
  FS.at_path (py "analytics") (fs Sim.world_cleared) = Some (Dir Sim.source) /\
  exists wa' wb',
    create_segmentio_branded_package 5 None Sim.world_cleared = (Ok tt, wa') /\
    create_segmentio_branded_package
      7 None (World Sim.tree_cleared Sim.repo_on_release [[py "git"]] [])
    = (Ok tt, wb') /\
    FS.at_path (py "segmentio") (fs wa') = FS.at_path (py "segmentio") (fs wb').
Proof.
  split; [reflexivity|].
  destruct (C8_rewrite_deterministic
              Sim.world_cleared
              (World Sim.tree_cleared Sim.repo_on_release [[py "git"]] [])
              5 7 Sim.source) as (wa' & wb' & H1 & H2 & H3 & _).
  - reflexivity.
  - apply leb_le_true. reflexivity.
  - apply leb_le_true. reflexivity.
  - reflexivity.
  - reflexivity.
  - reflexivity.
  - reflexivity.
  - exists wa', wb'. split; [exact H1|]. split; [exact H2 | exact H3].
Defined.

Lemma C10_hidden_entries_skipped_witness :
  hidden (py ".hidden.py") = true /\
  FS.lookup ([py "test"] ++ [py ".hidden.py"]) (Dir Sim.source)
  = Some (File (py "import analytics")) /\
  exists w',
    create_segmentio_branded_package 5 None Sim.world_cleared = (Ok tt, w') /\
    FS.lookup (py "segmentio" :: [py "test"] ++ [py ".hidden.py"]) (fs w') = None.
Proof.
  split; [reflexivity|]. split; [reflexivity|].
  destruct (C10_hidden_entries_skipped
              Sim.world_cleared 5 Sim.source [py "test"] (py ".hidden.py")
              (File (py "import analytics"))) as (w' & H1 & H2).
  - reflexivity.
  - apply leb_le_true. reflexivity.
  - reflexivity.
  - reflexivity.
  - reflexivity.
  - reflexivity.
  - exists w'. split; [exact H1 | exact (H2 [])].
Defined.


(** * Further properties of the script *)

(** ** The remote resolver *)

Lemma span_name_app (u : str) (d : ascii) (v : str) :
  forallb is_name_char u = true -> is_name_char d = false ->
  span_name (u ++ d :: v) = (u, d :: v).
Proof.
  intros Hu Hd. induction u as [|c u IH]; cbn [app span_name].
  - rewrite Hd. reflexivity.
  - cbn [forallb] in Hu. apply andb_true_iff in Hu as [Hc Hu].
    rewrite Hc, (IH Hu). reflexivity.
Qed.

Lemma span_name_spec (s a b : str) :
  span_name s = (a, b) ->
  s = a ++ b /\ forallb is_name_char a = true.
Proof.
  revert a b. induction s as [|c s IH]; intros a b; cbn [span_name].
  - intros H. inversion H; subst. split; reflexivity.
  - destruct (is_name_char c) eqn:Hc.
    + destruct (span_name s) as [a' b'] eqn:E. intros H. inversion H; subst.
      destruct (IH a' b eq_refl) as [-> Ha]. split; [reflexivity|].
      cbn [forallb]. rewrite Hc, Ha. reflexivity.
    + intros H. inversion H; subst. split; reflexivity.
Qed.

Lemma tab_not_name : is_name_char (ascii_of_nat 9) = false.
Proof. reflexivity. Qed.

Lemma match_remote_here_app (n rest : str) :
  forallb is_name_char n = true ->
  match_remote_here (n ++ fetch_line_tail ++ rest) = Some (n, segment_url).
Proof.
  intros Hn. unfold match_remote_here.
  change (fetch_line_tail ++ rest)
    with (ascii_of_nat 9 :: (segment_url ++ py " (fetch)") ++ rest).
  rewrite (span_name_app n _ _ Hn tab_not_name).
  change (ascii_of_nat 9 :: (segment_url ++ py " (fetch)") ++ rest)
    with (fetch_line_tail ++ rest).
  change (tab ++ segment_url ++ py " (fetch)") with fetch_line_tail.
  rewrite startswith_app. reflexivity.
Qed.

Lemma match_remote_here_some (s n u : str) :
  match_remote_here s = Some (n, u) ->
  u = segment_url /\ forallb is_name_char n = true /\
  exists rest, s = n ++ fetch_line_tail ++ rest.
Proof.
  unfold match_remote_here. destruct (span_name s) as [a b] eqn:E.
  apply span_name_spec in E as [-> Ha].
  change (tab ++ segment_url ++ py " (fetch)") with fetch_line_tail.
  destruct (Py.startswith b fetch_line_tail) eqn:Hb; [|discriminate].
  intros H. inversion H; subst. split; [reflexivity|]. split; [exact Ha|].
  apply startswith_iff in Hb as [rest ->]. exists rest. reflexivity.
Qed.

Lemma re_search_remote_some (s n u : str) :
  re_search_remote s = Some (n, u) ->
  u = segment_url /\ forallb is_name_char n = true /\
  occurs (n ++ fetch_line_tail) s.
Proof.
  induction s as [|c s IH]; cbn [re_search_remote].
  - destruct (match_remote_here []) as [[n' u']|] eqn:E; [|discriminate].
    intros H. inversion H; subst.
    apply match_remote_here_some in E as (-> & Hn & rest & E).
    split; [reflexivity|]. split; [exact Hn|].
    exists [], rest. cbn [app]. rewrite <- app_assoc. exact E.
  - destruct (match_remote_here (c :: s)) as [[n' u']|] eqn:E.
    + intros H. inversion H; subst.
      apply match_remote_here_some in E as (-> & Hn & rest & E).
      split; [reflexivity|]. split; [exact Hn|].
      exists [], rest. cbn [app]. rewrite <- app_assoc. exact E.
    + intros H. destruct (IH H) as (Hu & Hn & O).
      split; [exact Hu|]. split; [exact Hn|].
      apply (occurs_app_r _ [c] _) in O. exact O.
Qed.

Lemma re_search_remote_none (s : str) :
  re_search_remote s = None <-> ~ occurs fetch_line_tail s.
Proof.
  split.
  - induction s as [|c s IH]; cbn [re_search_remote].
    + intros _ O. apply occurs_nil in O. discriminate.
    + destruct (match_remote_here (c :: s)) as [g|] eqn:E; [discriminate|].
      intros H O. destruct O as [[|x a] [b Eq]].
      * pose proof (match_remote_here_app [] b eq_refl) as M.
        cbn [app] in M, Eq. rewrite <- Eq in M. congruence.
      * inversion Eq; subst. apply (IH H). exists a, b. reflexivity.
  - intros H. destruct (re_search_remote s) as [[n u]|] eqn:E; [|reflexivity].
    exfalso. apply H. apply re_search_remote_some in E as (_ & _ & a & b & E).
    exists (a ++ n), b. rewrite E, <- !app_assoc. reflexivity.
Qed.

Lemma resolver_run (R : Type) (collab : Collaborator R) (w : world R) :
  status Cmd.remote_v w = 0%Z ->
  get_segmentio_analytics_python_remote w
  = (match re_search_remote (stdout Cmd.remote_v w) with
     | None => Raise (ValueError (py "could not find segment remote"))
     | Some (name, url) => Ok (name, url)
     end, after Cmd.remote_v w).
Proof.
  intros Hs. unfold get_segmentio_analytics_python_remote, bind.
  rewrite check_output_git.
  change (status _ w) with (status Cmd.remote_v w). rewrite Hs.
  change (0 =? 0)%Z with true. cbv iota.
  change (stdout _ w) with (stdout Cmd.remote_v w).
  destruct (re_search_remote (stdout Cmd.remote_v w)) as [[n u]|]; reflexivity.
Qed.

(** X1.  Once [git remote -v] has succeeded, the resolver fails with
    [ValueError] exactly when its output nowhere holds a tab, the upstream
    address and [ (fetch)]; otherwise it returns the upstream address with
    a name made of letters and underscores that stands right before them
    in the output.  One command has been run either way. *)
Theorem X1_remote_found_iff_line_present
        (R : Type) (collab : Collaborator R) (w : world R) :
  status Cmd.remote_v w = 0%Z ->
  (~ occurs fetch_line_tail (stdout Cmd.remote_v w) ->
   get_segmentio_analytics_python_remote w
   = (Raise (ValueError (py "could not find segment remote")),
      after Cmd.remote_v w)) /\
  (occurs fetch_line_tail (stdout Cmd.remote_v w) ->
   exists name,
     get_segmentio_analytics_python_remote w
     = (Ok (name, segment_url), after Cmd.remote_v w) /\
     forallb is_name_char name = true /\
     occurs (name ++ fetch_line_tail) (stdout Cmd.remote_v w)).
Proof.
  intros Hs. pose proof (resolver_run R collab w Hs) as Hrun.
  split; intros H.
  - apply re_search_remote_none in H. rewrite Hrun, H. reflexivity.
  - destruct (re_search_remote (stdout Cmd.remote_v w)) as [[n u]|] eqn:E.
    + apply re_search_remote_some in E as (-> & Hn & O).
      exists n. rewrite Hrun. auto.
    + apply re_search_remote_none in E. contradiction.
Qed.

Lemma re_search_remote_here (s : str) (g : str * str) :
  match_remote_here s = Some g -> re_search_remote s = Some g.
Proof. intros H. destruct s; cbn [re_search_remote]; rewrite H; reflexivity. Qed.

Lemma name_run_stops (q : str) :
  (exists p c, q = p ++ [c] /\ is_name_char c = false) ->
  exists u d v, q = u ++ d :: v /\ forallb is_name_char u = true /\
                is_name_char d = false /\ In d q.
Proof.
  induction q as [|x q IH]; intros (p & c & E & Hc).
  - destruct p; discriminate.
  - destruct (is_name_char x) eqn:Hx.
    + destruct p as [|y p].
      * cbn [app] in E. injection E as Ex Eq. subst c. congruence.
      * cbn [app] in E. injection E as Ex Eq. subst y q.
        destruct IH as (u & d & v & E' & Hu & Hd & Hin); [exists p, c; auto|].
        exists (x :: u), d, v. rewrite E'. cbn [forallb]. rewrite Hx, Hu.
        repeat split; auto. right. rewrite <- E'. exact Hin.
    + exists [], x, q. repeat split; auto. left. reflexivity.
Qed.

(** Text without a tab that is empty or ends in a character that cannot
    be part of a name holds no match and does not disturb the search. *)
Lemma re_search_remote_skip (pre t : str) :
  forallb (fun c => negb (Ascii.eqb c (ascii_of_nat 9))) pre = true ->
  (pre = [] \/ exists p c, pre = p ++ [c] /\ is_name_char c = false) ->
  re_search_remote (pre ++ t) = re_search_remote t.
Proof.
  induction pre as [|x pre IH]; intros Hnt Hend; [reflexivity|].
  destruct Hend as [? | (p & c & E & Hc)]; [discriminate|].
  destruct (name_run_stops (x :: pre)) as (u & d & v & E' & Hu & Hd & Hin);
    [exists p, c; auto|].
  assert (match_remote_here ((x :: pre) ++ t) = None) as Hm.
  { rewrite E', <- app_assoc. cbn [app]. unfold match_remote_here.
    rewrite (span_name_app u d (v ++ t) Hu Hd).
    change (tab ++ segment_url ++ py " (fetch)")
      with (ascii_of_nat 9 :: segment_url ++ py " (fetch)").
    cbn [Py.startswith].
    rewrite forallb_forall in Hnt. specialize (Hnt d Hin).
    apply negb_true_iff in Hnt. rewrite Ascii.eqb_sym, Hnt. reflexivity. }
  change ((x :: pre) ++ t) with (x :: (pre ++ t)) in Hm |- *.
  cbn [re_search_remote]. rewrite Hm. apply IH.
  - cbn [forallb] in Hnt. apply andb_true_iff in Hnt. tauto.
  - destruct p as [|y p]; cbn [app] in E; inversion E; subst; [left; reflexivity|].
    right. exists p, c. auto.
Qed.

(** X2.  The name the resolver returns is the run of letters and
    underscores right before the tab of the first upstream fetch line: when
    the text before that run holds no tab and is empty or ends in another
    character, the run is the name, whatever the full name of the remote
    is (of a remote called [my-remote] the resolver returns [remote]). *)
Theorem X2_remote_name_is_letter_run
        (R : Type) (collab : Collaborator R) (w : world R)
        (pre name post : str) :
  status Cmd.remote_v w = 0%Z ->
  stdout Cmd.remote_v w = pre ++ name ++ fetch_line_tail ++ post ->
  forallb (fun c => negb (Ascii.eqb c (ascii_of_nat 9))) pre = true ->
  (pre = [] \/ exists p c, pre = p ++ [c] /\ is_name_char c = false) ->
  forallb is_name_char name = true ->
  get_segmentio_analytics_python_remote w
  = (Ok (name, segment_url), after Cmd.remote_v w).
Proof.
  intros Hs Hout Hnt Hend Hn.
  rewrite (resolver_run R collab w Hs).
  rewrite Hout, (re_search_remote_skip pre _ Hnt Hend).
  rewrite (re_search_remote_here _ _ (match_remote_here_app name post Hn)).
  reflexivity.
Qed.

(** X3.  When no configured remote is the upstream repository, the main
    program ends with [ValueError] after two commands, the query of the
    starting commit and the listing of the remotes: nothing has been
    fetched, checked out, merged or committed. *)
Theorem X3_missing_remote_stops_the_run
        (R : Type) (collab : Collaborator R) (w w1 : world R)
        (depth : nat) (skip : bool) (sc : str) :
  record_start w = (Ok sc, w1) ->
  let wa := logged INFO (py "fetching from segmentio/analytics-python") w1 in
  status Cmd.remote_v wa = 0%Z ->
  ~ occurs fetch_line_tail (stdout Cmd.remote_v wa) ->
  main depth skip w
  = (Raise (ValueError (py "could not find segment remote")),
     after Cmd.remote_v wa) /\
  trace (after Cmd.remote_v wa) = trace w ++ [Cmd.rev_parse_head; Cmd.remote_v].
Proof.
  intros H1 wa Hs Hno. split.
  - unfold main. rewrite (bind_ok _ _ w w1 sc H1).
    unfold bind at 1. unfold sync.
    unfold bind at 1. unfold logging_info. rewrite logging_run. fold wa.
    unfold fetch_master_from_segmentio_analytics_python. unfold bind at 1.
    rewrite (resolver_run R collab wa Hs).
    apply re_search_remote_none in Hno. rewrite Hno. reflexivity.
  - apply record_start_ok in H1 as [_ T1].
    rewrite trace_after. subst wa. rewrite trace_logged, T1, <- app_assoc.
    reflexivity.
Qed.

(** ** The branch guard and the tag comparator *)

(** X4.  Whatever the repository answers, the branch guard runs one of
    three command sequences: the branch query alone; the query, the
    verification of the release branch and [git describe master], after
    which it always raises; or the query, the verification and the
    checkout of the release branch.  It never creates a branch. *)
Theorem X4_guard_runs_queries_and_checkout_only
        (R : Type) (collab : Collaborator R) (w : world R) :
  trace (snd (checkout_segmentio_branded_branch w))
  = trace w ++ [Cmd.abbrev_ref] \/
  (trace (snd (checkout_segmentio_branded_branch w))
   = trace w ++ [Cmd.abbrev_ref; Cmd.verify_branch; Cmd.describe_master] /\
   exists e, fst (checkout_segmentio_branded_branch w) = Raise e) \/
  trace (snd (checkout_segmentio_branded_branch w))
  = trace w ++ [Cmd.abbrev_ref; Cmd.verify_branch; Cmd.checkout_branch].
Proof.
  remember (checkout_segmentio_branded_branch w) as res eqn:E. revert E.
  unfold checkout_segmentio_branded_branch, bind at 1.
  rewrite check_output_git.
  destruct (status _ w =? 0)%Z; [|intros ->; left; reflexivity].
  destruct (Py.eqb fixed_branch _); cbn [negb]; [intros ->; left; reflexivity|].
  unfold bind at 1. rewrite call_git.
  destruct (status _ _ =? 0)%Z; cbn [negb].
  - unfold bind, ret. rewrite check_call_git. intros ->. right. right.
    cbn [snd]. rewrite !trace_after, <- !app_assoc. reflexivity.
  - unfold bind. rewrite check_output_git.
    destruct (status _ _ =? 0)%Z; intros ->; right; left; unfold raise;
      cbn [fst snd];
      (split; [rewrite !trace_after, <- !app_assoc; reflexivity | eauto]).
Qed.

Lemma lstrip_split (r : str) :
  exists ws, r = ws ++ Py.lstrip r /\ forallb Py.is_space ws = true /\
             (Py.lstrip r = [] \/
              exists c t, Py.lstrip r = c :: t /\ Py.is_space c = false).
Proof.
  induction r as [|c r IH]; cbn [Py.lstrip].
  - exists []. auto.
  - destruct (Py.is_space c) eqn:E.
    + destruct IH as (ws & E1 & E2 & E3). exists (c :: ws).
      cbn [app forallb]. rewrite <- E1, E, E2. auto.
    + exists []. split; [reflexivity|]. split; [reflexivity|].
      right. exists c, r. auto.
Qed.

(** [rstrip] removes a run of whitespace at the end and leaves none. *)
Lemma rstrip_spec (s : str) :
  exists ws, s = Py.rstrip s ++ ws /\ forallb Py.is_space ws = true /\
             (Py.rstrip s = [] \/
              exists p c, Py.rstrip s = p ++ [c] /\ Py.is_space c = false).
Proof.
  unfold Py.rstrip. destruct (lstrip_split (rev s)) as (ws & E1 & E2 & E3).
  exists (rev ws). split; [|split].
  - rewrite <- rev_app_distr, <- E1, rev_involutive. reflexivity.
  - rewrite forallb_forall in E2 |- *. intros c Hc. apply E2, in_rev, Hc.
  - destruct E3 as [-> | (c & t & -> & Hc)]; [left; reflexivity|].
    right. exists (rev t), c. auto.
Qed.

(** X5.  When both [describe] queries succeed, the tag comparator returns
    the current tag and then the most recent tag, each being the output of
    its query without the whitespace at its end (the final newline of git
    among it), so neither tag ends in whitespace; it logs the two tags and,
    exactly when they are equal, that the version is up to date. *)
Theorem X5_tags_are_stripped_outputs
        (R : Type) (collab : Collaborator R) (w w' : world R) (ct mrt : str) :
  get_most_recent_tag w = (Ok (ct, mrt), w') ->
  (exists a b,
      stdout Cmd.describe_master w = mrt ++ a /\
      stdout Cmd.describe_tags (after Cmd.describe_master w) = ct ++ b /\
      forallb Py.is_space a = true /\ forallb Py.is_space b = true) /\
  (mrt = [] \/ exists p c, mrt = p ++ [c] /\ Py.is_space c = false) /\
  (ct = [] \/ exists p c, ct = p ++ [c] /\ Py.is_space c = false) /\
  trace w' = trace w ++ [Cmd.describe_master; Cmd.describe_tags] /\
  log w' = log w ++ [(DEBUG, py "current_local_tag: " ++ ct);
                     (DEBUG, py "most_recent_tag: " ++ mrt)]
                 ++ (if Py.eqb ct mrt
                     then [(INFO, py "version up-to-date with analytics-python Release")]
                     else []).
Proof.
  unfold get_most_recent_tag, bind at 1.
  rewrite check_output_git.
  destruct (status _ w =? 0)%Z; [|discriminate].
  unfold bind at 1. rewrite check_output_git.
  destruct (status _ _ =? 0)%Z; [|discriminate].
  change (stdout _ w) with (stdout Cmd.describe_master w).
  change (after _ w) with (after Cmd.describe_master w).
  change (stdout _ (after Cmd.describe_master w))
    with (stdout Cmd.describe_tags (after Cmd.describe_master w)).
  set (o1 := stdout Cmd.describe_master w).
  set (o2 := stdout Cmd.describe_tags (after Cmd.describe_master w)).
  unfold bind, logging_debug, logging_info. rewrite !logging_run.
  destruct (rstrip_spec o1) as (a & Ea & Ha & Hm).
  destruct (rstrip_spec o2) as (b & Eb & Hb & Hc).
  destruct (Py.eqb (Py.rstrip o2) (Py.rstrip o1)) eqn:E;
    rewrite ?logging_run; unfold ret; intros H;
    injection H as Hct Hmrt Hw; subst ct mrt w'; rewrite E;
    (split; [exists a, b; auto|]); (split; [exact Hm|]); (split; [exact Hc|]);
    (split; [rewrite ?trace_logged, !trace_after, <- !app_assoc; reflexivity|]);
    cbn [log logged after]; rewrite <- ?app_assoc; reflexivity.
Qed.

(** ** What the rewriter runs *)

Section Quiet.

Context {R : Type} {collab : Collaborator R}.

Lemma quiet_still {A} (m : M R A) :
  (forall w, repo (snd (m w)) = repo w /\ trace (snd (m w)) = trace w) ->
  quiet R m.
Proof.
  intros H w. destruct (H w) as [H1 H2]. split; [exact H1|].
  exists []. rewrite app_nil_r. split; [exact H2 | constructor].
Qed.

Lemma quiet_bind {A B} (m : M R A) (k : A -> M R B) :
  quiet R m -> (forall a, quiet R (k a)) -> quiet R (bind m k).
Proof.
  intros Hm Hk w. unfold bind.
  destruct (Hm w) as (Hr & T & Ht & Hd).
  destruct (m w) as [[a|e] w1]; cbn [snd] in Hr, Ht.
  - destruct (Hk a w1) as (Hr' & T' & Ht' & Hd').
    split; [congruence|]. exists (T ++ T').
    rewrite Ht', Ht, app_assoc. split; [reflexivity | apply Forall_app; auto].
  - cbn [snd]. split; [exact Hr|]. exists T. auto.
Qed.

Lemma quiet_for_each {A} (l : list A) (body : A -> M R unit) :
  (forall x, quiet R (body x)) -> quiet R (for_each l body).
Proof.
  intros H. induction l as [|x l IH]; cbn [for_each].
  - apply quiet_still. intros w. split; reflexivity.
  - apply quiet_bind; [apply H | intros; exact IH].
Qed.

Ltac still :=
  apply quiet_still; intros w;
  repeat match goal with
         | |- context [match ?x with _ => _ end] => destruct x
         | |- context [if ?b then _ else _] => destruct b
         end;
  split; reflexivity.

Lemma quiet_logging (l : level) (msg : str) : quiet R (logging l msg).
Proof. still. Qed.

Lemma quiet_os_path_isdir (p : str) : quiet R (os_path_isdir p).
Proof. still. Qed.

Lemma quiet_read_file (p : str) : quiet R (read_file p).
Proof. unfold read_file, bind, get_fs, ret, raise. still. Qed.

Lemma quiet_write_file (p c : str) : quiet R (write_file p c).
Proof. unfold write_file, bind, get_fs, set_fs, raise. still. Qed.

Lemma quiet_os_mkdir (p : str) : quiet R (os_mkdir p).
Proof. unfold os_mkdir, bind, get_fs, set_fs, raise. still. Qed.


Lemma quiet_shutil_copyfile (a b : str) : quiet R (shutil_copyfile a b).
Proof.
  unfold shutil_copyfile. destruct (Py.list_eqb _ _).
  - apply quiet_still. intros w. split; reflexivity.
  - apply quiet_bind; [apply quiet_read_file | intros; apply quiet_write_file].
Qed.

Lemma quiet_glob (p : str) : quiet R (glob p).
Proof.
  unfold glob. destruct (Py.os_path_split p) as [d b].
  unfold bind, get_fs, ret. still.
Qed.

Lemma quiet_call_diff (a b : str) : quiet R (call [py "diff"; py "-q"; a; b]).
Proof.
  intros w. rewrite call_diff. cbn [snd repo trace]. split; [reflexivity|].
  eexists. split; [reflexivity|]. constructor; [|constructor].
  exists a, b. reflexivity.
Qed.

Lemma quiet_package_entry (recurse : list str -> M R unit)
      (rel : list str) (filepath : str) :
  (forall r, quiet R (recurse r)) -> quiet R (package_entry recurse rel filepath).
Proof.
  intros H. unfold package_entry.
  apply quiet_bind; [apply quiet_os_path_isdir|]. intros [|].
  - apply quiet_bind; [apply quiet_os_mkdir | intros; apply H].
  - destruct (Py.endswith filepath (py ".py")).
    + apply quiet_bind; [apply quiet_read_file | intros].
      apply quiet_bind; [apply quiet_write_file | intros].
      apply quiet_bind; [apply quiet_call_diff | intros; apply quiet_logging].
    + apply quiet_bind; [apply quiet_logging | intros; apply quiet_shutil_copyfile].
Qed.

Lemma quiet_create_rec (depth : nat) (rel : list str) :
  quiet R (create_segmentio_branded_package_rec depth rel).
Proof.
  revert rel. induction depth as [|d IH]; intros rel;
    cbn [create_segmentio_branded_package_rec].
  - apply quiet_still. intros w. split; reflexivity.
  - apply quiet_bind; [apply quiet_glob | intros].
    apply quiet_for_each. intros x. apply quiet_package_entry, IH.
Qed.

End Quiet.

(** X6.  Whatever the working directory holds and whether or not it
    fails, the namespace rewriter leaves the state of the repository as it
    is and starts no process but [diff -q]: it never runs git. *)
Theorem X6_rewriter_never_runs_git
        (R : Type) (collab : Collaborator R)
        (depth : nat) (rel_path : option (list str)) (w : world R) :
  repo (snd (create_segmentio_branded_package depth rel_path w)) = repo w /\
  exists T,
    trace (snd (create_segmentio_branded_package depth rel_path w))
    = trace w ++ T /\
    Forall is_diff T.
Proof.
  unfold create_segmentio_branded_package. apply quiet_create_rec.
Qed.

(** ** Edge cases of the rewriter *)

Section Rewriter_edges.

Context {R : Type} {collab : Collaborator R}.

Local Abbreviation an := (py "analytics").
Local Abbreviation seg := (py "segmentio").
Local Abbreviation plains := (Forall (fun x => plain x = true)).

(** X8.  When [analytics] is missing or is not a directory, the listing
    is empty: the rewriter returns without an error and leaves the world
    as it found it, so the target package stays empty. *)
Theorem X8_missing_source_is_no_error (depth : nat) (w : world R) :
  (forall es, FS.at_path an (fs w) <> Some (Dir es)) ->
  create_segmentio_branded_package (S depth) None w = (Ok tt, w).
Proof.
  intros H. unfold create_segmentio_branded_package.
  cbn [create_segmentio_branded_package_rec].
  change (Py.os_path_join ([an] ++ [py ""] ++ [py "*"])) with (py "analytics/*").
  unfold glob.
  change (Py.os_path_split (py "analytics/*")) with (an, py "*").
  unfold bind, get_fs. change (Py.eqb (py "*") (py "*")) with true. cbv iota.
  destruct (FS.at_path an (fs w)) as [[c|es]|] eqn:E; try reflexivity.
  exfalso. exact (H es eq_refl).
Qed.

Lemma assoc_hidden_prefix (x : str) (m : node) (H rest : list (str * node)) :
  forallb hidden (map fst H) = true -> hidden x = false ->
  FS.assoc x (H ++ (x, m) :: rest) = Some m.
Proof.
  intros HH Hx. apply assoc_app_notin. intros Hin.
  rewrite forallb_forall in HH. specialize (HH x Hin). congruence.
Qed.

Lemma filter_hidden_prefix (x : str) (H rest : list str) :
  forallb hidden H = true -> hidden x = false ->
  filter (fun name => negb (hidden name)) (H ++ x :: rest)
  = x :: filter (fun name => negb (hidden name)) rest.
Proof.
  intros HH Hx. induction H as [|y H IH]; cbn [app filter].
  - rewrite Hx. reflexivity.
  - cbn [forallb] in HH. apply andb_true_iff in HH as [Hy HH].
    rewrite Hy. cbn [negb]. apply IH, HH.
Qed.

(** X9.  The rewriter does not overwrite directories: when the first
    listed entry of [analytics] is a directory and [segmentio] already
    holds an entry of that name, [os.mkdir] fails, the rewriter raises
    [OSError] for the target path and has changed nothing.  (Hence the
    target directory is cleared before the rewriter runs.) *)
Theorem X9_existing_target_directory_fails
        (depth : nat) (w : world R) (x : str) (n : node)
        (H S rest : list (str * node)) :
  FS.at_path an (fs w) = Some (Dir (H ++ (x, Dir S) :: rest)) ->
  forallb hidden (map fst H) = true -> hidden x = false -> plain x = true ->
  FS.lookup [seg; x] (fs w) = Some n ->
  create_segmentio_branded_package (Datatypes.S depth) None w
  = (Raise (OSError (py "segmentio/" ++ x)), w).
Proof.
  intros Han HH Hx Hp Hn.
  unfold create_segmentio_branded_package.
  cbn [create_segmentio_branded_package_rec].
  change (FS.at_path an (fs w)) with (FS.lookup [an] (fs w)) in Han.
  rewrite (bind_ok _ _ w w _ (glob_listing [] _ w (Forall_nil _) Han)).
  rewrite map_app. cbn [map fst].
  rewrite (filter_hidden_prefix x _ _ HH Hx). cbn [map for_each].
  apply bind_raise.
  rewrite (os_path_join_pair [an] x ltac:(discriminate)
             ltac:(constructor; [reflexivity | constructor]) Hp).
  unfold package_entry.
  rewrite (basename_slashed [an] x ltac:(discriminate) Hp).
  match goal with
  | |- context [Py.os_path_join ?l] =>
    rewrite (os_path_join_rel seg [] x
               ltac:(constructor; [reflexivity | constructor; [exact Hp | constructor]])
             : Py.os_path_join l = slashed (seg :: [] ++ [x]))
  end.
  unfold bind at 1. unfold os_path_isdir.
  rewrite (at_path_slashed ([an] ++ [x]) (fs w))
    by (constructor; [reflexivity | constructor; [exact Hp | constructor]]).
  rewrite (lookup_app [an] [x] (fs w) _ Han). cbn [FS.lookup].
  rewrite (assoc_hidden_prefix x (Dir S) H rest HH Hx).
  apply bind_raise. unfold os_mkdir, bind, get_fs.
  rewrite (at_path_slashed (seg :: [] ++ [x]) (fs w))
    by (constructor; [reflexivity | constructor; [exact Hp | constructor]]).
  cbn [app]. rewrite Hn. reflexivity.
Qed.

End Rewriter_edges.

Section Rewriter_log.

Context {R : Type} {collab : Collaborator R}.

Local Abbreviation an := (py "analytics").
Local Abbreviation seg := (py "segmentio").
Local Abbreviation plains := (Forall (fun x => plain x = true)).

(** X10.  For a regular file the loop body writes the target file and
    logs one line that tells what happened to the contents: [refactored]
    when the written contents differ from the source, [copied] when they
    are the same, also for a [.py] file in which nothing was to be
    rewritten.  [diff -q] is run for [.py] files only. *)
Theorem X10_log_tells_refactored_from_copied
        (recurse : list str -> M R unit) (rel : list str) (x c : str)
        (E : list (str * node)) (w : world R) :
  plains rel -> plain x = true ->
  FS.lookup (an :: rel ++ [x]) (fs w) = Some (File c) ->
  FS.lookup (seg :: rel) (fs w) = Some (Dir E) ->
  FS.assoc x E = None ->
  let src := slashed (an :: rel ++ [x]) in
  let dst := slashed (seg :: rel ++ [x]) in
  let c' := if Py.endswith x (py ".py") then rewrite_imports c else c in
  exists t',
    package_entry recurse ([] :: rel) src w
    = (Ok tt,
       World t' (repo w)
             (trace w ++ (if Py.endswith x (py ".py")
                          then [[py "diff"; py "-q"; src; dst]] else []))
             (log w ++ [(DEBUG, if Py.eqb c c' then copied_message src dst
                                else refactored_message src dst)])) /\
    FS.lookup (seg :: rel ++ [x]) t' = Some (File c') /\
    FS.lookup (an :: rel ++ [x]) t' = Some (File c).
Proof.
  intros Hrel Hx Hsrc Hd0 Hfresh src dst c'. subst src dst.
  pose proof (insert_at_same (seg :: rel) (fs w) (Dir E) Hd0) as Hinv.
  assert (plains (an :: rel ++ [x])) as Pa by (apply plains_path; auto).
  assert (plains (seg :: rel ++ [x])) as Ps by (apply plains_path; auto).
  destruct (insert_at_exists (seg :: rel) (Dir (E ++ [(x, File c')]))
                             (fs w) (Dir E) Hd0) as [t' Ht'].
  assert (FS.at_path (slashed (seg :: rel ++ [x])) (fs w) = None) as Hout.
  { rewrite at_path_slashed by exact Ps.
    change (seg :: rel ++ [x]) with ((seg :: rel) ++ [x]).
    rewrite (lookup_insert_at (seg :: rel) [x] (Dir E) (fs w) (fs w));
      [|rewrite Hd0; discriminate | exact Hinv].
    cbn [FS.lookup]. rewrite Hfresh. reflexivity. }
  assert (FS.insert_at (Py.components (slashed (seg :: rel ++ [x])))
                       (File c') (fs w) = Some t') as Hins.
  { rewrite components_slashed by exact Ps.
    change (seg :: rel ++ [x]) with ((seg :: rel) ++ [x]).
    rewrite (insert_at_snoc (seg :: rel) x (File c') E (fs w) (fs w) (Dir E)
                            Hd0 Hinv).
    rewrite set_fresh by exact Hfresh. exact Ht'. }
  assert (FS.lookup (seg :: rel ++ [x]) t' = Some (File c')) as Hdst.
  { change (seg :: rel ++ [x]) with ((seg :: rel) ++ [x]).
    rewrite (lookup_insert_at (seg :: rel) [x] (Dir (E ++ [(x, File c')]))
                              (fs w) t');
      [|rewrite Hd0; discriminate | exact Ht'].
    cbn [FS.lookup]. rewrite assoc_app_fresh by exact Hfresh. reflexivity. }
  assert (FS.lookup (an :: rel ++ [x]) t' = Some (File c)) as Hsrc'.
  { rewrite (lookup_insert_at_other seg an rel (rel ++ [x])
               (Dir (E ++ [(x, File c')])) (fs w) t' seg_neq_an Ht').
    exact Hsrc. }
  exists t'. split; [|split; [exact Hdst | exact Hsrc']].
  unfold package_entry.
  rewrite (basename_rel an rel x Hx).
  repeat match goal with
         | |- context [Py.os_path_join ?l] =>
           rewrite (os_path_join_rel seg rel x Ps
                    : Py.os_path_join l = slashed (seg :: rel ++ [x]))
         end.
  unfold bind at 1. unfold os_path_isdir.
  rewrite (at_path_slashed _ _ Pa), Hsrc, endswith_py_rel.
  subst c'. destruct (Py.endswith x (py ".py")).
  - rewrite (bind_ok _ _ w w c)
      by (apply read_file_ok; rewrite (at_path_slashed _ _ Pa); exact Hsrc).
    rewrite (bind_ok _ _ w _ tt (write_file_ok _ _ w t' Hout Hins)).
    unfold bind. rewrite call_diff. cbn [fs repo trace log].
    unfold diff_status.
    rewrite (at_path_slashed _ t' Pa), Hsrc'.
    rewrite (at_path_slashed _ t' Ps), Hdst.
    unfold logging_debug, logging. cbn [fs repo trace log].
    destruct (Py.eqb c (rewrite_imports c)); reflexivity.
  - rewrite eqb_refl, (app_nil_r (trace w)). unfold bind at 1.
    unfold logging_debug, logging. unfold shutil_copyfile.
    rewrite !components_slashed by assumption.
    cbn [Py.list_eqb]. change (Py.eqb an seg) with false. cbn [andb].
    rewrite (bind_ok _ _ _ _ c)
      by (apply read_file_ok; rewrite (at_path_slashed _ _ Pa); exact Hsrc).
    rewrite (write_file_ok _ _ _ t'); [cbn [fs repo trace log]; reflexivity | exact Hout |].
    exact Hins.
Qed.

End Rewriter_log.

(** ** Rewrites that can be repeated *)

(** Some pattern of the list occurs in [c], or none does. *)
Lemma pattern_found (pats : list (str * str)) (c : str) :
  (exists o n a b, In (o, n) pats /\ c = a ++ o ++ b) \/
  (forall o n, In (o, n) pats -> ~ occurs o c).
Proof.
  induction pats as [|[o n] pats IH].
  - right. intros o n [].
  - destruct (Py.contains c o) eqn:E.
    + apply contains_iff in E as (a & b & E).
      left. exists o, n, a, b. split; [left; reflexivity | exact E].
    + destruct IH as [(o' & n' & a & b & Hin & E') | IH].
      * left. exists o', n', a, b. split; [right; exact Hin | exact E'].
      * right. intros o' n' [H | H].
        -- inversion H; subst. apply not_contains, E.
        -- exact (IH o' n' H).
Qed.

(** A function on strings is determined by what it does around an
    occurrence of a pattern and on strings without any. *)
Lemma split_rewrite_unique (pats : list (str * str)) (f g : str -> str) :
  (forall o n, In (o, n) pats -> o <> []) ->
  (forall o n a b, In (o, n) pats -> f (a ++ o ++ b) = f a ++ n ++ f b) ->
  (forall o n a b, In (o, n) pats -> g (a ++ o ++ b) = g a ++ n ++ g b) ->
  (forall c, (forall o n, In (o, n) pats -> ~ occurs o c) -> f c = c) ->
  (forall c, (forall o n, In (o, n) pats -> ~ occurs o c) -> g c = c) ->
  forall c, f c = g c.
Proof.
  intros Hne Hf Hg Hf0 Hg0 c.
  assert (forall k c, length c <= k -> f c = g c) as H;
    [|apply (H (length c)); lia].
  clear c. induction k as [|k IH]; intros c Hc.
  - destruct c; [|simpl in Hc; lia].
    rewrite Hf0, Hg0; [reflexivity | |];
      intros o n Hin O; apply occurs_nil in O; exact (Hne o n Hin O).
  - destruct (pattern_found pats c) as [(o & n & a & b & Hin & E) | Hno].
    + subst c. rewrite (Hf o n a b Hin), (Hg o n a b Hin).
      rewrite !length_app in Hc.
      assert (length o <> 0) as Ho.
      { intros L. apply (Hne o n Hin). destruct o; [reflexivity | discriminate]. }
      rewrite (IH a), (IH b) by lia. reflexivity.
    + rewrite (Hf0 c Hno), (Hg0 c Hno). reflexivity.
Qed.

Section Descriptor.

Context {R : Type} {collab : Collaborator R}.

Local Abbreviation l1 := (py "name='analytics-python'").
Local Abbreviation m1 := (py "name='segmentio'").
Local Abbreviation l2 := (py "test_suite='analytics.test.all'").
Local Abbreviation m2 := (py "test_suite='segmentio.test.all'").
Local Abbreviation l3 := (py "packages=['analytics', 'analytics.test']").
Local Abbreviation m3 := (py "packages=['segmentio', 'segmentio.test']").

Lemma branded_scans (c : str) :
  branded c
  = Py.replace_from l3 m3 0 (Py.replace_from l2 m2 0 (Py.replace_from l1 m1 0 c)).
Proof. reflexivity. Qed.

Lemma branded_name (a b : str) :
  branded (a ++ l1 ++ b) = branded a ++ m1 ++ branded b.
Proof.
  rewrite !branded_scans.
  rewrite (scan_replace_sep l1 m1 ltac:(discriminate) a b eq_refl).
  rewrite (scan_keep_sep l2 m2 ltac:(discriminate) m1 _ _ eq_refl).
  apply (scan_keep_sep l3 m3 ltac:(discriminate) m1). reflexivity.
Qed.

Lemma branded_test_suite (a b : str) :
  branded (a ++ l2 ++ b) = branded a ++ m2 ++ branded b.
Proof.
  rewrite !branded_scans.
  rewrite (scan_keep_sep l1 m1 ltac:(discriminate) l2 a b eq_refl).
  rewrite (scan_replace_sep l2 m2 ltac:(discriminate) _ _ eq_refl).
  apply (scan_keep_sep l3 m3 ltac:(discriminate) m2). reflexivity.
Qed.

Lemma branded_packages (a b : str) :
  branded (a ++ l3 ++ b) = branded a ++ m3 ++ branded b.
Proof.
  rewrite !branded_scans.
  rewrite (scan_keep_sep l1 m1 ltac:(discriminate) l3 a b eq_refl).
  rewrite (scan_keep_sep l2 m2 ltac:(discriminate) l3 _ _ eq_refl).
  apply (scan_replace_sep l3 m3 ltac:(discriminate)). reflexivity.
Qed.

Lemma branded_other (c : str) :
  ~ occurs l1 c -> ~ occurs l2 c -> ~ occurs l3 c -> branded c = c.
Proof.
  intros H1 H2 H3. rewrite branded_scans.
  rewrite (scan_absent l1 m1 c H1), (scan_absent l2 m2 c H2).
  apply scan_absent, H3.
Qed.

Lemma branded_gone (c : str) :
  ~ occurs l1 (branded c) /\ ~ occurs l2 (branded c) /\ ~ occurs l3 (branded c).
Proof.
  rewrite branded_scans. split; [|split].
  - intros O.
    apply (scan_no_new l3 m3 ltac:(discriminate) l1 _ eq_refl []) in O.
    apply (scan_no_new l2 m2 ltac:(discriminate) l1 _ eq_refl []) in O.
    exact (scan_gone l1 m1 ltac:(discriminate) c eq_refl O).
  - intros O.
    apply (scan_no_new l3 m3 ltac:(discriminate) l2 _ eq_refl []) in O.
    exact (scan_gone l2 m2 ltac:(discriminate) _ eq_refl O).
  - apply (scan_gone l3 m3 ltac:(discriminate)). reflexivity.
Qed.

(** The run of the metadata rewriter on a descriptor [c]. *)
Lemma refactor_setup_run (w : world R) (c : str) :
  FS.at_path (py "setup.py") (fs w) = Some (File c) ->
  exists es,
    fs w = Dir es /\
    refactor_setup_with_segmentio_branding w
    = (Ok tt, World (Dir (FS.set (py "setup.py") (File (branded c)) es))
                    (repo w) (trace w) (log w)).
Proof.
  intros H. pose proof H as Hat.
  change (FS.at_path (py "setup.py") (fs w))
    with (FS.lookup [py "setup.py"] (fs w)) in H.
  destruct (lookup_cons_inv _ _ _ _ H) as (es & sub & Efs & _ & _).
  exists es. split; [exact Efs|].
  unfold refactor_setup_with_segmentio_branding.
  rewrite (bind_ok _ _ w w c (read_file_ok _ c w Hat)).
  apply write_file_run.
  - intros es'. rewrite Hat. discriminate.
  - change (Py.components (py "setup.py")) with [py "setup.py"].
    rewrite Efs. reflexivity.
Qed.

(** X11.  Rewriting the descriptor a second time changes nothing: the
    first run leaves none of the three literals behind, so the second run
    writes back what it read. *)
Theorem X11_descriptor_rewrite_twice_is_once (w : world R) (c : str) :
  FS.at_path (py "setup.py") (fs w) = Some (File c) ->
  exists w1 c1,
    refactor_setup_with_segmentio_branding w = (Ok tt, w1) /\
    FS.at_path (py "setup.py") (fs w1) = Some (File c1) /\
    ~ occurs l1 c1 /\ ~ occurs l2 c1 /\ ~ occurs l3 c1 /\
    refactor_setup_with_segmentio_branding w1 = (Ok tt, w1).
Proof.
  intros H. destruct (refactor_setup_run w c H) as (es & Efs & Hrun).
  destruct (branded_gone c) as (G1 & G2 & G3).
  assert (FS.at_path (py "setup.py")
            (Dir (FS.set (py "setup.py") (File (branded c)) es))
          = Some (File (branded c))) as Hat1.
  { change (FS.at_path (py "setup.py") ?t) with (FS.lookup [py "setup.py"] t).
    cbn [FS.lookup]. rewrite assoc_set_same. reflexivity. }
  eexists. exists (branded c). split; [exact Hrun|].
  split; [exact Hat1|]. split; [exact G1|]. split; [exact G2|].
  split; [exact G3|].
  destruct (refactor_setup_run
              (World (Dir (FS.set (py "setup.py") (File (branded c)) es))
                     (repo w) (trace w) (log w)) _ Hat1)
    as (es1 & Efs1 & Hrun1).
  rewrite Hrun1. cbn [fs repo trace log] in Efs1 |- *.
  injection Efs1 as <-.
  rewrite set_set, (branded_other _ G1 G2 G3). reflexivity.
Qed.

(** X12.  Each of the three literals is replaced wherever it stands in
    the descriptor, and the text before and after it is rewritten as it
    would be on its own ([branded] is the three replacements in the order
    of the source). *)
Theorem X12_descriptor_literals_replaced_everywhere
        (w : world R) (a b l n : str) :
  In (l, n) [(l1, m1); (l2, m2); (l3, m3)] ->
  FS.at_path (py "setup.py") (fs w) = Some (File (a ++ l ++ b)) ->
  exists w',
    refactor_setup_with_segmentio_branding w = (Ok tt, w') /\
    FS.at_path (py "setup.py") (fs w')
    = Some (File (branded a ++ n ++ branded b)).
Proof.
  intros Hin H. destruct (refactor_setup_run w _ H) as (es & Efs & Hrun).
  eexists. split; [exact Hrun|].
  change (FS.at_path (py "setup.py") ?t) with (FS.lookup [py "setup.py"] t).
  cbn [fs FS.lookup]. rewrite assoc_set_same.
  destruct Hin as [E | [E | [E | []]]]; inversion E; subst l n.
  - rewrite branded_name. reflexivity.
  - rewrite branded_test_suite. reflexivity.
  - rewrite branded_packages. reflexivity.
Qed.

End Descriptor.

Section Imports_again.

Local Abbreviation o1 := (py "import analytics").
Local Abbreviation n1 := (py "import segmentio").
Local Abbreviation o2 := (py "from analytics.").
Local Abbreviation n2 := (py "from segmentio.").

(** X13.  Rewriting the imports of rewritten contents changes nothing:
    neither pattern is left after the first pass. *)
Theorem X13_import_rewrite_is_idempotent (c : str) :
  rewrite_imports (rewrite_imports c) = rewrite_imports c.
Proof.
  destruct (rewrite_imports_gone c) as [G1 G2].
  apply rewrite_imports_other; assumption.
Qed.

(** X14.  The two replacements of the import rewrite can be made in
    either order: replacing the from-imports first and the bare imports
    second gives the contents the source's order gives. *)
Theorem X14_import_rewrites_commute (c : str) :
  Py.replace (Py.replace c o2 n2) o1 n1 = rewrite_imports c.
Proof.
  apply (split_rewrite_unique [(o1, n1); (o2, n2)]
           (fun c => Py.replace (Py.replace c o2 n2) o1 n1) rewrite_imports).
  - intros o n [E | [E | []]]; inversion E; discriminate.
  - intros o n a b [E | [E | []]]; inversion E; subst o n.
    + change (Py.replace_from o1 n1 0 (Py.replace_from o2 n2 0 (a ++ o1 ++ b))
              = Py.replace_from o1 n1 0 (Py.replace_from o2 n2 0 a) ++ n1 ++
                Py.replace_from o1 n1 0 (Py.replace_from o2 n2 0 b)).
      rewrite (scan_keep_sep o2 n2 ltac:(discriminate) o1 a b eq_refl).
      apply (scan_replace_sep o1 n1 ltac:(discriminate)). reflexivity.
    + change (Py.replace_from o1 n1 0 (Py.replace_from o2 n2 0 (a ++ o2 ++ b))
              = Py.replace_from o1 n1 0 (Py.replace_from o2 n2 0 a) ++ n2 ++
                Py.replace_from o1 n1 0 (Py.replace_from o2 n2 0 b)).
      rewrite (scan_replace_sep o2 n2 ltac:(discriminate) a b eq_refl).
      apply (scan_keep_sep o1 n1 ltac:(discriminate) n2). reflexivity.
  - intros o n a b [E | [E | []]]; inversion E; subst o n.
    + apply rewrite_imports_import.
    + apply rewrite_imports_from.
  - intros s Hno.
    change (Py.replace_from o1 n1 0 (Py.replace_from o2 n2 0 s) = s).
    rewrite (scan_absent o2 n2 s (Hno o2 n2 (or_intror (or_introl eq_refl)))).
    apply scan_absent. exact (Hno o1 n1 (or_introl eq_refl)).
  - intros s Hno. apply rewrite_imports_other.
    + exact (Hno o1 n1 (or_introl eq_refl)).
    + exact (Hno o2 n2 (or_intror (or_introl eq_refl))).
Qed.

End Imports_again.

(** ** The outcomes of the main program *)

Section Outcomes.

Context {R : Type} {collab : Collaborator R}.



Lemma safe_check_output (cmd : list str) : safe R (check_output cmd).
Proof.
  unfold check_output. apply safe_bind; [apply safe_popen|]. intros [code out].
  destruct (code =? 0)%Z; [apply safe_ret | apply safe_raise; reflexivity].
Qed.

Lemma safe_record_start : safe R record_start.
Proof.
  unfold record_start. apply safe_bind; [apply safe_check_output | intros].
  apply safe_bind; [apply safe_logging | intros; apply safe_ret].
Qed.

Lemma safe_sync : safe R sync.
Proof.
  unfold sync. apply safe_bind; [apply safe_logging | intros _].
  unfold fetch_master_from_segmentio_analytics_python.
  apply safe_bind.
  - unfold get_segmentio_analytics_python_remote.
    apply safe_bind; [apply safe_check_output | intros remotes].
    destruct (re_search_remote remotes) as [[name url]|];
      [apply safe_ret | apply safe_raise; reflexivity].
  - intros [name url].
    apply safe_bind; [apply safe_check_call | intros; apply safe_check_call].
Qed.

Lemma safe_guard : safe R guard.
Proof.
  unfold guard. apply safe_bind; [apply safe_logging | intros _].
  unfold checkout_segmentio_branded_branch.
  apply safe_bind; [apply safe_check_output | intros b].
  destruct (negb (Py.eqb fixed_branch b)); [|apply safe_ret].
  apply safe_bind; [apply safe_call | intros code].
  apply safe_bind; [|intros; apply safe_check_call].
  destruct (negb (code =? 0)%Z); [|apply safe_ret].
  apply safe_bind; [apply safe_check_output | intros].
  apply safe_raise. reflexivity.
Qed.

Lemma safe_compare_tags : safe R compare_tags.
Proof.
  unfold compare_tags. apply safe_bind; [apply safe_logging | intros _].
  unfold get_most_recent_tag.
  apply safe_bind; [apply safe_check_output | intros o1].
  apply safe_bind; [apply safe_check_output | intros o2].
  apply safe_bind; [apply safe_logging | intros _].
  apply safe_bind; [apply safe_logging | intros _].
  apply safe_bind; [|intros; apply safe_ret].
  destruct (Py.eqb _ _); [apply safe_logging | apply safe_ret].
Qed.

Lemma safe_merge_tagged_version (tag : str) : safe R (merge_tagged_version tag).
Proof.
  unfold merge_tagged_version.
  apply safe_bind; [apply safe_check_call | intros; apply safe_check_call].
Qed.

Lemma safe_rollback (sc : str) : safe R (rollback sc).
Proof.
  unfold rollback.
  apply safe_bind; [apply safe_logging | intros; apply safe_check_call].
Qed.

Lemma safe_try {A} (body : M R A) (handler : M R unit) :
  safe R body -> safe R handler -> safe R (try_except_reraise body handler).
Proof.
  intros Hb Hh w e w' H. unfold try_except_reraise in H.
  destruct (body w) as [[a|e0] w0] eqn:E; [discriminate|].
  pose proof (Hb _ _ _ E) as He0. rewrite He0 in H.
  destruct (handler w0) as [[u|e1] w1] eqn:E1.
  - inversion H; subst. exact He0.
  - inversion H; subst. exact (Hh _ _ _ E1).
Qed.

(** The [try] statement and what follows it. *)
Lemma safe_rebuild_and_report (depth : nat) (sc mrt : str) :
  safe R
       (try_except_reraise (rebuild_through_commit depth) (rollback sc) ;;
        logging_info (py "now you may run: `git push origin segmentio-release`") ;;
        logging_info (py "successfully created segmentio Release " ++ mrt)).
Proof.
  apply safe_bind.
  - apply safe_try; [apply safe_rebuild_through_commit | apply safe_rollback].
  - intros _. apply safe_bind; [apply safe_logging | intros; apply safe_logging].
Qed.

(** What the main program can raise: an exception of class [Exception],
    or the exit at equal tags. *)
Lemma main_raise_cases (depth : nat) (skip : bool) (w w' : world R) (e : exn) :
  main depth skip w = (Raise e, w') ->
  is_Exception e = true \/
  (e = SystemExit 0 /\ skip = false /\
   exists sc w1 w2 w3 ct,
     record_start w = (Ok sc, w1) /\ sync w1 = (Ok tt, w2) /\
     guard w2 = (Ok tt, w3) /\ compare_tags w3 = (Ok (ct, ct), w')).
Proof.
  intros H.
  destruct (record_start w) as [[sc|e1] w1] eqn:H1.
  2:{ unfold main in H. rewrite (bind_raise _ _ _ _ _ H1) in H.
      inversion H; subst. left. exact (safe_record_start _ _ _ H1). }
  destruct (sync w1) as [[[]|e2] w2] eqn:H2.
  2:{ unfold main in H.
      rewrite (bind_ok _ _ _ _ _ H1), (bind_raise _ _ _ _ _ H2) in H.
      inversion H; subst. left. exact (safe_sync _ _ _ H2). }
  destruct (guard w2) as [[[]|e3] w3] eqn:H3.
  2:{ unfold main in H.
      rewrite (bind_ok _ _ _ _ _ H1), (bind_ok _ _ _ _ _ H2),
        (bind_raise _ _ _ _ _ H3) in H.
      inversion H; subst. left. exact (safe_guard _ _ _ H3). }
  destruct (compare_tags w3) as [[[ct mrt]|e4] w4] eqn:H4.
  2:{ unfold main in H.
      rewrite (bind_ok _ _ _ _ _ H1), (bind_ok _ _ _ _ _ H2),
        (bind_ok _ _ _ _ _ H3), (bind_raise _ _ _ _ _ H4) in H.
      inversion H; subst. left. exact (safe_compare_tags _ _ _ H4). }
  rewrite (main_after_tags w w1 w2 w3 w4 depth skip sc ct mrt H1 H2 H3 H4) in H.
  unfold release_merge in H. destruct skip; cbn [negb] in H.
  - left.
    refine (safe_bind _ _ (safe_ret tt) _ w4 e w' H).
    intros _. apply safe_rebuild_and_report.
  - destruct (Py.eqb ct mrt) eqn:Eq.
    + right. apply eqb_true_iff in Eq. subst mrt.
      unfold bind at 1 2 in H. unfold sys_exit, raise in H.
      inversion H; subst. split; [reflexivity|]. split; [reflexivity|].
      exists sc, w1, w2, w3, ct. auto.
    + left. refine (safe_bind _ _ _ _ w4 e w' H).
      * apply safe_bind; [apply safe_ret | intros _].
        apply safe_bind; [apply safe_logging | intros _].
        apply safe_merge_tagged_version.
      * intros _. apply safe_rebuild_and_report.
Qed.

(** X15.  Once the arguments are parsed (the parser has exits of its
    own, which [main] does not cover), the only way the program ends on
    [SystemExit] is the exit with status 0 at equal tags: the merge is not
    skipped, the four phases before it succeeded, the two tags are the
    same, and nothing was run after the tag comparison. *)
Theorem X15_only_exit_is_at_equal_tags
        (depth : nat) (skip : bool) (w w' : world R) (e : exn) :
  main depth skip w = (Raise e, w') -> is_Exception e = false ->
  e = SystemExit 0 /\ skip = false /\
  exists sc w1 w2 w3 ct,
    record_start w = (Ok sc, w1) /\ sync w1 = (Ok tt, w2) /\
    guard w2 = (Ok tt, w3) /\ compare_tags w3 = (Ok (ct, ct), w').
Proof.
  intros H He. destruct (main_raise_cases depth skip w w' e H) as [Hx | Hx].
  - congruence.
  - exact Hx.
Qed.









(** X18.  When [segmentio] is a regular file the rebuild stops at its
    first step: [os.path.isdir] is false, nothing is removed, and
    [os.mkdir] raises [OSError]; no command has run and no file has been
    written by then. *)
Theorem X18_target_that_is_a_file_fails (depth : nat) (w : world R) (c : str) :
  FS.at_path (py "segmentio") (fs w) = Some (File c) ->
  rebuild_through_commit depth w
  = (Raise (OSError (py "segmentio")),
     logged INFO (py "clobber segmentio generated packaged") w).
Proof.
  intros H. unfold rebuild_through_commit.
  apply bind_raise. unfold clobber, bind at 1.
  unfold logging_info. rewrite logging_run.
  unfold bind at 1. unfold os_path_isdir. cbn [fs logged]. rewrite H.
  unfold bind at 1. unfold ret. unfold os_mkdir, bind, get_fs.
  cbn [fs logged]. rewrite H. reflexivity.
Qed.

End Outcomes.

(** ** Where the rewriter writes *)

Section Confined.

Context {R : Type} {collab : Collaborator R}.

Local Abbreviation seg := (py "segmentio").
Local Abbreviation relative := (fun b : str => Py.startswith b [Py.slash] = false).

Lemma rsplit_slash_tail (p : str) (c : ascii) :
  In c (snd (Py.rsplit_slash p)) -> c <> Py.slash.
Proof.
  revert c. induction p as [|d p IH]; intros c; [intros []|].
  cbn [Py.rsplit_slash]. destruct (Py.rsplit_slash p) as [h t].
  cbn [snd] in IH. destruct h as [|a h]; [|exact (IH c)].
  destruct (Ascii.eqb d Py.slash) eqn:E; cbn [snd]; [exact (IH c)|].
  intros [<- | H]; [|exact (IH c H)].
  intros ->. rewrite Ascii.eqb_refl in E. discriminate.
Qed.

Lemma basename_relative (p : str) : relative (Py.os_path_basename p).
Proof.
  unfold Py.os_path_basename.
  pose proof (rsplit_slash_tail p) as H.
  destruct (snd (Py.rsplit_slash p)) as [|c t]; [reflexivity|].
  cbn [Py.startswith].
  destruct (Ascii.eqb Py.slash c) eqn:E; [exfalso | reflexivity].
  apply ascii_eqb_true in E.
  apply (H c); [left; reflexivity | symmetry; exact E].
Qed.

Lemma join2_under (u b : str) :
  relative b -> exists u', Py.join2 (seg ++ Py.slash :: u) b = seg ++ Py.slash :: u'.
Proof.
  intros Hb. unfold Py.join2. rewrite Hb.
  destruct (Py.eqb _ [] || Py.endswith _ [Py.slash]).
  - exists (u ++ b). rewrite <- app_assoc. reflexivity.
  - exists (u ++ Py.slash :: b). rewrite <- app_assoc. reflexivity.
Qed.

Lemma fold_join2_under (rest : list str) (u : str) :
  Forall relative rest ->
  exists u', fold_left Py.join2 rest (seg ++ Py.slash :: u) = seg ++ Py.slash :: u'.
Proof.
  revert u. induction rest as [|b rest IH]; intros u H; [exists u; reflexivity|].
  inversion H as [|? ? Hb Hrest]; subst. cbn [fold_left].
  destruct (join2_under u b Hb) as [u1 ->]. apply IH, Hrest.
Qed.

(** A path joined from [segmentio] and relative parts resolves below
    [segmentio]. *)
Lemma components_under (rel : list str) (x : str) :
  Forall relative rel -> relative x ->
  exists r, Py.components (Py.os_path_join ([seg] ++ rel ++ [x])) = seg :: r.
Proof.
  intros Hrel Hx.
  assert (Forall relative (rel ++ [x])) as H
      by (apply Forall_app; split; [exact Hrel | constructor; [exact Hx | constructor]]).
  destruct (rel ++ [x]) as [|b rest] eqn:E; [destruct rel; discriminate|].
  inversion H as [|? ? Hb Hrest]; subst.
  cbn [app Py.os_path_join fold_left].
  assert (Py.join2 seg b = seg ++ Py.slash :: b) as ->
      by (unfold Py.join2; rewrite Hb; reflexivity).
  destruct (fold_join2_under rest b Hrest) as [u ->].
  exists (Py.components u). unfold Py.components.
  rewrite (components_aux_plain seg [] (Py.slash :: u)).
  - cbn [Py.components_aux]. rewrite Ascii.eqb_refl. reflexivity.
  - intros c Hc. cbn in Hc.
    repeat (destruct Hc as [<- | Hc]; [discriminate|]). destruct Hc.
Qed.

Lemma confined_still {A} (m : M R A) :
  (forall w, fs (snd (m w)) = fs w) -> confined R m.
Proof. intros H w x q _. rewrite H. reflexivity. Qed.

Lemma confined_bind {A B} (m : M R A) (k : A -> M R B) :
  confined R m -> (forall a, confined R (k a)) -> confined R (bind m k).
Proof.
  intros Hm Hk w x q Hx. unfold bind.
  pose proof (Hm w x q Hx) as H1.
  destruct (m w) as [[a|e] w1]; cbn [snd] in H1 |- *; [|exact H1].
  rewrite (Hk a w1 x q Hx). exact H1.
Qed.

Lemma confined_for_each {A} (l : list A) (body : A -> M R unit) :
  (forall x, confined R (body x)) -> confined R (for_each l body).
Proof.
  intros H. induction l as [|x l IH]; cbn [for_each].
  - apply confined_still. reflexivity.
  - apply confined_bind; [apply H | intros; exact IH].
Qed.

Lemma eqb_sym_false (x y : str) : Py.eqb x y = false -> y <> x.
Proof. intros H E. subst y. rewrite eqb_refl in H. discriminate. Qed.

Lemma confined_write_file (p c : str) (r : list str) :
  Py.components p = seg :: r -> confined R (write_file p c).
Proof.
  intros Hp w x q Hx. unfold write_file, bind, get_fs. rewrite Hp.
  destruct (FS.at_path p (fs w)) as [[c0|es]|];
    try reflexivity;
    (destruct (FS.insert_at (seg :: r) (File c) (fs w)) as [t'|] eqn:E;
     [|reflexivity]);
    exact (lookup_insert_at_other seg x r q _ _ _ (eqb_sym_false _ _ Hx) E).
Qed.

Lemma confined_os_mkdir (p : str) (r : list str) :
  Py.components p = seg :: r -> confined R (os_mkdir p).
Proof.
  intros Hp w x q Hx. unfold os_mkdir, bind, get_fs. rewrite Hp.
  destruct (FS.at_path p (fs w)) as [n|]; [reflexivity|].
  destruct (FS.insert_at (seg :: r) (Dir []) (fs w)) as [t'|] eqn:E;
    [|reflexivity].
  exact (lookup_insert_at_other seg x r q _ _ _ (eqb_sym_false _ _ Hx) E).
Qed.

Lemma confined_package_entry (recurse : list str -> M R unit)
      (rel : list str) (filepath : str) :
  Forall relative rel ->
  (forall r, Forall relative r -> confined R (recurse r)) ->
  confined R (package_entry recurse rel filepath).
Proof.
  intros Hrel H. unfold package_entry.
  destruct (components_under rel (Py.os_path_basename filepath) Hrel
                             (basename_relative filepath)) as [r Hr].
  apply confined_bind; [apply confined_still; reflexivity|]. intros [|].
  - apply confined_bind; [exact (confined_os_mkdir _ r Hr) | intros _].
    apply H. apply Forall_app. split; [exact Hrel|].
    constructor; [apply basename_relative | constructor].
  - destruct (Py.endswith filepath (py ".py")).
    + apply confined_bind;
        [apply confined_still; intros w; unfold read_file, bind, get_fs;
         destruct (FS.at_path filepath (fs w)) as [[|]|]; reflexivity | intros c].
      apply confined_bind; [exact (confined_write_file _ _ r Hr) | intros _].
      apply confined_bind; [|intros; apply confined_still; reflexivity].
      apply confined_still. intros w. rewrite call_diff. reflexivity.
    + apply confined_bind; [apply confined_still; reflexivity | intros _].
      unfold shutil_copyfile. destruct (Py.list_eqb _ _).
      * apply confined_still. reflexivity.
      * apply confined_bind;
          [apply confined_still; intros w; unfold read_file, bind, get_fs;
           destruct (FS.at_path filepath (fs w)) as [[|]|]; reflexivity | intros c].
        exact (confined_write_file _ _ r Hr).
Qed.

Lemma confined_create_rec (depth : nat) (rel : list str) :
  Forall relative rel ->
  confined R (create_segmentio_branded_package_rec depth rel).
Proof.
  revert rel. induction depth as [|d IH]; intros rel Hrel;
    cbn [create_segmentio_branded_package_rec].
  - apply confined_still. reflexivity.
  - apply confined_bind.
    + apply confined_still. intros w. unfold glob.
      destruct (Py.os_path_split _) as [dn bn]. unfold bind, get_fs, ret.
      destruct (Py.eqb bn (py "*")); [|reflexivity].
      destruct (FS.at_path dn (fs w)) as [[|]|]; reflexivity.
    + intros l. apply confined_for_each. intros x.
      apply confined_package_entry; [exact Hrel | exact IH].
Qed.

(** X7.  In a working directory made of regular files and directories
    (a [node] has no symbolic or hard links, through which a write could
    reach another place), the rewriter writes below [segmentio] only:
    whichever files and directories it holds, and whether the run ends
    well or not, every entry under another top-level name - the source
    package and the descriptor among them - is after the run what it was
    before. *)
Theorem X7_rewriter_writes_under_target_only
        (depth : nat) (w : world R) (x : str) (q : list str) :
  Py.eqb x seg = false ->
  FS.lookup (x :: q) (fs (snd (create_segmentio_branded_package depth None w)))
  = FS.lookup (x :: q) (fs w).
Proof.
  intros Hx. unfold create_segmentio_branded_package.
  apply (confined_create_rec depth [py ""]); [|exact Hx].
  constructor; [reflexivity | constructor].
Qed.

End Confined.

(** ** Further concrete runs *)

Lemma X1_remote_found_iff_line_present_witness :
  status Cmd.remote_v Sim.world0 = 0%Z /\
  exists name,
    get_segmentio_analytics_python_remote Sim.world0
    = (Ok (name, segment_url), after Cmd.remote_v Sim.world0) /\
    forallb is_name_char name = true.
Proof.
  split; [reflexivity|].
  destruct (X1_remote_found_iff_line_present Sim.repo Sim.collaborator Sim.world0)
    as [_ Hfound].
  - reflexivity.
  - destruct Hfound as (name & Hrun & Hname & _).
    + apply contains_iff. vm_compute. reflexivity.
    + exists name. split; [exact Hrun | exact Hname].
Defined.

Lemma X2_remote_name_is_letter_run_witness :
  stdout Cmd.remote_v (Sim.world_of Sim.repo_dashed)
  = py "my-" ++ py "remote" ++ fetch_line_tail ++
    (nl ++ py "my-remote" ++ tab ++
     py "git@github.com:segmentio/analytics-python (push)" ++ nl) /\
  get_segmentio_analytics_python_remote (Sim.world_of Sim.repo_dashed)
  = (Ok (py "remote", segment_url),
     after Cmd.remote_v (Sim.world_of Sim.repo_dashed)).
Proof.
  assert (stdout Cmd.remote_v (Sim.world_of Sim.repo_dashed)
          = py "my-" ++ py "remote" ++ fetch_line_tail ++
            (nl ++ py "my-remote" ++ tab ++
             py "git@github.com:segmentio/analytics-python (push)" ++ nl)) as H
      by (vm_compute; reflexivity).
  split; [exact H|].
  apply (X2_remote_name_is_letter_run
           Sim.repo Sim.collaborator (Sim.world_of Sim.repo_dashed)
           (py "my-") (py "remote")
           (nl ++ py "my-remote" ++ tab ++
            py "git@github.com:segmentio/analytics-python (push)" ++ nl)).
  - reflexivity.
  - exact H.
  - reflexivity.
  - right. exists (py "my"), "-"%char. split; reflexivity.
  - reflexivity.
Defined.

Lemma X3_missing_remote_stops_the_run_witness :
  record_start (Sim.world_of Sim.repo_fork_only)
  = (Ok (py "c0ffee"), at_sync (Sim.world_of Sim.repo_fork_only)) /\
  fst (main 5 false (Sim.world_of Sim.repo_fork_only))
  = Raise (ValueError (py "could not find segment remote")) /\
  trace (snd (main 5 false (Sim.world_of Sim.repo_fork_only)))
  = [Cmd.rev_parse_head; Cmd.remote_v].
Proof.
  pose (w := Sim.world_of Sim.repo_fork_only).
  assert (record_start w = (Ok (py "c0ffee"), at_sync w)) as H1
      by (vm_compute; reflexivity).
  split; [exact H1|].
  destruct (X3_missing_remote_stops_the_run
              Sim.repo Sim.collaborator w (at_sync w) 5 false (py "c0ffee") H1)
    as [Hmain Htrace].
  - vm_compute. reflexivity.
  - apply not_contains. vm_compute. reflexivity.
  - fold w. rewrite Hmain. split; [reflexivity | exact Htrace].
Defined.

Lemma X5_tags_are_stripped_outputs_witness :
  get_most_recent_tag Sim.world0
  = (Ok (py "v1.3.0", py "v1.4.0"), snd (get_most_recent_tag Sim.world0)) /\
  trace (snd (get_most_recent_tag Sim.world0))
  = [Cmd.describe_master; Cmd.describe_tags] /\
  log (snd (get_most_recent_tag Sim.world0))
  = [(DEBUG, py "current_local_tag: v1.3.0");
     (DEBUG, py "most_recent_tag: v1.4.0")].
Proof.
  assert (get_most_recent_tag Sim.world0
          = (Ok (py "v1.3.0", py "v1.4.0"), snd (get_most_recent_tag Sim.world0)))
    as H by (vm_compute; reflexivity).
  split; [exact H|].
  destruct (X5_tags_are_stripped_outputs Sim.repo Sim.collaborator Sim.world0
              _ _ _ H) as (_ & _ & _ & Htrace & Hlog).
  split; [exact Htrace | exact Hlog].
Defined.

Lemma X7_rewriter_writes_under_target_only_witness :
  Py.eqb (py "analytics") (py "segmentio") = false /\
  FS.lookup [py "analytics"; py "client.py"]
            (fs (snd (create_segmentio_branded_package 5 None Sim.world0)))
  = Some (File (py "from analytics.utils import x # import analytics")).
Proof.
  split; [reflexivity|].
  rewrite (X7_rewriter_writes_under_target_only
             5 Sim.world0 (py "analytics") [py "client.py"]).
  - reflexivity.
  - reflexivity.
Defined.

Lemma X8_missing_source_is_no_error_witness :
  FS.at_path (py "analytics") (fs Sim.world_without_source) = None /\
  create_segmentio_branded_package 5 None Sim.world_without_source
  = (Ok tt, Sim.world_without_source).
Proof.
  split; [reflexivity|].
  apply (X8_missing_source_is_no_error 4 Sim.world_without_source).
  intros es. vm_compute. discriminate.
Defined.

Lemma X9_existing_target_directory_fails_witness :
  FS.lookup [py "segmentio"; py "test"] (fs Sim.world_with_target_entry)
  = Some (Dir []) /\
  create_segmentio_branded_package 5 None Sim.world_with_target_entry
  = (Raise (OSError (py "segmentio/test")), Sim.world_with_target_entry).
Proof.
  split; [reflexivity|].
  apply (X9_existing_target_directory_fails
           4 Sim.world_with_target_entry (py "test") (Dir [])
           [(py ".git", Dir [])] [] []).
  - reflexivity.
  - reflexivity.
  - reflexivity.
  - reflexivity.
  - reflexivity.
Defined.

Lemma X10_log_tells_refactored_from_copied_witness :
  FS.lookup [py "analytics"; py "README"] (fs Sim.world_cleared)
  = Some (File (py "import analytics")) /\
  exists t',
    package_entry (create_segmentio_branded_package_rec 4) [py ""]
                  (py "analytics/README") Sim.world_cleared
    = (Ok tt,
       World t' Sim.repo0 []
             [(DEBUG, copied_message (py "analytics/README")
                                     (py "segmentio/README"))]) /\
    FS.lookup [py "segmentio"; py "README"] t'
    = Some (File (py "import analytics")).
Proof.
  split; [reflexivity|].
  destruct (X10_log_tells_refactored_from_copied
              (create_segmentio_branded_package_rec 4) [] (py "README")
              (py "import analytics") [] Sim.world_cleared)
    as (t' & Hrun & Hdst & _).
  - constructor.
  - reflexivity.
  - reflexivity.
  - reflexivity.
  - reflexivity.
  - exists t'. split; [exact Hrun | exact Hdst].
Defined.

Lemma X11_descriptor_rewrite_twice_is_once_witness :
  FS.at_path (py "setup.py") (fs Sim.world0) = Some (File Sim.setup_py) /\
  exists w1,
    refactor_setup_with_segmentio_branding Sim.world0 = (Ok tt, w1) /\
    refactor_setup_with_segmentio_branding w1 = (Ok tt, w1).
Proof.
  split; [reflexivity|].
  destruct (X11_descriptor_rewrite_twice_is_once Sim.world0 Sim.setup_py)
    as (w1 & c1 & H1 & _ & _ & _ & _ & H2).
  - reflexivity.
  - exists w1. split; [exact H1 | exact H2].
Defined.

Lemma X12_descriptor_literals_replaced_everywhere_witness :
  FS.at_path (py "setup.py") (fs Sim.world0)
  = Some (File (py "setup(" ++ py "name='analytics-python'" ++
                py ", test_suite='analytics.test.all')")) /\
  exists w',
    refactor_setup_with_segmentio_branding Sim.world0 = (Ok tt, w') /\
    FS.at_path (py "setup.py") (fs w')
    = Some (File (py "setup(name='segmentio', test_suite='segmentio.test.all')")).
Proof.
  split; [reflexivity|].
  destruct (X12_descriptor_literals_replaced_everywhere
              Sim.world0 (py "setup(") (py ", test_suite='analytics.test.all')")
              (py "name='analytics-python'") (py "name='segmentio'"))
    as (w' & Hrun & Hc).
  - left. reflexivity.
  - reflexivity.
  - exists w'. split; [exact Hrun | exact Hc].
Defined.

Lemma X15_only_exit_is_at_equal_tags_witness :
  main 5 false (Sim.world_of Sim.repo_up_to_date)
  = (Raise (SystemExit 0), at_merge (Sim.world_of Sim.repo_up_to_date)) /\
  exists sc w1 w2 w3 ct,
    record_start (Sim.world_of Sim.repo_up_to_date) = (Ok sc, w1) /\
    sync w1 = (Ok tt, w2) /\ guard w2 = (Ok tt, w3) /\
    compare_tags w3
    = (Ok (ct, ct), at_merge (Sim.world_of Sim.repo_up_to_date)).
Proof.
  pose (w := Sim.world_of Sim.repo_up_to_date).
  assert (main 5 false w = (Raise (SystemExit 0), at_merge w)) as H
      by (vm_compute; reflexivity).
  split; [exact H|].
  destruct (X15_only_exit_is_at_equal_tags 5 false w (at_merge w)
                                           (SystemExit 0) H)
    as (_ & _ & Hrun).
  - reflexivity.
  - exact Hrun.
Defined.


Lemma X18_target_that_is_a_file_fails_witness :
  FS.at_path (py "segmentio") (fs Sim.world_with_target_file)
  = Some (File (py "not a package")) /\
  rebuild_through_commit 5 Sim.world_with_target_file
  = (Raise (OSError (py "segmentio")),
     logged INFO (py "clobber segmentio generated packaged")
            Sim.world_with_target_file).
Proof.
  split; [reflexivity|].
  apply (X18_target_that_is_a_file_fails
           5 Sim.world_with_target_file (py "not a package")).
  reflexivity.
Defined.
